(** * Medical report simplifier: matcher, normalizer and guardrail

    A shallow embedding of the entity-resolution and anti-hallucination
    core of the report simplifier, and the properties proved of it:

    - [services/similarityMatcher.js]  (class [SimilarityMatcher]),
    - [services/testNormalizer.js]     (class [MedicalTestNormalizer]),
    - [services/guardrailService.js]   (class [GuardrailService]),
    - [services/hallucinationValidator.js] (the fuzzy matcher of
      [HallucinationValidator]),
    - [reportParser.js] (the helpers on the raw text) and [index.js] (the
      request handler, from the guardrail on).

    Conventions of the embedding.

    - JavaScript strings are Rocq strings.  The builtins [toLowerCase],
      [trim], [includes], [split(/\s+/)], [charAt] and the character
      classes of the regular expressions are written out for ASCII text.
    - The numbers that the scoring code computes are ratios of two string
      lengths and sums and products of a few decimal constants.  They are
      modelled by exact rationals [Q] and compared up to [Qeq]; the
      rounding of doubles is not modelled.
    - A measured test value is a [JsNumber]: a rational, an infinity or
      NaN, with the comparison rules of the language (every comparison with
      NaN is false).
    - An object used as a dictionary (the knowledge base, the constant
      tables) is the association list of its own properties in
      [Object.entries] order; [object[k]] also finds the names inherited
      from [Object.prototype] ([Js.get]).  A [Map] is a [gmap]; a [Set]
      whose iteration order is observed is a duplicate-free list.
    - A property of a record that may be missing is an [option]; [None]
      stands for a missing property and for [undefined].
    - A call of the guardrail returns a [Completion], a value or an
      exception: the guardrail throws a [TypeError] when it iterates over,
      or calls a method of, a value inherited from [Object.prototype].
    - Loops are folds over the index range or recursion over the array; a
      [return] inside a loop is the left summand of a sum.
    - [console.log] calls are dropped: they have no effect on results.
    - The optional libraries [natural] and [fuse.js] are not part of the
      repository; a matcher is built from an optional record of their entry
      points, absent when [require] fails. *)

From Stdlib Require Import Ascii String QArith Qminmax Lia Lqa.
From stdpp Require Import gmap strings list.

Local Open Scope string_scope.
Local Open Scope list_scope.

(** ** JavaScript builtins on strings *)

Module Js.

Definition code (c : ascii) : nat := nat_of_ascii c.

(** [\s] restricted to ASCII: tab, line feed, vertical tab, form feed,
    carriage return and space. *)
Definition is_space (c : ascii) : bool :=
  let n := code c in
  ((9 <=? n)%nat && (n <=? 13)%nat) || (n =? 32)%nat.

Definition is_upper (c : ascii) : bool :=
  let n := code c in (65 <=? n)%nat && (n <=? 90)%nat.

Definition is_lower (c : ascii) : bool :=
  let n := code c in (97 <=? n)%nat && (n <=? 122)%nat.

Definition is_digit (c : ascii) : bool :=
  let n := code c in (48 <=? n)%nat && (n <=? 57)%nat.

Definition lower_char (c : ascii) : ascii :=
  if is_upper c then ascii_of_nat (code c + 32) else c.

Fixpoint map_chars (f : ascii -> ascii) (s : string) : string :=
  match s with
  | EmptyString => EmptyString
  | String c s' => String (f c) (map_chars f s')
  end.

(** [s.toLowerCase()] *)
Definition toLowerCase (s : string) : string := map_chars lower_char s.

Fixpoint trimStart (s : string) : string :=
  match s with
  | EmptyString => EmptyString
  | String c s' => if is_space c then trimStart s' else s
  end.

Fixpoint rev_string (acc s : string) : string :=
  match s with
  | EmptyString => acc
  | String c s' => rev_string (String c acc) s'
  end.

Definition trimEnd (s : string) : string :=
  rev_string EmptyString (trimStart (rev_string EmptyString s)).

(** [s.trim()] *)
Definition trim (s : string) : string := trimEnd (trimStart s).

Fixpoint startsWith (p s : string) : bool :=
  match p, s with
  | EmptyString, _ => true
  | String a p', String b s' => if Ascii.eqb a b then startsWith p' s' else false
  | String _ _, EmptyString => false
  end.

(** [s.includes(sub)] *)
Fixpoint includes (s sub : string) : bool :=
  startsWith sub s ||
  match s with
  | EmptyString => false
  | String _ s' => includes s' sub
  end.

(** [s.split(/\s+/)]: the pieces between maximal runs of whitespace.  A
    string that starts (ends) with whitespace yields an empty first (last)
    piece, and the empty string yields one empty piece. *)
Fixpoint split_ws_from (s : string) (cur : string) (in_gap : bool) : list string :=
  match s with
  | EmptyString => [rev_string EmptyString cur]
  | String c s' =>
      if is_space c then
        if in_gap then split_ws_from s' EmptyString true
        else rev_string EmptyString cur :: split_ws_from s' EmptyString true
      else split_ws_from s' (String c cur) false
  end.

Definition split_ws (s : string) : list string := split_ws_from s EmptyString false.

(** [s.replace(/[^a-z0-9\s]/g, ' ')] *)
Definition blank_non_alnum (s : string) : string :=
  map_chars (fun c => if is_lower c || is_digit c || is_space c then c else " "%char) s.

(** Truthiness of a string value: only the empty string is falsy. *)
Definition truthy (s : string) : bool :=
  match s with EmptyString => false | _ => true end.

(** A property that may be missing: [None] stands for [undefined]. *)
Definition truthy_opt (o : option string) : bool :=
  match o with Some s => truthy s | None => false end.

(** Interpolation [`${x}`] of a property that may be [undefined]. *)
Definition show (o : option string) : string :=
  match o with Some s => s | None => "undefined" end.

(** [s.charAt(i)]; out of range the builtin returns the empty string,
    here [None]. *)
Fixpoint charAt (s : string) (i : nat) : option ascii :=
  match s, i with
  | EmptyString, _ => None
  | String c _, O => Some c
  | String _ s', S i' => charAt s' i'
  end.

Definition char_eqb (a b : option ascii) : bool :=
  match a, b with
  | Some x, Some y => Ascii.eqb x y
  | None, None => true
  | _, _ => false
  end.

(** *** Reading a property of an object literal *)

(** The properties that an object literal inherits from
    [Object.prototype].  [constructor] is the function [Object],
    [__proto__] is the prototype object itself, and every other one is a
    function whose [name] is the name of the property. *)
Definition prototype_names : list string :=
  [ "constructor"; "__defineGetter__"; "__defineSetter__"; "hasOwnProperty";
    "__lookupGetter__"; "__lookupSetter__"; "isPrototypeOf"; "propertyIsEnumerable";
    "toString"; "valueOf"; "__proto__"; "toLocaleString" ].

Definition inherited (k : string) : bool := existsb (String.eqb k) prototype_names.

(** The [name] of the value inherited under [k]; the prototype object has
    none. *)
Definition inherited_name (k : string) : option string :=
  if String.eqb k "__proto__" then None
  else if String.eqb k "constructor" then Some "Object"
  else Some k.

(** What [object[k]] evaluates to: the value of an own property, a value
    inherited from the prototype, or [undefined].  An inherited value is
    truthy; it is not iterable, has no method [includes], and none of the
    properties that the services read from a row of a table, except
    [name]. *)
Inductive Property (A : Type) : Type :=
  | Own (a : A)
  | Inherited
  | Undefined.
Arguments Own {A} a.
Arguments Inherited {A}.
Arguments Undefined {A}.

(** The own properties of an object, in [Object.entries] order. *)
Fixpoint own {A : Type} (object : list (string * A)) (k : string) : option A :=
  match object with
  | [] => None
  | (k', v) :: object' => if String.eqb k' k then Some v else own object' k
  end.

(** [object[k]] *)
Definition get {A : Type} (object : list (string * A)) (k : string) : Property A :=
  match own object k with
  | Some v => Own v
  | None => if inherited k then Inherited else Undefined
  end.

(** [a || b] on two such values, none of which is falsy once defined. *)
Definition or {A : Type} (a b : Property A) : Property A :=
  match a with Undefined => b | _ => a end.

End Js.

(** ** Completions: a call returns a value or throws *)

Inductive Completion (A : Type) : Type :=
  | Returns (a : A)
  | Throws (message : string).
Arguments Returns {A} a.
Arguments Throws {A} message.

Definition bind {A B : Type} (c : Completion A) (k : A -> Completion B) : Completion B :=
  match c with
  | Returns a => k a
  | Throws message => Throws message
  end.

Notation "'do' x <- c ; k" := (bind c (fun x => k))
  (at level 10, x name, c at level 100, k at level 200).

(** ** JavaScript numbers carried by test records *)

Inductive JsNumber : Type :=
  | NaN
  | NegInf
  | Fin (q : Q)
  | PosInf.

Module Num.

Definition Qltb (a b : Q) : bool := negb (Qle_bool b a).
Definition Qleb (a b : Q) : bool := Qle_bool a b.

(** [a < b] *)
Definition ltb (a b : JsNumber) : bool :=
  match a, b with
  | NaN, _ | _, NaN => false
  | NegInf, NegInf => false
  | NegInf, _ => true
  | _, NegInf => false
  | PosInf, _ => false
  | Fin _, PosInf => true
  | Fin x, Fin y => Qltb x y
  end.

(** [a <= b] *)
Definition leb (a b : JsNumber) : bool :=
  match a, b with
  | NaN, _ | _, NaN => false
  | NegInf, _ => true
  | _, NegInf => false
  | _, PosInf => true
  | PosInf, Fin _ => false
  | Fin x, Fin y => Qleb x y
  end.

(** [a > b] and [a >= b] are the mirrored comparisons. *)
Definition gtb (a b : JsNumber) : bool := ltb b a.
Definition geb (a b : JsNumber) : bool := leb b a.

Definition isNaN (a : JsNumber) : bool :=
  match a with NaN => true | _ => false end.

End Num.

(** A property holding a number or a string, or missing ([undefined] or
    [null]). *)
Inductive JsValue : Type :=
  | VUndefined
  | VNumber (n : JsNumber)
  | VString (s : string).

Module ParseFloat.

(** The longest prefix of decimal digits: its value continuing from [acc],
    its length, and the rest of the string. *)
Fixpoint digits (s : string) (acc : Z) (len : nat) : Z * nat * string :=
  match s with
  | String c s' =>
      if Js.is_digit c then digits s' (10 * acc + Z.of_nat (Js.code c - 48)) (S len)
      else (acc, len, s)
  | EmptyString => (acc, len, s)
  end.

(** An optional sign: [true] when negative. *)
Definition sign (s : string) : bool * string :=
  match s with
  | String "-" s' => (true, s')
  | String "+" s' => (false, s')
  | _ => (false, s)
  end.

Definition pow10 (e : Z) : Q := (inject_Z 10) ^ e.

(** The exponent part [e[+-]ddd], when it is complete. *)
Definition exponent (s : string) : Z :=
  match s with
  | String c s' =>
      if Ascii.eqb c "e" || Ascii.eqb c "E" then
        let '(neg, s'') := sign s' in
        let '(e, len, _) := digits s'' 0 0 in
        if (len =? 0)%nat then 0%Z else if neg then (- e)%Z else e
      else 0%Z
  | EmptyString => 0%Z
  end.

(** [parseFloat] of a string: leading whitespace, a sign, then [Infinity]
    or the longest decimal literal; NaN when there is none. *)
Definition of_string (s : string) : JsNumber :=
  let '(neg, s1) := sign (Js.trimStart s) in
  if Js.startsWith "Infinity" s1 then (if neg then NegInf else PosInf)
  else
    let '(int_part, int_len, s2) := digits s1 0 0 in
    let '(mantissa, frac_len, s3) :=
      match s2 with
      | String "." s2' => digits s2' int_part 0
      | _ => (int_part, 0%nat, s2)
      end in
    if (int_len + frac_len =? 0)%nat then NaN
    else
      let q := (inject_Z mantissa * pow10 (exponent s3 - Z.of_nat frac_len))%Q in
      Fin (if neg then - q else q)%Q.

(** [parseFloat(v)]: the argument is converted to a string first, and a
    number survives that round trip. *)
Definition parseFloat (v : JsValue) : JsNumber :=
  match v with
  | VUndefined => NaN
  | VNumber n => n
  | VString s => of_string s
  end.

End ParseFloat.

(** ** Levenshtein distance

    [levenshteinDistance] is defined three times in the repository
    ([SimilarityMatcher], [GuardrailService], [HallucinationValidator]) with
    the same body; one embedding serves the three. *)

Module Lev.

(** [a[j] = v] on an array: overwrite inside, append at the end.  Writing
    past the end would leave holes; the distance matrix never does. *)
Fixpoint array_set (a : list nat) (j : nat) (v : nat) : list nat :=
  match a, j with
  | [], O => [v]
  | [], S j' => 0%nat :: array_set [] j' v
  | _ :: a', O => v :: a'
  | x :: a', S j' => x :: array_set a' j' v
  end.

Definition Matrix := list (list nat).

Definition row (m : Matrix) (i : nat) : list nat := nth i m [].
Definition cell (m : Matrix) (i j : nat) : nat := nth j (row m i) 0%nat.

(** [matrix[i][j] = v] *)
Fixpoint matrix_set (m : Matrix) (i j v : nat) : Matrix :=
  match m, i with
  | [], _ => []
  | r :: m', O => array_set r j v :: m'
  | r :: m', S i' => r :: matrix_set m' i' j v
  end.

Definition min3 (a b c : nat) : nat := Nat.min (Nat.min a b) c.

(** One iteration of the inner loop body. *)
Definition fill_cell (str1 str2 : string) (i : nat) (m : Matrix) (j : nat) : Matrix :=
  if Js.char_eqb (Js.charAt str2 (i - 1)) (Js.charAt str1 (j - 1)) then
    matrix_set m i j (cell m (i - 1) (j - 1))
  else
    matrix_set m i j
      (min3 (cell m (i - 1) (j - 1) + 1) (cell m i (j - 1) + 1) (cell m (i - 1) j + 1)).

(** The inner [for (let j = 1; j <= str1.length; j++)]. *)
Definition fill_row (str1 str2 : string) (m : Matrix) (i : nat) : Matrix :=
  fold_left (fill_cell str1 str2 i) (seq 1 (String.length str1)) m.

Definition levenshteinDistance (str1 str2 : string) : nat :=
  let len1 := String.length str1 in
  let len2 := String.length str2 in
  (* for (let i = 0; i <= str2.length; i++) matrix[i] = [i]; *)
  let m0 : Matrix := map (fun i => [i]) (seq 0 (S len2)) in
  (* for (let j = 0; j <= str1.length; j++) matrix[0][j] = j; *)
  let m1 := fold_left (fun m j => matrix_set m 0 j j) (seq 0 (S len1)) m0 in
  (* for (let i = 1; i <= str2.length; i++) ... *)
  let m2 := fold_left (fill_row str1 str2) (seq 1 len2) m1 in
  cell m2 len2 len1.

(** The reference: the edit distance between the first [i] characters of
    [s] and the first [j] characters of [t], by the usual recurrence. *)
Definition subst_cost (s t : string) (i j : nat) : nat :=
  if Js.char_eqb (Js.charAt s i) (Js.charAt t j) then 0%nat else 1%nat.

Fixpoint edit_distance_upto (s t : string) (i : nat) : nat -> nat :=
  match i with
  | O => fun j => j
  | S i' =>
      fix inner (j : nat) : nat :=
        match j with
        | O => S i'
        | S j' =>
            min3 (edit_distance_upto s t i' j' + subst_cost s t i' j')
                 (inner j' + 1)
                 (edit_distance_upto s t i' (S j') + 1)
        end
  end.

(** The Levenshtein distance between two strings. *)
Definition edit_distance (s t : string) : nat :=
  edit_distance_upto s t (String.length s) (String.length t).

(** The state of the matrix while row [i] is being filled, its cells up to
    column [k] written: the rows above are complete, the rows below still
    hold their first cell only. *)
Definition filled_row (s t : string) (i k : nat) : list nat :=
  map (edit_distance_upto s t i) (seq 0 (S k)).

Definition partial_matrix (str1 str2 : string) (i k : nat) : Matrix :=
  map (fun i' => filled_row str2 str1 i' (String.length str1)) (seq 0 i)
  ++ filled_row str2 str1 i k
     :: map (fun i' => [i']) (seq (S i) (String.length str2 - i)).

(** The characters of a string. *)
Definition chars (s : string) : list ascii := list_ascii_of_string s.

(** [edits s t n]: [n] single-character insertions, deletions and
    substitutions turn [s] into [t]. *)
Inductive edits : list ascii -> list ascii -> nat -> Prop :=
  | edits_nil : edits [] [] 0
  | edits_keep c s t n : edits s t n -> edits (c :: s) (c :: t) n
  | edits_substitute c d s t n : edits s t n -> edits (c :: s) (d :: t) (S n)
  | edits_delete c s t n : edits s t n -> edits (c :: s) t (S n)
  | edits_insert d s t n : edits s t n -> edits s (d :: t) (S n).

(** The recurrence on lists of characters, from their heads. *)
Fixpoint distance (s : list ascii) : list ascii -> nat :=
  match s with
  | [] => fun t => length t
  | c :: s' =>
      fix inner (t : list ascii) : nat :=
        match t with
        | [] => S (length s')
        | d :: t' =>
            min3 (distance s' t' + (if Ascii.eqb c d then 0 else 1))
                 (inner t' + 1)
                 (distance s' t + 1)
        end
  end.

End Lev.


(** ** The knowledge base ([knowledgeBase.js]) *)

Record Range : Type := { low : Q; high : Q }.

Record Limits : Type := { min : Q; max : Q }.

(** The properties of a catalog entry that the services read, and its
    [physicalLimits], which they do not read.  A missing property is
    [None]. *)
Record TestData : Type := {
  td_name : option string;
  td_unit : option string;
  td_aliases : option (list string);
  td_ref_range : option Range;
  td_normalRange : option Range;
  td_physicalLimits : option Limits
}.

(** The catalog object, as [Object.entries] enumerates it. *)
Definition KnowledgeBase : Type := list (string * TestData).

(** What the services read from a value that the catalog object inherits
    under [k]: its [name]. *)
Definition inherited_entry (k : string) : TestData :=
  {| td_name := Js.inherited_name k;
     td_unit := None;
     td_aliases := None;
     td_ref_range := None;
     td_normalRange := None;
     td_physicalLimits := None |}.

(** [knowledgeBase[k]]: [None] is [undefined]; every other value is an
    object, hence truthy. *)
Definition kb_get (kb : KnowledgeBase) (k : string) : option TestData :=
  match Js.get kb k with
  | Js.Own d => Some d
  | Js.Inherited => Some (inherited_entry k)
  | Js.Undefined => None
  end.

(** [knowledgeBase[k]] where [k] may be [null]: the property name is then
    the string ["null"]. *)
Definition kb_get_opt (kb : KnowledgeBase) (k : option string) : option TestData :=
  kb_get kb (match k with Some s => s | None => "null" end).

(** [Set.prototype.add] on a set kept in insertion order. *)
Definition set_add (x : string) (s : list string) : list string :=
  if existsb (String.eqb x) s then s else s ++ [x].

Definition Q_of_nat (n : nat) : Q := inject_Z (Z.of_nat n).

(** ** [SimilarityMatcher] ([services/similarityMatcher.js]) *)

Module SimilarityMatcher.

(** An element of [testNamesArray], and of the candidate arrays built for
    units and statuses (these carry no [type]). *)
Record Candidate : Type := {
  cand_name : string;
  cand_key : string;
  cand_type : option string
}.

(** A result of [Fuse.search] with [includeScore]: lower scores are better. *)
Record FuseResult (A : Type) : Type := { item : A; score : Q }.
Arguments item {A} _.
Arguments score {A} _.

Record FuseOptions : Type := {
  fuse_threshold : Q;
  fuse_distance : nat;
  fuse_minMatchCharLength : nat
}.

(** The entry points of [natural] and [fuse.js] that the matcher calls.
    [Fuse] is the constructor: from the indexed text of each element, the
    options and the collection it gives the [search] method. *)
Record NlpLibs : Type := {
  Fuse : forall A : Type, (A -> string) -> FuseOptions -> list A -> string -> list (FuseResult A);
  metaphone : string -> string;
  soundex : string -> string;
  levenshtein : string -> string -> nat
}.

(** The state of a matcher after its constructor ran.  [libs] is the group
    of module-level variables [natural], [Fuse], [metaphone], [soundex] and
    [levenshtein]: the [try] block sets all of them or, when a [require]
    throws, leaves [Fuse], [metaphone], [soundex] and [levenshtein]
    undefined, which disables every library path. *)
Record t : Type := {
  libs : option NlpLibs;
  knowledgeBase : KnowledgeBase;
  testAliases : gmap string string;
  units : list string;
  testNamesArray : list Candidate;
  testNamesFuse : option (string -> list (FuseResult Candidate));
  unitsFuse : option (string -> list (FuseResult string));
  statusFuse : option (string -> list (FuseResult string))
}.

Definition threshold_testName : Q := 0.5.
Definition threshold_unit : Q := 0.6.
Definition threshold_status : Q := 0.5.
Definition threshold_exact : Q := 0.95.
Definition threshold_phonetic : Q := 0.8.
Definition threshold_semantic : Q := 0.7.

Definition baseStatuses : list string :=
  ["high"; "low"; "normal"; "elevated"; "decreased"; "abnormal"].

Definition baseUnits : list string :=
  ["g/dL"; "/uL"; "mg/dL"; "mEq/L"; "U/L"; "%"; "mIU/L"; "ng/dL"; "pg/mL"; "mm/hr"; "mg/L"].

(** The three tables that [buildLookupTables] fills and the matcher reads
    ([testNames] is only counted for a log line). *)
Record Tables : Type := {
  tb_aliases : gmap string string;
  tb_units : list string;
  tb_names : list Candidate
}.

Definition add_alias (key : string) (tb : Tables) (alias : string) : Tables :=
  {| tb_aliases := <[Js.toLowerCase alias := key]> (tb_aliases tb);
     tb_units := tb_units tb;
     tb_names := tb_names tb ++
       [{| cand_name := Js.toLowerCase alias; cand_key := key; cand_type := Some "alias" |}] |}.

(** The body of the [forEach] over [Object.entries(this.knowledgeBase)]. *)
Definition add_entry (tb : Tables) (entry : string * TestData) : Tables :=
  let '(key, data) := entry in
  let names1 := tb_names tb ++
    [{| cand_name := Js.toLowerCase key; cand_key := key; cand_type := Some "primary" |}] in
  let names2 :=
    match td_name data with
    | Some n =>
        if Js.truthy n then
          names1 ++ [{| cand_name := Js.toLowerCase n; cand_key := key; cand_type := Some "display" |}]
        else names1
    | None => names1
    end in
  let units1 :=
    match td_unit data with
    | Some u => if Js.truthy u then set_add u (tb_units tb) else tb_units tb
    | None => tb_units tb
    end in
  let tb1 := {| tb_aliases := tb_aliases tb; tb_units := units1; tb_names := names2 |} in
  match td_aliases data with
  | Some al => fold_left (add_alias key) al tb1
  | None => tb1
  end.

Definition buildLookupTables (kb : KnowledgeBase) : Tables :=
  let tb := fold_left add_entry kb {| tb_aliases := ∅; tb_units := []; tb_names := [] |} in
  {| tb_aliases := tb_aliases tb;
     tb_units := fold_left (fun s u => set_add u s) baseUnits (tb_units tb);
     tb_names := tb_names tb |}.

(** The constructor, with [initializeFuzzySearchEngines]. *)
Definition new (l : option NlpLibs) (kb : KnowledgeBase) : t :=
  let tb := buildLookupTables kb in
  {| libs := l;
     knowledgeBase := kb;
     testAliases := tb_aliases tb;
     units := tb_units tb;
     testNamesArray := tb_names tb;
     testNamesFuse :=
       match l with
       | Some L => Some (Fuse L Candidate cand_name
                     {| fuse_threshold := 0.4; fuse_distance := 100; fuse_minMatchCharLength := 2 |}
                     (tb_names tb))
       | None => None
       end;
     unitsFuse :=
       match l with
       | Some L => Some (Fuse L string (fun u => u)
                     {| fuse_threshold := 0.3; fuse_distance := 50; fuse_minMatchCharLength := 1 |}
                     (tb_units tb))
       | None => None
       end;
     statusFuse :=
       match l with
       | Some L => Some (Fuse L string (fun s => s)
                     {| fuse_threshold := 0.4; fuse_distance := 20; fuse_minMatchCharLength := 2 |}
                     baseStatuses)
       | None => None
       end |}.

(** *** Scoring functions *)

Definition levenshteinDistance : string -> string -> nat := Lev.levenshteinDistance.

Definition levenshteinSimilarity (str1 str2 : string) : Q :=
  let maxLength := Nat.max (String.length str1) (String.length str2) in
  if (maxLength =? 0)%nat then 1
  else 1 - Q_of_nat (levenshteinDistance str1 str2) / Q_of_nat maxLength.

(** [while (!matches2[k]) k++]: the first index from [k] on whose flag is
    set.  [skip_unset] walks the flags left from index [k]; the loop of the
    source would not stop past the end of the array, and it never gets
    there (lemma [jaro_second_loop]). *)
Fixpoint skip_unset (flags : list bool) (k : nat) : nat :=
  match flags with
  | [] => k
  | b :: flags' => if b then k else skip_unset flags' (S k)
  end.

Definition next_match (matches2 : list bool) (k : nat) : nat :=
  skip_unset (drop k matches2) k.

Record JaroScan : Type := {
  matches1 : list bool;
  matches2 : list bool;
  matches : nat
}.

(** The body of the first loop of [jaroSimilarity]: the inner loop stops at
    the first free position of the window that holds the same character. *)
Definition jaro_match_step (str1 str2 : string) (matchWindow : Z) (st : JaroScan) (i : nat) : JaroScan :=
  let len2 := String.length str2 in
  let start := Z.max 0 (Z.of_nat i - matchWindow) in
  let stop := Z.min (Z.of_nat i + matchWindow + 1) (Z.of_nat len2) in
  let window := seq (Z.to_nat start) (Z.to_nat (stop - start)) in
  let free_same (j : nat) : bool :=
    negb (nth j (matches2 st) false || negb (Js.char_eqb (Js.charAt str1 i) (Js.charAt str2 j))) in
  match find free_same window with
  | Some j =>
      {| matches1 := <[i := true]> (matches1 st);
         matches2 := <[j := true]> (matches2 st);
         matches := S (matches st) |}
  | None => st
  end.

(** The body of the second loop: [(k, transpositions)] is the state. *)
Definition jaro_transposition_step (str1 str2 : string) (st : JaroScan) (acc : nat * nat) (i : nat) : nat * nat :=
  let '(k, transpositions) := acc in
  if negb (nth i (matches1 st) false) then acc
  else
    let k' := next_match (matches2 st) k in
    let transpositions' :=
      if negb (Js.char_eqb (Js.charAt str1 i) (Js.charAt str2 k')) then S transpositions
      else transpositions in
    (S k', transpositions').

Definition jaro_scan (str1 str2 : string) : JaroScan :=
  let len1 := String.length str1 in
  let len2 := String.length str2 in
  let matchWindow := (Z.of_nat (Nat.max len1 len2) / 2 - 1)%Z in
  fold_left (jaro_match_step str1 str2 matchWindow) (seq 0 len1)
    {| matches1 := repeat false len1; matches2 := repeat false len2; matches := 0 |}.

Definition jaro_transpositions (str1 str2 : string) (st : JaroScan) : nat :=
  snd (fold_left (jaro_transposition_step str1 str2 st) (seq 0 (String.length str1)) (0%nat, 0%nat)).

Definition jaroSimilarity (str1 str2 : string) : Q :=
  if String.eqb str1 str2 then 1
  else
    let len1 := String.length str1 in
    let len2 := String.length str2 in
    if (len1 =? 0)%nat || (len2 =? 0)%nat then 0
    else
      let st := jaro_scan str1 str2 in
      if (matches st =? 0)%nat then 0
      else
        let m := Q_of_nat (matches st) in
        let t := Q_of_nat (jaro_transpositions str1 str2 st) in
        (m / Q_of_nat len1 + m / Q_of_nat len2 + (m - t / 2) / m) / 3.

(** [shorter.slice(i, j)] for [i <= j] *)
Definition slice (s : string) (i j : nat) : string := String.substring i (j - i) s.

(** The two nested loops of [substringsimilarity] looking for the longest
    common substring. *)
Definition longest_common (longer shorter : string) : nat :=
  fold_left
    (fun maxLength i =>
       fold_left
         (fun maxLength j =>
            let substring := slice shorter i j in
            if Js.includes longer substring && (maxLength <? String.length substring)%nat
            then String.length substring else maxLength)
         (seq (i + 1) (String.length shorter - i)) maxLength)
    (seq 0 (String.length shorter)) 0%nat.

Definition substringsimilarity (str1 str2 : string) : Q :=
  let gt := (String.length str2 <? String.length str1)%nat in
  let longer := if gt then str1 else str2 in
  let shorter := if gt then str2 else str1 in
  if (String.length longer =? 0)%nat then 1
  else if Js.includes longer shorter then
    Q_of_nat (String.length shorter) / Q_of_nat (String.length longer)
  else Q_of_nat (longest_common longer shorter) / Q_of_nat (String.length longer).

(** [getNGrams]: [str.substr(i, n)] for [0 <= i <= str.length - n]. *)
Definition getNGrams (str : string) (n : nat) : list string :=
  map (fun i => String.substring i n str) (seq 0 (S (String.length str) - n)).

Definition calculateNGramSimilarity (str1 str2 : string) (n : nat) : Q :=
  let ngrams1 : gset string := list_to_set (getNGrams (Js.toLowerCase str1) n) in
  let ngrams2 : gset string := list_to_set (getNGrams (Js.toLowerCase str2) n) in
  let intersection := ngrams1 ∩ ngrams2 in
  let union := ngrams1 ∪ ngrams2 in
  if (size union =? 0)%nat then 0
  else Q_of_nat (size intersection) / Q_of_nat (size union).

(** The fallback blend, used when the libraries are absent. *)
Definition calculateStringSimilarity (str1 str2 : string) : Q :=
  if negb (Js.truthy str1) || negb (Js.truthy str2) then 0
  else
    levenshteinSimilarity str1 str2 * 0.5
    + jaroSimilarity str1 str2 * 0.3
    + substringsimilarity str1 str2 * 0.2.

Definition calculateAdvancedStringSimilarity (m : t) (str1 str2 : string) : Q :=
  if negb (Js.truthy str1) || negb (Js.truthy str2) then 0
  else
    match libs m with
    | Some L =>
        let distance := levenshtein L str1 str2 in
        let maxLength := Nat.max (String.length str1) (String.length str2) in
        let levenshteinSim := (1 - Q_of_nat distance / Q_of_nat maxLength)%Q in
        levenshteinSim * 0.3
        + jaroSimilarity str1 str2 * 0.3
        + substringsimilarity str1 str2 * 0.2
        + calculateNGramSimilarity str1 str2 2 * 0.2
    | None => calculateStringSimilarity str1 str2
    end.

Definition getConfidenceLevel (similarity : Q) : string :=
  if Num.Qleb threshold_exact similarity then "exact"
  else if Num.Qleb 0.8 similarity then "high"
  else if Num.Qleb 0.6 similarity then "medium"
  else "low".

(** *** The matching cascade *)

(** A field match.  [matched] is optional because the unit assumed from the
    catalog may be missing there; [method] is absent on assumed units. *)
Record Match : Type := {
  matched : option string;
  similarity : Q;
  confidence : string;
  method : option string
}.

(** The running best of the two scanning loops: strictly better scores
    replace it, so the first candidate with the best score wins. *)
Definition better (score_of : Candidate -> Q) (best : option Candidate * Q) (candidate : Candidate)
  : option Candidate * Q :=
  let s := score_of candidate in
  if Num.Qltb (snd best) s then (Some candidate, s) else best.

Definition scan_best (score_of : Candidate -> Q) (candidates : list Candidate) : option (string * Q) :=
  let '(bestMatch, bestSimilarity) := fold_left (better score_of) candidates (None, 0%Q) in
  match bestMatch with
  | Some c => Some (cand_key c, bestSimilarity)
  | None => None
  end.

Definition plain_candidate (s : string) : Candidate :=
  {| cand_name := s; cand_key := s; cand_type := None |}.

Inductive FieldType : Type := TestNameField | StatusField.

Definition findPhoneticMatch (m : t) (input : string) (type : FieldType) : option (string * Q) :=
  match libs m with
  | None => None
  | Some L =>
      let inputMetaphone := metaphone L input in
      let inputSoundex := soundex L input in
      let candidates :=
        match type with
        | TestNameField => testNamesArray m
        | StatusField => map plain_candidate baseStatuses
        end in
      scan_best
        (fun candidate =>
           let phoneticSimilarity :=
             ((if String.eqb inputMetaphone (metaphone L (cand_name candidate)) then 0.6 else 0)
              + (if String.eqb inputSoundex (soundex L (cand_name candidate)) then 0.4 else 0))%Q in
           let stringSimilarity := calculateAdvancedStringSimilarity m input (cand_name candidate) in
           (phoneticSimilarity * 0.7 + stringSimilarity * 0.3)%Q)
        candidates
  end.

Definition findAdvancedStringMatch (m : t) (input : string) (candidates : list Candidate)
  : option (string * Q) :=
  scan_best (fun candidate => calculateAdvancedStringSimilarity m input (cand_name candidate)) candidates.

(** Placeholder in the source: always [null]. *)
Definition findSemanticMatch (m : t) (input : string) (type : FieldType) : option (string * Q) := None.

(** A step of a cascade that accepts a scored key at a threshold. *)
Definition accept (threshold : Q) (meth : string) (r : option (string * Q)) : option Match :=
  match r with
  | Some (key, sim) =>
      if Num.Qleb threshold sim then
        Some {| matched := Some key; similarity := sim;
                confidence := getConfidenceLevel sim; method := Some meth |}
      else None
  | None => None
  end.

(** The indexed search step: only the first (best) result is looked at. *)
Definition fuse_step {A : Type} (engine : option (string -> list (FuseResult A)))
    (key_of : A -> string) (threshold : Q) (cleanInput : string) : option Match :=
  match engine with
  | Some search =>
      match search cleanInput with
      | best :: _ => accept threshold "fuse_fuzzy" (Some (key_of (item best), (1 - score best)%Q))
      | [] => None
      end
  | None => None
  end.

(** [a || b] on results: the first step that returns wins. *)
Definition or_else {A : Type} (a b : option A) : option A :=
  match a with Some _ => a | None => b end.

Definition exact (key : string) (meth : string) : Match :=
  {| matched := Some key; similarity := 1; confidence := "exact"; method := Some meth |}.

Definition findBestTestNameMatch (m : t) (inputName : option string) : option Match :=
  match inputName with
  | None => None
  | Some inputName =>
      if negb (Js.truthy inputName) then None
      else
        let cleanInput := Js.toLowerCase (Js.trim inputName) in
        match testAliases m !! cleanInput with
        | Some key => Some (exact key "exact_match")
        | None =>
            match kb_get (knowledgeBase m) cleanInput with
            | Some _ => Some (exact cleanInput "direct_lookup")
            | None =>
                or_else (fuse_step (testNamesFuse m) cand_key threshold_testName cleanInput)
                (or_else (accept threshold_phonetic "phonetic"
                            (findPhoneticMatch m cleanInput TestNameField))
                (or_else (accept threshold_testName "advanced_string"
                            (findAdvancedStringMatch m cleanInput (testNamesArray m)))
                         (accept threshold_semantic "semantic"
                            (findSemanticMatch m cleanInput TestNameField))))
            end
        end
  end.

Definition findBestUnitMatch (m : t) (inputUnit : option string) : option Match :=
  match inputUnit with
  | None => None
  | Some inputUnit =>
      if negb (Js.truthy inputUnit) then None
      else
        let cleanInput := Js.trim inputUnit in
        if existsb (String.eqb cleanInput) (units m) then Some (exact cleanInput "exact_match")
        else
          or_else (fuse_step (unitsFuse m) (fun u => u) threshold_unit cleanInput)
                  (accept threshold_unit "advanced_string"
                     (findAdvancedStringMatch m (Js.toLowerCase cleanInput)
                        (map plain_candidate (units m))))
  end.

Definition findBestStatusMatch (m : t) (inputStatus : option string) : option Match :=
  match inputStatus with
  | None => None
  | Some inputStatus =>
      if negb (Js.truthy inputStatus) then None
      else
        let cleanInput := Js.toLowerCase (Js.trim inputStatus) in
        if existsb (String.eqb cleanInput) baseStatuses then Some (exact cleanInput "exact_match")
        else
          or_else (fuse_step (statusFuse m) (fun s => s) threshold_status cleanInput)
          (or_else (accept threshold_phonetic "phonetic"
                      (findPhoneticMatch m cleanInput StatusField))
                   (accept threshold_status "advanced_string"
                      (findAdvancedStringMatch m cleanInput (map plain_candidate baseStatuses))))
  end.

(** One of the three [if (xMatch) { ... }] blocks of
    [calculateOverallConfidence]; the state is [(totalWeight, weightedScore)]. *)
Definition add_weighted (mt : option Match) (weight : Q) (acc : Q * Q) : Q * Q :=
  match mt with
  | Some x => (fst acc + weight, snd acc + similarity x * weight)%Q
  | None => acc
  end.

Definition calculateOverallConfidence (nameMatch unitMatch statusMatch : option Match) : Q :=
  let acc : Q * Q :=
    add_weighted statusMatch 0.15%Q
      (add_weighted unitMatch 0.25%Q (add_weighted nameMatch 0.6%Q (0%Q, 0%Q))) in
  if Num.Qltb 0 (fst acc) then (snd acc / fst acc)%Q else 0%Q.

Record TestMatch : Type := {
  testKey : option string;
  testData : TestData;
  match_name : Match;
  match_unit : Match;
  match_status : option Match;
  overall_confidence : Q
}.

(** [findBestTestMatch(testName, value, unit, status)]; the [value]
    argument is not read by the function. *)
Definition findBestTestMatch (m : t) (testName : option string) (value : JsNumber)
    (unit status : option string) : option TestMatch :=
  match findBestTestNameMatch m testName with
  | None => None
  | Some nameMatch =>
      match kb_get_opt (knowledgeBase m) (matched nameMatch) with
      | None => None
      | Some testData =>
          let unitMatch :=
            if Js.truthy_opt unit then
              match findBestUnitMatch m unit with
              | Some um =>
                  if String.eqb (confidence um) "low" then
                    {| matched := td_unit testData; similarity := 0.8%Q;
                       confidence := "assumed"; method := None |}
                  else um
              | None =>
                  {| matched := td_unit testData; similarity := 0.8%Q;
                     confidence := "assumed"; method := None |}
              end
            else
              {| matched := td_unit testData; similarity := 1.0%Q;
                 confidence := "default"; method := None |} in
          let statusMatch :=
            if Js.truthy_opt status then findBestStatusMatch m status else None in
          Some {| testKey := matched nameMatch;
                  testData := testData;
                  match_name := nameMatch;
                  match_unit := unitMatch;
                  match_status := statusMatch;
                  overall_confidence :=
                    calculateOverallConfidence (Some nameMatch) (Some unitMatch) statusMatch |}
      end
  end.

End SimilarityMatcher.


(** ** [MedicalTestNormalizer] ([services/testNormalizer.js]) *)

Module Normalizer.

Record t : Type := {
  knowledgeBase : KnowledgeBase;
  similarityMatcher : SimilarityMatcher.t
}.

Definition new (l : option SimilarityMatcher.NlpLibs) (kb : KnowledgeBase) : t :=
  {| knowledgeBase := kb; similarityMatcher := SimilarityMatcher.new l kb |}.

Definition testNameMappings : list (string * string) :=
  [ ("hemoglobin", "hemoglobin"); ("hgb", "hemoglobin"); ("hb", "hemoglobin");
    ("white blood cells", "wbc"); ("white blood cell count", "wbc"); ("wbc count", "wbc");
    ("red blood cells", "rbc"); ("red blood cell count", "rbc"); ("rbc count", "rbc");
    ("platelet count", "platelet count"); ("platelets", "platelet count");
    ("plt", "platelet count");
    ("blood glucose", "glucose"); ("fasting glucose", "glucose");
    ("serum creatinine", "creatinine"); ("creat", "creatinine");
    ("serum sodium", "sodium"); ("na", "sodium");
    ("serum potassium", "potassium"); ("k", "potassium") ].

(** A candidate handed over by the extraction step. *)
Record ExtractedTest : Type := {
  rawTestName : option string;
  value : JsValue;
  unit : option string;
  status : option string;
  confidence : option Q
}.

Record NormalizedTest : Type := {
  n_name : option string;
  n_value : JsNumber;
  n_unit : option string;
  n_status : string;
  n_ref_range : Range
}.

(** The legacy loop over [Object.keys(this.knowledgeBase)]. *)
Definition legacy_fuzzy (kb : KnowledgeBase) (cleanName : string) : option string :=
  let close (knownTest : string) : bool :=
    (Js.includes cleanName knownTest || Js.includes knownTest cleanName)
    && (Z.abs (Z.of_nat (String.length cleanName) - Z.of_nat (String.length knownTest)) <=? 2)%Z in
  find close (map fst kb).

(** The fallback reads [testNameMappings[cleanName]] through the own
    properties of the table: a name that objects inherit never gets there,
    because the catalog object inherits it too and the direct lookup of the
    matcher has answered for it (lemma [fallback_not_inherited]). *)
Definition normalizeTestName (nz : t) (rawName : option string) : option string :=
  match rawName with
  | None => None
  | Some raw =>
      if negb (Js.truthy raw) then None
      else
        let fallback :=
          let cleanName := Js.toLowerCase (Js.trim raw) in
          match Js.own testNameMappings cleanName with
          | Some mapped => Some mapped
          | None =>
              match kb_get (knowledgeBase nz) cleanName with
              | Some _ => Some cleanName
              | None => legacy_fuzzy (knowledgeBase nz) cleanName
              end
          end in
        match SimilarityMatcher.findBestTestNameMatch (similarityMatcher nz) rawName with
        | Some testMatch =>
            if negb (String.eqb (SimilarityMatcher.confidence testMatch) "low")
            then SimilarityMatcher.matched testMatch
            else fallback
        | None => fallback
        end
  end.

Definition getReferenceRange (testName : string) (knownTestData : TestData) : Range :=
  match td_ref_range knownTestData with
  | Some r => r
  | None => {| low := 0; high := 100 |}
  end.

Definition determineStatus (value : JsValue) (refRange : Range) (providedStatus : option string)
  : string :=
  let numericValue := ParseFloat.parseFloat value in
  if Num.isNaN numericValue then
    (* providedStatus || 'unknown' *)
    match providedStatus with
    | Some s => if Js.truthy s then s else "unknown"
    | None => "unknown"
    end
  else if Num.ltb numericValue (Fin (low refRange)) then "low"
  else if Num.gtb numericValue (Fin (high refRange)) then "high"
  else "normal".

Definition clamp01 (q : Q) : Q := Qmax 0 (Qmin 1 q).

Definition calculateNormalizationConfidence (rawName normalizedName : string) (value : JsValue)
    (unit status : option string) (inputConfidence : option Q) : Q :=
  let c0 : Q :=
    match inputConfidence with
    | Some c => if Qeq_bool c 0 then 0.8%Q else c
    | None => 0.8%Q
    end in
  let c1 : Q :=
    if String.eqb (Js.toLowerCase rawName) (Js.toLowerCase normalizedName) then (c0 + 0.1)%Q else c0 in
  let c2 : Q :=
    if negb (Num.isNaN (ParseFloat.parseFloat value)) then (c1 + 0.05)%Q else c1 in
  let c3 : Q :=
    match status with
    | Some st => if existsb (String.eqb st) ["high"; "low"; "normal"] then (c2 + 0.05)%Q else c2
    | None => c2
    end in
  clamp01 c3.

Definition normalizeIndividualTest (nz : t) (extractedTest : ExtractedTest)
  : option (NormalizedTest * Q) :=
  match normalizeTestName nz (rawTestName extractedTest) with
  | None => None
  | Some normalizedName =>
      if negb (Js.truthy normalizedName) then None
      else
        match kb_get (knowledgeBase nz) normalizedName with
        | None => None
        | Some knownTestData =>
            let refRange := getReferenceRange normalizedName knownTestData in
            let finalStatus :=
              determineStatus (value extractedTest) refRange (status extractedTest) in
            let normalizationConfidence :=
              calculateNormalizationConfidence
                (Js.show (rawTestName extractedTest)) normalizedName (value extractedTest)
                (unit extractedTest) (status extractedTest) (confidence extractedTest) in
            Some ({| n_name := td_name knownTestData;
                     n_value := ParseFloat.parseFloat (value extractedTest);
                     n_unit := td_unit knownTestData;
                     n_status := finalStatus;
                     n_ref_range := {| low := low refRange; high := high refRange |} |},
                  normalizationConfidence)
        end
  end.

(** What [normalizeTests] returns. *)
Record Normalized : Type := {
  tests : list NormalizedTest;
  normalization_confidence : Q
}.

(** The body of the loop of [normalizeTests], on
    [(normalizedTests, confidenceScores)].  An element that is [null] or
    [undefined] ([None]) makes the destructuring throw; the [catch] scores
    it 0, like a test that does not normalize. *)
Definition normalize_step (nz : t) (acc : list NormalizedTest * list Q)
    (extractedTest : option ExtractedTest) : list NormalizedTest * list Q :=
  let '(normalizedTests, confidenceScores) := acc in
  match extractedTest with
  | Some e =>
      match normalizeIndividualTest nz e with
      | Some (test, c) => (normalizedTests ++ [test], confidenceScores ++ [c])
      | None => (normalizedTests, confidenceScores ++ [0.0%Q])
      end
  | None => (normalizedTests, confidenceScores ++ [0.0%Q])
  end.

(** [extractedTests] is [None] when the argument is not an array. *)
Definition normalizeTests (nz : t) (extractedTests : option (list (option ExtractedTest)))
  : Normalized :=
  match extractedTests with
  | None => {| tests := []; normalization_confidence := 0.0%Q |}
  | Some l =>
      let '(normalizedTests, confidenceScores) := fold_left (normalize_step nz) l ([], []) in
      let avgConfidence :=
        if (0 <? length confidenceScores)%nat
        then (fold_left Qplus confidenceScores 0 / Q_of_nat (length confidenceScores))%Q
        else 0.0%Q in
      {| tests := normalizedTests; normalization_confidence := avgConfidence |}
  end.

End Normalizer.

(** ** [GuardrailService] ([services/guardrailService.js]) *)

Module Guardrail.

Record t : Type := {
  knowledgeBase : KnowledgeBase;
  aliasMap : gmap string string
}.

Definition physicalLimits : list (string * Limits) :=
  [ ("hemoglobin", {| min := 0; max := 30 |});
    ("glucose", {| min := 0; max := 2000 |});
    ("cholesterol_total", {| min := 0; max := 1000 |});
    ("creatinine", {| min := 0; max := 50 |});
    ("wbc", {| min := 0; max := 100000 |});
    ("platelet_count", {| min := 0; max := 2000000 |});
    ("sodium", {| min := 100; max := 200 |});
    ("potassium", {| min := 0; max := 15 |}) ].

(** The body of the [forEach] of [buildAliasMap]. *)
Definition alias_entry (am : gmap string string) (entry : string * TestData) : gmap string string :=
  let '(key, data) := entry in
  let am1 := <[Js.toLowerCase key := key]> am in
  let am2 :=
    match td_name data with
    | Some n => if Js.truthy n then <[Js.toLowerCase n := key]> am1 else am1
    | None => am1
    end in
  match td_aliases data with
  | Some al => fold_left (fun am alias => <[Js.toLowerCase alias := key]> am) al am2
  | None => am2
  end.

Definition buildAliasMap (kb : KnowledgeBase) : gmap string string :=
  fold_left alias_entry kb ∅.

Definition new (kb : KnowledgeBase) : t :=
  {| knowledgeBase := kb; aliasMap := buildAliasMap kb |}.

(** A record under validation.  A property that is missing or [undefined]
    is [None] ([VUndefined] for the value); its name, unit and status are
    strings otherwise. *)
Record Test : Type := {
  name : option string;
  value : JsValue;
  unit : option string;
  status : option string
}.

(** The warnings of [validateSingleTest].  The source renders them as text
    that interpolates the properties below; the loop only counts them. *)
Inductive Warning : Type :=
  | UnknownTest (name : option string)
  | UnrealisticValue (name : option string) (value : JsValue) (unit : option string)
  | UnexpectedUnit (name unit : option string)
  | StatusMismatch (status : option string) (value : JsValue) (name : option string).

Record TestValidation : Type := {
  isValid : bool;
  warnings : list Warning;
  confidence : Q;
  rejectionReason : option string
}.

Definition present (o : option string) : bool := Js.truthy_opt o.

Definition isValidTestStructure (test : Test) : bool :=
  present (name test)
  && match value test with
     | VUndefined => false
     | VNumber _ => true
     | VString s => Js.truthy s
     end
  && present (unit test)
  && present (status test).

(** [this.aliasMap.get(normalizedInput) || null] *)
Definition normalizeTestName (g : t) (testName : string) : option string :=
  let normalizedInput := Js.trim (Js.toLowerCase testName) in
  match aliasMap g !! normalizedInput with
  | Some key => if Js.truthy key then Some key else None
  | None => None
  end.

Definition commonVariations : list (string * list string) :=
  [ ("hemoglobin", ["hgb"; "hb"; "hemglobin"; "haemoglobin"]);
    ("wbc", ["white blood cell"; "white blood cells"; "wbc count"; "leukocyte"]);
    ("rbc", ["red blood cell"; "red blood cells"; "rbc count"; "erythrocyte"]);
    ("glucose", ["blood glucose"; "sugar"; "glucse"; "glukose"]);
    ("creatinine", ["creat"; "cretinine"]);
    ("cholesterol_total", ["cholesterol"; "chol"; "cholestrol"]);
    ("platelet_count", ["platelets"; "plt"; "platlet"; "thrombocyte"]) ].

(** [variations[testName] || [testName]]: an array, or the value that the
    table inherits under the name. *)
Definition getCommonVariations (testName : string) : Js.Property (list string) :=
  Js.or (Js.get commonVariations testName) (Js.Own [testName]).

Definition levenshteinDistance : string -> string -> nat := Lev.levenshteinDistance.

(** [1 - distance / maxLength]; for two empty strings the quotient is
    [0 / 0], that is NaN. *)
Definition calculateSimilarity (str1 str2 : string) : JsNumber :=
  let maxLength := Nat.max (String.length str1) (String.length str2) in
  let distance := levenshteinDistance str1 str2 in
  if (maxLength =? 0)%nat then NaN
  else Fin (1 - Q_of_nat distance / Q_of_nat maxLength).

Definition fuzzyMatchInText (testName text : string) : bool :=
  existsb
    (fun word =>
       (3 <=? String.length word)%nat && Num.gtb (calculateSimilarity testName word) (Fin 0.7))
    (Js.split_ws text).

(** [originalText] is [None] when the argument is not a string.  The
    [for...of] over the variations throws when they are not an array. *)
Definition isTestMentionedInOriginal (g : t) (testName : string) (originalText : option string)
  : Completion bool :=
  match originalText with
  | None => Returns true
  | Some originalText =>
      if negb (Js.truthy originalText) then Returns true
      else
        let normalizedText := Js.blank_non_alnum (Js.toLowerCase originalText) in
        let testNameLower := Js.toLowerCase testName in
        if Js.includes normalizedText testNameLower then Returns true
        else
          let testData :=
            SimilarityMatcher.or_else
              (kb_get (knowledgeBase g) testNameLower)
              (kb_get_opt (knowledgeBase g) (normalizeTestName g testName)) in
          let by_alias :=
            match testData with
            | Some d =>
                match td_aliases d with
                | Some al => existsb (fun alias => Js.includes normalizedText (Js.toLowerCase alias)) al
                | None => false
                end
            | None => false
            end in
          if by_alias then Returns true
          else
            match getCommonVariations testNameLower with
            | Js.Own variations =>
                if existsb (fun variation => Js.includes normalizedText variation)
                     variations
                then Returns true
                else Returns (fuzzyMatchInText testNameLower normalizedText)
            | _ => Throws "commonVariations is not iterable"
            end
  end.

Definition isValueRealistic (g : t) (test : Test) : bool :=
  let testKey := Js.toLowerCase (Js.show (name test)) in
  let normalizedKey := normalizeTestName g (Js.show (name test)) in
  let limits :=
    Js.or (Js.get physicalLimits testKey)
          (Js.get physicalLimits (match normalizedKey with Some k => k | None => "null" end)) in
  match limits, value test with
  | Js.Own lim, VNumber v => Num.geb v (Fin (min lim)) && Num.leb v (Fin (max lim))
  | Js.Inherited, VNumber v =>
      (* [limits.min] is [undefined]: the first comparison is false *)
      false
  | _, _ => true
  end.

Definition unitVariations : list (string * list string) :=
  [ ("g/dL", ["g/dl"; "gm/dl"; "gram/dl"]);
    ("/uL", ["/ul"; "per ul"; "/μL"; "/microL"]);
    ("mg/dL", ["mg/dl"; "mgdl"]);
    ("%", ["percent"; "pct"]) ].

(** The call of [expectedVariations.includes] throws when the table
    inherits a value under the expected unit. *)
Definition isUnitValid (g : t) (test : Test) : Completion bool :=
  let normalizedKey := normalizeTestName g (Js.show (name test)) in
  match kb_get_opt (knowledgeBase g) normalizedKey with
  | None => Returns true
  | Some testData =>
      match td_unit testData with
      | None => Returns true
      | Some expected =>
          if negb (Js.truthy expected) then Returns true
          else if String.eqb (Js.show (unit test)) expected then Returns true
          else
            match Js.or (Js.get unitVariations expected) (Js.Own []) with
            | Js.Own expectedVariations =>
                Returns (existsb (String.eqb (Js.toLowerCase (Js.show (unit test))))
                           expectedVariations)
            | _ => Throws "expectedVariations.includes is not a function"
            end
      end
  end.

Definition isStatusConsistent (g : t) (test : Test) : bool :=
  let normalizedKey := normalizeTestName g (Js.show (name test)) in
  match kb_get_opt (knowledgeBase g) normalizedKey with
  | None => true
  | Some testData =>
      match td_normalRange testData, value test with
      | Some range, VNumber v =>
          let status := Js.toLowerCase (Js.show (status test)) in
          if Num.ltb v (Fin (low range)) && negb (String.eqb status "low") then false
          else if Num.gtb v (Fin (high range)) && negb (String.eqb status "high") then false
          else if Num.geb v (Fin (low range)) && Num.leb v (Fin (high range))
                  && negb (String.eqb status "normal") then false
          else true
      | _, _ => true
      end
  end.

Definition validateSingleTest (g : t) (test : Test) (originalText : option string)
  : Completion TestValidation :=
  if negb (isValidTestStructure test) then
    Returns
      {| isValid := false; warnings := []; confidence := 1.0%Q;
         rejectionReason := Some ("Invalid test structure for " +:+ Js.show (name test)) |}
  else
    let testName := Js.show (name test) in
    let w2 := match normalizeTestName g testName with
              | Some _ => []
              | None => [UnknownTest (name test)]
              end in
    let c2 : Q := match normalizeTestName g testName with
                  | Some _ => 1.0%Q
                  | None => (1.0 * 0.7)%Q
                  end in
    do mentioned <- isTestMentionedInOriginal g testName originalText;
    if negb mentioned then
      Returns
        {| isValid := false; warnings := w2; confidence := c2;
           rejectionReason :=
             Some ("Test '" +:+ testName
                   +:+ "' not found in original text - potential hallucination") |}
    else
      let w4 := if negb (isValueRealistic g test)
                then w2 ++ [UnrealisticValue (name test) (value test) (unit test)] else w2 in
      let c4 : Q := if negb (isValueRealistic g test) then (c2 * 0.6)%Q else c2 in
      do unitValid <- isUnitValid g test;
      let w5 := if negb unitValid
                then w4 ++ [UnexpectedUnit (name test) (unit test)] else w4 in
      let c5 : Q := if negb unitValid then (c4 * 0.8)%Q else c4 in
      let w6 := if negb (isStatusConsistent g test)
                then w5 ++ [StatusMismatch (status test) (value test) (name test)] else w5 in
      let c6 : Q := if negb (isStatusConsistent g test) then (c5 * 0.9)%Q else c5 in
      Returns {| isValid := true; warnings := w6; confidence := c6; rejectionReason := None |}.

Record Rejected : Type := { rej_test : Test; rej_reason : string }.

(** The object under construction in [validateTests], which is also the
    object returned when the loop runs to its end. *)
Record Validation : Type := {
  v_status : string;
  v_reason : option string;
  v_warnings : list Warning;
  v_errors : list string;
  v_confidence : Q;
  validated_tests : list Test;
  v_rejected_tests : list Rejected
}.

(** What [validateTests] returns.  The object returned on a hallucination
    has four properties only; [r_validation] holds those of a completed
    validation and is absent on that object. *)
Record Verdict : Type := {
  r_status : string;
  r_reason : option string;
  r_confidence : Q;
  r_rejected_tests : list Rejected;
  r_validation : option Validation
}.

(** [rejectionReason] is a string on every path that clears [isValid]; the
    [null] it starts with never reaches the loop. *)
Definition reason_text (r : option string) : string :=
  match r with Some s => s | None => "null" end.

(** The [for (const test of extractedTests)] loop: [inl] is the [return]
    inside the loop, [inr] the state when the loop ends.  An exception
    thrown for a record leaves the loop and the function. *)
Fixpoint validate_loop (g : t) (originalText : option string) (extractedTests : list Test)
    (validation : Validation) : Completion (Verdict + Validation) :=
  match extractedTests with
  | [] => Returns (inr validation)
  | test :: rest =>
      do testValidation <- validateSingleTest g test originalText;
      if isValid testValidation then
        let pushed :=
          {| v_status := v_status validation; v_reason := v_reason validation;
             v_warnings := v_warnings validation; v_errors := v_errors validation;
             v_confidence := v_confidence validation;
             validated_tests := validated_tests validation ++ [test];
             v_rejected_tests := v_rejected_tests validation |} in
        validate_loop g originalText rest
          (if (0 <? length (warnings testValidation))%nat then
             {| v_status := v_status pushed; v_reason := v_reason pushed;
                v_warnings := v_warnings pushed ++ warnings testValidation;
                v_errors := v_errors pushed;
                v_confidence := (v_confidence pushed * confidence testValidation)%Q;
                validated_tests := validated_tests pushed;
                v_rejected_tests := v_rejected_tests pushed |}
           else pushed)
      else
        let reason := reason_text (rejectionReason testValidation) in
        let rejected :=
          {| v_status := v_status validation; v_reason := v_reason validation;
             v_warnings := v_warnings validation;
             v_errors := v_errors validation ++ [reason];
             v_confidence := v_confidence validation;
             validated_tests := validated_tests validation;
             v_rejected_tests :=
               v_rejected_tests validation ++ [{| rej_test := test; rej_reason := reason |}] |} in
        if Js.includes reason "not found in original" then
          Returns
            (inl {| r_status := "unprocessed";
                    r_reason := Some ("hallucinated tests not present in input: "
                                      +:+ Js.show (name test));
                    r_confidence := 0;
                    r_rejected_tests := v_rejected_tests rejected;
                    r_validation := None |})
        else validate_loop g originalText rest rejected
  end.

(** The status update after the loop. *)
Definition finalize (validation : Validation) : Validation :=
  if Num.Qltb (v_confidence validation) 0.3 then
    {| v_status := "unprocessed";
       v_reason := Some "Overall confidence too low due to validation issues";
       v_warnings := v_warnings validation; v_errors := v_errors validation;
       v_confidence := v_confidence validation;
       validated_tests := validated_tests validation;
       v_rejected_tests := v_rejected_tests validation |}
  else if Num.Qltb (v_confidence validation) 0.6 then
    {| v_status := "low_confidence";
       v_reason := Some "Multiple validation warnings detected";
       v_warnings := v_warnings validation; v_errors := v_errors validation;
       v_confidence := v_confidence validation;
       validated_tests := validated_tests validation;
       v_rejected_tests := v_rejected_tests validation |}
  else if (0 <? length (v_warnings validation))%nat then
    {| v_status := "ok_with_warnings";
       v_reason := v_reason validation;
       v_warnings := v_warnings validation; v_errors := v_errors validation;
       v_confidence := v_confidence validation;
       validated_tests := validated_tests validation;
       v_rejected_tests := v_rejected_tests validation |}
  else validation.

Definition completed (validation : Validation) : Verdict :=
  {| r_status := v_status validation;
     r_reason := v_reason validation;
     r_confidence := v_confidence validation;
     r_rejected_tests := v_rejected_tests validation;
     r_validation := Some validation |}.

Definition validateTests (g : t) (extractedTests : list Test) (originalText : option string)
  : Completion Verdict :=
  let validation :=
    {| v_status := "ok"; v_reason := None; v_warnings := []; v_errors := [];
       v_confidence := 1.0%Q; validated_tests := []; v_rejected_tests := [] |} in
  do outcome <- validate_loop g originalText extractedTests validation;
  match outcome with
  | inl verdict => Returns verdict
  | inr validation' => Returns (completed (finalize validation'))
  end.

End Guardrail.

(** ** The fuzzy matcher of [HallucinationValidator]
    ([services/hallucinationValidator.js]) *)

Module HallucinationValidator.

Definition levenshteinDistance : string -> string -> nat := Lev.levenshteinDistance.

Definition calculateSimilarity (str1 str2 : string) : Q :=
  if (String.length str1 <? 3)%nat || (String.length str2 <? 3)%nat then 0
  else
    let gt := (String.length str2 <? String.length str1)%nat in
    let longer := if gt then str1 else str2 in
    let shorter := if gt then str2 else str1 in
    if (String.length longer =? 0)%nat then 1.0
    else
      let editDistance := levenshteinDistance longer shorter in
      (Q_of_nat (String.length longer) - Q_of_nat editDistance) / Q_of_nat (String.length longer).

Definition fuzzyMatch (testName originalText : string) : bool :=
  if (String.length testName <? 4)%nat then false
  else
    existsb (fun word => Num.Qltb 0.8 (calculateSimilarity testName word))
            (Js.split_ws originalText).

End HallucinationValidator.

(** ** The shipped catalog ([MEDICAL_DATA], [knowledgeBase.js]) *)

(** An entry of the first seventeen: both ranges and the physical limits. *)
Definition entry (display unit : string) (aliases : list string) (lo hi lmin lmax : Q) : TestData :=
  {| td_name := Some display;
     td_unit := Some unit;
     td_aliases := Some aliases;
     td_ref_range := Some {| low := lo; high := hi |};
     td_normalRange := Some {| low := lo; high := hi |};
     td_physicalLimits := Some {| min := lmin; max := lmax |} |}.

(** An entry of the later ones: [ref_range] only. *)
Definition entry_without_limits (display unit : string) (aliases : list string) (lo hi : Q) : TestData :=
  {| td_name := Some display;
     td_unit := Some unit;
     td_aliases := Some aliases;
     td_ref_range := Some {| low := lo; high := hi |};
     td_normalRange := None;
     td_physicalLimits := None |}.

(** The value of the property [enhanced], which the module sets on the
    exported catalog object itself: an object of helper functions, with
    none of the properties of an entry. *)
Definition no_entry : TestData :=
  {| td_name := None; td_unit := None; td_aliases := None;
     td_ref_range := None; td_normalRange := None; td_physicalLimits := None |}.

Definition MEDICAL_DATA : KnowledgeBase :=
  [ ("hemoglobin",
     entry "Hemoglobin" "g/dL" ["hgb"; "hb"; "hemglobin"; "heoglobin"; "hemglobin"]
       12.0 15.0 0 30);
    ("wbc",
     entry "WBC" "/uL" ["white blood cells"; "white blood cell count"; "wbc count"]
       4000 11000 0 100000);
    ("White Blood Cell Count",
     entry "WBC" "/uL" ["white blood cells"; "white blood cell count"; "wbc count"]
       4000 11000 0 100000);
    ("rbc",
     entry "RBC" "mil/uL" ["red blood cells"; "red blood cell count"; "rbc count"]
       4.2 5.4 0 12);
    ("platelet count",
     entry "Platelet Count" "/uL" ["platelets"; "plt"; "platlet"; "platelet"]
       150000 450000 0 2000000);
    ("hematocrit",
     entry "Hematocrit" "%" ["hct"; "packed cell volume"]
       36.0 46.0 0 100);
    ("glucose",
     entry "Glucose" "mg/dL" ["blood glucose"; "sugar"; "glucse"; "fasting glucose"]
       70 100 0 2000);
    ("sodium",
     entry "Sodium" "mEq/L" ["na"; "sodim"; "serum sodium"]
       135 145 100 200);
    ("potassium",
     entry "Potassium" "mEq/L" ["k"; "potasium"; "serum potassium"]
       3.5 5.0 0 15);
    ("creatinine",
     entry "Creatinine" "mg/dL" ["creat"; "cretinine"; "serum creatinine"]
       0.6 1.2 0 50);
    ("bun",
     entry "BUN" "mg/dL" ["blood urea nitrogen"; "urea nitrogen"]
       7 20 0 300);
    ("chloride",
     entry "Chloride" "mEq/L" ["cl"; "serum chloride"]
       98 107 50 200);
    ("co2",
     entry "CO2" "mEq/L" ["carbon dioxide"; "bicarbonate"; "hco3"]
       22 29 0 100);
    ("total cholesterol",
     entry "Total Cholesterol" "mg/dL" ["cholesterol"; "chol"; "total chol"; "cholesterol_total"]
       0 200 0 1000);
    ("ldl",
     entry "LDL" "mg/dL" ["ldl cholesterol"; "bad cholesterol"; "low density lipoprotein"]
       0 100 0 800);
    ("hdl",
     entry "HDL" "mg/dL" ["hdl cholesterol"; "good cholesterol"; "high density lipoprotein"]
       40 999 0 300);
    ("triglycerides",
     entry "Triglycerides" "mg/dL" ["trig"; "triglyceride"]
       0 150 0 5000);
    ("ast",
     entry_without_limits "AST" "U/L" ["aspartate aminotransferase"; "sgot"]
       10 40);
    ("alt",
     entry_without_limits "ALT" "U/L" ["alanine aminotransferase"; "sgpt"]
       7 56);
    ("total bilirubin",
     entry_without_limits "Total Bilirubin" "mg/dL" ["bilirubin"; "total bili"]
       0.2 1.2);
    ("albumin",
     entry_without_limits "Albumin" "g/dL" ["serum albumin"]
       3.5 5.0);
    ("total protein",
     entry_without_limits "Total Protein" "g/dL" ["protein"; "serum protein"]
       6.0 8.3);
    ("tsh",
     entry_without_limits "TSH" "mIU/L" ["thyroid stimulating hormone"; "thyrotropin"]
       0.4 4.0);
    ("free t4",
     entry_without_limits "Free T4" "ng/dL" ["free thyroxine"; "ft4"]
       0.8 1.8);
    ("free t3",
     entry_without_limits "Free T3" "pg/mL" ["free triiodothyronine"; "ft3"]
       2.3 4.2);
    ("hba1c",
     entry_without_limits "HbA1c" "%" ["a1c"; "hemoglobin a1c"; "glycated hemoglobin"]
       0 5.7);
    ("esr",
     entry_without_limits "ESR" "mm/hr" ["erythrocyte sedimentation rate"; "sed rate"]
       0 20);
    ("crp",
     entry_without_limits "CRP" "mg/L" ["c-reactive protein"; "c reactive protein"]
       0 3.0);
    ("enhanced", no_entry) ].


(** ** Vocabulary of the statements *)

Module Spec.

Import Guardrail.

(** The phrase by which [validateTests] recognises a hallucination in a
    rejection reason. *)
Definition marker : string := "not found in original".

(** The record is well formed and the mention check refuses it: the second
    rejection of [validateSingleTest]. *)
Definition fails_traceability (g : Guardrail.t) (text : option string) (test : Test) : Prop :=
  isValidTestStructure test = true
  /\ isTestMentionedInOriginal g (Js.show (name test)) text = Returns false.

(** The validation of the record returns a rejection, and the loop of
    [validateTests] takes the rejection for a hallucination. *)
Definition flagged (g : Guardrail.t) (text : option string) (test : Test) : bool :=
  match validateSingleTest g test text with
  | Returns testValidation =>
      negb (isValid testValidation)
      && Js.includes (reason_text (rejectionReason testValidation)) marker
  | Throws _ => false
  end.

(** The validation of the record throws. *)
Definition throws (g : Guardrail.t) (text : option string) (test : Test) : bool :=
  match validateSingleTest g test text with
  | Returns _ => false
  | Throws _ => true
  end.

(** The validation of the record returns and finds it valid. *)
Definition kept (g : Guardrail.t) (text : option string) (test : Test) : bool :=
  match validateSingleTest g test text with
  | Returns testValidation => isValid testValidation
  | Throws _ => false
  end.

(** The validation of the record returns and finds it invalid. *)
Definition rejected (g : Guardrail.t) (text : option string) (test : Test) : bool :=
  match validateSingleTest g test text with
  | Returns testValidation => negb (isValid testValidation)
  | Throws _ => false
  end.

(** The warnings of a valid record, by the verdicts of its four checks, and
    the product of their penalties. *)
Definition warnings_of (test : Test) (known realistic unitValid consistent : bool)
  : list Warning :=
  (if known then [] else [UnknownTest (name test)])
  ++ (if realistic then [] else [UnrealisticValue (name test) (value test) (unit test)])
  ++ (if unitValid then [] else [UnexpectedUnit (name test) (unit test)])
  ++ (if consistent then [] else [StatusMismatch (status test) (value test) (name test)]).

(** The state in which [validateTests] enters its loop. *)
Definition initial : Validation :=
  {| v_status := "ok"; v_reason := None; v_warnings := []; v_errors := [];
     v_confidence := 1.0%Q; validated_tests := []; v_rejected_tests := [] |}.

(** The factor a check contributes: 1 when it passes, its penalty when it
    warns. *)
Definition penalty (passes : bool) (factor : Q) : Q := if passes then 1 else factor.

Definition known (g : Guardrail.t) (test : Test) : bool :=
  match normalizeTestName g (Js.show (name test)) with Some _ => true | None => false end.

Definition factor_of (known realistic unitValid consistent : bool) : Q :=
  penalty known 0.7 * penalty realistic 0.6 * penalty unitValid 0.8 * penalty consistent 0.9.

(** The key under which the checks consult the catalog and the table of
    limits: the key that the name resolves to, or ["null"]. *)
Definition resolved_key (g : Guardrail.t) (test : Test) : string :=
  match normalizeTestName g (Js.show (name test)) with Some k => k | None => "null" end.

(** What the catalog object holds under that key. *)
Definition entry_for (g : Guardrail.t) (test : Test) : option TestData :=
  kb_get_opt (knowledgeBase g) (normalizeTestName g (Js.show (name test))).

(** None of the names under which the checks of a record read a table is a
    name that every object inherits: the lower-cased name of the record,
    the key it resolves to, and the unit of its catalog entry. *)
Definition ordinary (g : Guardrail.t) (test : Test) : bool :=
  negb (Js.inherited (Js.toLowerCase (Js.show (name test))))
  && negb (Js.inherited (resolved_key g test))
  && match entry_for g test with
     | Some data =>
         match td_unit data with
         | Some expected => negb (Js.inherited expected)
         | None => true
         end
     | None => true
     end.

(** The bounds that the table of the guardrail lists for a record: the row
    of its lower-cased name or else the row of the key it resolves to. *)
Definition limits_of (g : Guardrail.t) (test : Test) : option Limits :=
  SimilarityMatcher.or_else
    (Js.own physicalLimits (Js.toLowerCase (Js.show (name test))))
    (Js.own physicalLimits (resolved_key g test)).

(** The value is a number that is not within the bounds. *)
Definition outside (lim : Limits) (v : JsValue) : bool :=
  match v with
  | VNumber n => negb (Num.geb n (Fin (min lim)) && Num.leb n (Fin (max lim)))
  | _ => false
  end.

(** In the words of the specification: the value lies outside the physical
    bounds of the catalog entry of the record. *)
Definition outside_catalog_bounds (g : Guardrail.t) (test : Test) : bool :=
  match kb_get_opt (knowledgeBase g) (normalizeTestName g (Js.show (name test))) with
  | Some data =>
      match td_physicalLimits data with
      | Some lim => outside lim (value test)
      | None => false
      end
  | None => false
  end.

(** The notational variants that the guardrail lists for a unit. *)
Definition notational_variants (expected : string) : list string :=
  match Js.own unitVariations expected with Some variants => variants | None => [] end.

(** The unit of the record is neither the unit of its catalog entry nor,
    in lower case, one of the notational variants listed for that unit. *)
Definition unit_unexpected (g : Guardrail.t) (test : Test) : Prop :=
  exists data expected,
    entry_for g test = Some data
    /\ td_unit data = Some expected
    /\ expected <> ""
    /\ Js.show (unit test) <> expected
    /\ ~ In (Js.toLowerCase (Js.show (unit test))) (notational_variants expected).

(** The status of the record, in lower case, is not the one that its
    numeric value has against the [normalRange] of its catalog entry:
    ["low"] below the range, ["high"] above it, ["normal"] within. *)
Definition status_disagrees (g : Guardrail.t) (test : Test) : Prop :=
  exists data range v,
    entry_for g test = Some data
    /\ td_normalRange data = Some range
    /\ value test = VNumber v
    /\ let status := Js.toLowerCase (Js.show (status test)) in
       (Num.ltb v (Fin (low range)) = true /\ status <> "low")
       \/ (Num.gtb v (Fin (high range)) = true /\ status <> "high")
       \/ (Num.geb v (Fin (low range)) = true /\ Num.leb v (Fin (high range)) = true
           /\ status <> "normal").

(** The string consists of the characters a-z, 0-9 and whitespace. *)
Fixpoint plain (s : string) : bool :=
  match s with
  | EmptyString => true
  | String c s' => (Js.is_lower c || Js.is_digit c || Js.is_space c) && plain s'
  end.

(** The built-in variations of a name: the row of the table, or the name
    itself when the table has no row for it. *)
Definition variations_of (testNameLower : string) : list string :=
  match Js.own commonVariations testNameLower with
  | Some variations => variations
  | None => [testNameLower]
  end.

(** The catalog entry that the mention check consults for its aliases. *)
Definition entry_of (g : Guardrail.t) (testName : string) : option TestData :=
  SimilarityMatcher.or_else
    (kb_get (knowledgeBase g) (Js.toLowerCase testName))
    (kb_get_opt (knowledgeBase g) (normalizeTestName g testName)).

Definition aliases_of (g : Guardrail.t) (testName : string) : list string :=
  match entry_of g testName with
  | Some d => match td_aliases d with Some al => al | None => [] end
  | None => []
  end.

(** The edit-distance similarity of the guardrail as a rational, for
    strings that are not both empty. *)
Definition similarity_ratio (a b : string) : Q :=
  1 - Q_of_nat (Lev.levenshteinDistance a b)
      / Q_of_nat (Nat.max (String.length a) (String.length b)).

(** The traceability criterion in the words of the specification: the
    name, or an alias of its catalog entry, appears in the original text,
    or some whitespace-delimited token of the text is more than 0.7 similar
    to the name.  Letter case is ignored. *)
Definition claimed_traceable (g : Guardrail.t) (testName : string) (text : string) : Prop :=
  let lowered := Js.toLowerCase text in
  Js.includes lowered (Js.toLowerCase testName) = true
  \/ (exists alias, In alias (aliases_of g testName)
                    /\ Js.includes lowered (Js.toLowerCase alias) = true)
  \/ (exists token, In token (Js.split_ws lowered)
                    /\ (0.7 < similarity_ratio (Js.toLowerCase testName) token)%Q).

(** The criterion that the mention check implements on a non-empty text:
    everything is searched in the lower-cased text with each character
    other than a-z, 0-9 and whitespace blanked; the built-in variations of
    the name count as well; a similar token needs three characters. *)
Definition traceable (g : Guardrail.t) (testName : string) (text : string) : Prop :=
  let normalizedText := Js.blank_non_alnum (Js.toLowerCase text) in
  let testNameLower := Js.toLowerCase testName in
  Js.includes normalizedText testNameLower = true
  \/ (exists alias, In alias (aliases_of g testName)
                    /\ Js.includes normalizedText (Js.toLowerCase alias) = true)
  \/ (exists variation, In variation (variations_of testNameLower)
                        /\ Js.includes normalizedText variation = true)
  \/ (exists word, In word (Js.split_ws normalizedText)
                   /\ (3 <= String.length word)%nat
                   /\ (0.7 < similarity_ratio testNameLower word)%Q).

(** The cleaned input is a key of the catalog. *)
Definition is_key (kb : KnowledgeBase) (c : string) : Prop :=
  exists data, Js.own kb c = Some data.

(** The cleaned input is the lower-case form of an alias of some entry. *)
Definition is_alias (kb : KnowledgeBase) (c : string) : Prop :=
  exists key data al alias,
    In (key, data) kb /\ td_aliases data = Some al /\ In alias al /\ Js.toLowerCase alias = c.

(** The cleaned input is the lower-case form of a display name. *)
Definition is_display (kb : KnowledgeBase) (c : string) : Prop :=
  exists key data n,
    In (key, data) kb /\ td_name data = Some n /\ n <> "" /\ Js.toLowerCase n = c.

(** The cleaned input is the lower-case form of a key written with capitals. *)
Definition is_folded_key (kb : KnowledgeBase) (c : string) : Prop :=
  exists key data, In (key, data) kb /\ Js.toLowerCase key = c /\ c <> "".

(** The names under which a catalog can be addressed: its keys as written
    and in lower case, its display names and its aliases in lower case. *)
Definition names_of (kb : KnowledgeBase) : list string :=
  flat_map (fun e : string * TestData =>
              fst e :: Js.toLowerCase (fst e)
              :: match td_name (snd e) with Some n => [Js.toLowerCase n] | None => [] end
              ++ match td_aliases (snd e) with
                 | Some al => map Js.toLowerCase al
                 | None => []
                 end) kb.

Definition aliases_lower (kb : KnowledgeBase) : list string :=
  flat_map (fun e : string * TestData =>
              match td_aliases (snd e) with
              | Some al => map Js.toLowerCase al
              | None => []
              end) kb.

(** The name is not empty and is a key of the catalog as written or an
    alias in lower case: what the two exact tables of the matcher hold. *)
Definition in_exact_tables (kb : KnowledgeBase) (c : string) : bool :=
  negb (String.eqb c "")
  && ((match Js.own kb c with Some _ => true | None => false end)
      || existsb (String.eqb c) (aliases_lower kb)).

(** What is expected of the search index when the libraries are loaded:
    for this pattern its best result has score 0, the score of a perfect
    match.  Without the libraries there is no index and nothing is
    expected. *)
Definition index_scores_perfect_hit (l : option SimilarityMatcher.NlpLibs)
    (kb : KnowledgeBase) (c : string) : Prop :=
  match SimilarityMatcher.testNamesFuse (SimilarityMatcher.new l kb) with
  | None => True
  | Some search =>
      exists hit rest, search c = hit :: rest /\ SimilarityMatcher.score hit == 0
  end.

(** What the first loop of [jaroSimilarity] maintains: every match marks
    one fresh position of the second string and at most one fresh position
    of the first. *)
Definition jaro_inv (len1 len2 : nat) (st : SimilarityMatcher.JaroScan) : Prop :=
  SimilarityMatcher.matches st = count_occ Bool.bool_dec (SimilarityMatcher.matches2 st) true
  /\ length (SimilarityMatcher.matches2 st) = len2
  /\ (count_occ Bool.bool_dec (SimilarityMatcher.matches1 st) true <= SimilarityMatcher.matches st)%nat
  /\ length (SimilarityMatcher.matches1 st) = len1.

End Spec.

(** ** Sample inputs *)

Module Sample.

Import Guardrail.

Definition guardrail : Guardrail.t := Guardrail.new MEDICAL_DATA.

Definition report : string := "Hemoglobin 10.2 g/dL (Low)".

Definition hemoglobin_low : Test :=
  {| name := Some "Hemoglobin"; value := VNumber (Fin 10.2);
     unit := Some "g/dL"; status := Some "low" |}.

(** A red cell count beyond the bound of 12 that the catalog gives for it. *)
Definition rbc_50 : Test :=
  {| name := Some "RBC"; value := VNumber (Fin 50);
     unit := Some "mil/uL"; status := Some "high" |}.

(** A record that the report above does not mention. *)
Definition cholesterol_high : Test :=
  {| name := Some "Total Cholesterol"; value := VNumber (Fin 220);
     unit := Some "mg/dL"; status := Some "high" |}.

(** Beyond the physical limit of 2000 for glucose. *)
Definition glucose_5000 : Test :=
  {| name := Some "Glucose"; value := VNumber (Fin 5000);
     unit := Some "mg/dL"; status := Some "high" |}.

(** A record without a unit whose name contains the phrase that
    [validateTests] searches rejection reasons for. *)
Definition phrase_as_name : Test :=
  {| name := Some "not found in original"; value := VNumber (Fin 1);
     unit := Some ""; status := Some "low" |}.

(** A record without a unit. *)
Definition glucose_no_unit : Test :=
  {| name := Some "Glucose"; value := VNumber (Fin 90);
     unit := Some ""; status := Some "normal" |}.

Definition matcher : SimilarityMatcher.t := SimilarityMatcher.new None MEDICAL_DATA.

(** A catalog whose display name is neither a key nor an alias. *)
Definition vitamin_catalog : KnowledgeBase :=
  [ ("vitd", entry "Vitamin D" "ng/mL" ["25-oh d"] 30 100 0 500) ].

(** A stand-in for the libraries: the index returns the elements whose text
    equals the pattern, all with the score [s]. *)
Definition index_scoring (s : Q) : SimilarityMatcher.NlpLibs :=
  {| SimilarityMatcher.Fuse := fun A text_of _ items pattern =>
       map (fun it => {| SimilarityMatcher.item := it; SimilarityMatcher.score := s |})
           (List.filter (fun it => String.eqb (text_of it) pattern) items);
     SimilarityMatcher.metaphone := fun s => s;
     SimilarityMatcher.soundex := fun s => s;
     SimilarityMatcher.levenshtein := Lev.levenshteinDistance |}.

(** [Number.EPSILON], the smallest score above 0 that an index reports. *)
Definition epsilon : Q := 1 # 4503599627370496.

End Sample.

(** ** The helpers of [reportParser.js] on the raw text *)

Module ReportParser.

Definition LF : ascii := "010"%char.

(** [s.split('\n')]: the pieces between line feeds; the empty string yields
    one empty piece. *)
Fixpoint split_lines (s : string) : list string :=
  match s with
  | EmptyString => [EmptyString]
  | String c s' =>
      if Ascii.eqb c LF then EmptyString :: split_lines s'
      else
        match split_lines s' with
        | line :: rest => String c line :: rest
        | [] => [String c EmptyString]
        end
  end.

(** [lines.join(sep)] *)
Fixpoint join (sep : string) (lines : list string) : string :=
  match lines with
  | [] => ""
  | [line] => line
  | line :: rest => line +:+ sep +:+ join sep rest
  end.

(** [preprocessOcrText(rawText)]; [rawText] is [None] when the argument is
    not a string. *)
Definition preprocessOcrText (rawText : option string) : string :=
  match rawText with
  | None => ""
  | Some rawText =>
      if negb (Js.truthy rawText) then ""
      else
        Js.trim
          (join " "
             (List.filter (fun line => negb (String.eqb (Js.trim line) ""))
                (split_lines rawText)))
  end.

Record InputCheck : Type := { isValid : bool; reason : option string }.

Definition validateInput (text : option string) : InputCheck :=
  match text with
  | None =>
      {| isValid := false;
         reason := Some "Invalid input: text must be a non-empty string" |}
  | Some text =>
      if negb (Js.truthy text) then
        {| isValid := false;
           reason := Some "Invalid input: text must be a non-empty string" |}
      else if (String.length (Js.trim text) =? 0)%nat then
        {| isValid := false; reason := Some "Invalid input: text cannot be empty" |}
      else if (10000 <? Z.of_nat (String.length text))%Z then
        {| isValid := false;
           reason := Some "Invalid input: text too long (maximum 10,000 characters)" |}
      else {| isValid := true; reason := None |}
  end.

End ReportParser.

(** ** The request handler of [index.js], from the guardrail on *)

Module Server.

(** The properties of [parsedData] that the handler reads once the report
    is parsed.  [p_overall] is [processing_confidence?.overall]; the
    summary, the explanations and the statistics are copied to the response
    unread and are left out. *)
Record Parsed : Type := {
  p_tests : option (list Guardrail.Test);
  p_status : option string;
  p_reason : option string;
  p_overall : option Q
}.

(** What the handler sends: [res.status(400).json({status, reason})],
    [res.status(500).json({status, message})] (the error code and the
    metadata of the [catch] block are left out) or
    [res.json(finalResponse)]. *)
Inductive Response : Type :=
  | BadRequest (status : string) (reason : option string)
  | ServerError (status : string) (message : string)
  | Ok (tests : list Guardrail.Test) (confidence : Q) (status : string).

(** [x || d] on a string that may be missing. *)
Definition or_text (x : option string) (d : string) : string :=
  match x with
  | Some s => if Js.truthy s then s else d
  | None => d
  end.

(** [x || 1.0] on a number that may be missing. *)
Definition or_one (x : option Q) : Q :=
  match x with
  | Some q => if Qeq_bool q 0 then 1.0%Q else q
  | None => 1.0%Q
  end.

Definition status_is (x : option string) (s : string) : bool :=
  match x with Some y => String.eqb y s | None => false end.

Definition no_tests : string :=
  "Could not find any recognizable test results in the provided input.".

(** The [catch] block of the handler: the message it sends is chosen by
    what the message of the exception contains. *)
Definition internal_error (message : string) : Response :=
  ServerError "error"
    (if Js.includes message "OCR" then "An error occurred during OCR text extraction."
     else if Js.includes message "validation" then "An error occurred during data validation."
     else if Js.includes message "parsing"
          then "An error occurred while parsing the medical data."
     else if Js.includes message "timeout" then "Request timed out during processing."
     else "An internal server error occurred while processing your request.").

(** Steps 3 to 5 of the handler of [/simplify-report], inside its [try]. *)
Definition respond (g : Guardrail.t) (parsedData : Parsed) (originalText : option string)
  : Response :=
  match
    Guardrail.validateTests g
      (match p_tests parsedData with Some tests => tests | None => [] end) originalText
  with
  | Throws message => internal_error message
  | Returns validation =>
  if String.eqb (Guardrail.r_status validation) "unprocessed" then
    BadRequest "unprocessed" (Guardrail.r_reason validation)
  else
    (* parsedData.tests = validation.validated_tests *)
    let tests :=
      match Guardrail.r_validation validation with
      | Some v => Some (Guardrail.validated_tests v)
      | None => None
      end in
    if status_is (p_status parsedData) "unprocessed" then
      BadRequest "unprocessed" (Some (or_text (p_reason parsedData) no_tests))
    else if status_is (p_status parsedData) "error" then
      ServerError "error" (or_text (p_reason parsedData) "An error occurred during processing.")
    else
      match tests with
      | None | Some [] => BadRequest "unprocessed" (Some no_tests)
      | Some tests =>
          let overallConfidence :=
            Qmin (or_one (p_overall parsedData))
                 (or_one (Some (Guardrail.r_confidence validation))) in
          Ok tests overallConfidence
             (if String.eqb (Guardrail.r_status validation) "error" then "error" else "ok")
      end
  end.

End Server.

(** ** Further sample inputs *)

Module Cases.

Import Guardrail.

(** Beyond the physical limit of glucose, and reported as normal. *)
Definition glucose_5000_normal : Test :=
  {| name := Some "Glucose"; value := VNumber (Fin 5000);
     unit := Some "mg/dL"; status := Some "normal" |}.

(** A test that the catalog does not hold. *)
Definition ferritin : Test :=
  {| name := Some "Ferritin"; value := VNumber (Fin 100);
     unit := Some "ng/mL"; status := Some "normal" |}.

(** A low hemoglobin whose status is the one the normalizer computes. *)
Definition hemoglobin_normalized : Test :=
  {| name := Some "Hemoglobin"; value := VNumber (Fin 10.2);
     unit := Some "g/dL";
     status := Some (Normalizer.determineStatus (VNumber (Fin 10.2))
                       {| low := 12.0; high := 15.0 |} (Some "high")) |}.


(** A well-formed record under a name that every object inherits. *)
Definition constructor_normal : Test :=
  {| name := Some "constructor"; value := VNumber (Fin 1);
     unit := Some "mg/dL"; status := Some "normal" |}.

(** A report that holds the phrase [validateTests] searches rejection
    reasons for, and nothing about cholesterol. *)
Definition report_with_phrase : string :=
  "Hemoglobin 10.2 g/dL (Low); creatinine not found in original sample".

(** What the parser hands over for the sample report. *)
Definition parsed_report : Server.Parsed :=
  {| Server.p_tests := Some [Sample.hemoglobin_low];
     Server.p_status := Some "ok";
     Server.p_reason := None;
     Server.p_overall := Some 0.9%Q |}.

(** The same with a second record, which the report does not mention. *)
Definition parsed_with_extra : Server.Parsed :=
  {| Server.p_tests := Some [Sample.hemoglobin_low; Sample.cholesterol_high];
     Server.p_status := Some "ok";
     Server.p_reason := None;
     Server.p_overall := Some 0.9%Q |}.

End Cases.

(** ** Vocabulary of the further properties *)

Module Inv.

(** Every key in the tables of the matcher satisfies [K], every unit [P]. *)
Definition tables (K P : string -> Prop) (tb : SimilarityMatcher.Tables) : Prop :=
  (forall c k, SimilarityMatcher.tb_aliases tb !! c = Some k -> K k)
  /\ (forall x, In x (SimilarityMatcher.tb_names tb) -> K (SimilarityMatcher.cand_key x))
  /\ (forall u, In u (SimilarityMatcher.tb_units tb) -> P u).

(** The outcome of one element of the batch of [normalizeTests]. *)
Definition outcome (nz : Normalizer.t) (e : option Normalizer.ExtractedTest)
  : option (Normalizer.NormalizedTest * Q) :=
  match e with
  | Some e => Normalizer.normalizeIndividualTest nz e
  | None => None
  end.

(** Its score: the confidence of the normalized test, 0 without one. *)
Definition score (nz : Normalizer.t) (e : option Normalizer.ExtractedTest) : Q :=
  match outcome nz e with Some (_, c) => c | None => 0.0%Q end.


(** The record is rejected for [reason]. *)
Definition rejected_for (g : Guardrail.t) (text : option string) (test : Guardrail.Test)
    (reason : string) : Prop :=
  exists testValidation,
    Guardrail.validateSingleTest g test text = Returns testValidation
    /\ Guardrail.isValid testValidation = false
    /\ Guardrail.reason_text (Guardrail.rejectionReason testValidation) = reason.

(** The validation of the record returns a confidence below 1: the record
    lowers the confidence of its batch. *)
Definition below_one (g : Guardrail.t) (text : option string) (test : Guardrail.Test) : bool :=
  match Guardrail.validateSingleTest g test text with
  | Returns testValidation => Num.Qltb (Guardrail.confidence testValidation) 1%Q
  | Throws _ => false
  end.


(** A list of characters without its leading whitespace. *)
Fixpoint drop_spaces (l : list ascii) : list ascii :=
  match l with
  | [] => []
  | c :: l' => if Js.is_space c then drop_spaces l' else l
  end.

(** The string holds whitespace only. *)
Definition blank (s : string) : bool := forallb Js.is_space (Lev.chars s).

End Inv.

(** * Properties *)

(** ** Strings *)

Lemma includes_append_r (a b sub : string) :
  Js.includes b sub = true -> Js.includes (a +:+ b) sub = true.
Proof.
  intros Hb. induction a as [|c a IH]; simpl.
  - exact Hb.
  - rewrite IH. apply orb_true_r.
Qed.

Lemma traceability_reason_has_marker (n : string) :
  Js.includes ("Test '" +:+ n +:+ "' not found in original text - potential hallucination")
    Spec.marker = true.
Proof.
  apply (includes_append_r "Test '").
  apply includes_append_r. reflexivity.
Qed.

(** ** The guardrail: one record *)

Section GuardrailRecord.

Import Guardrail.

Variable g : Guardrail.t.
Variable text : option string.

Lemma malformed_rejected (test : Test) :
  isValidTestStructure test = false ->
  validateSingleTest g test text =
    Returns
      {| isValid := false; warnings := []; confidence := 1.0%Q;
         rejectionReason := Some ("Invalid test structure for " +:+ Js.show (name test)) |}.
Proof. intros H. unfold validateSingleTest. rewrite H. reflexivity. Qed.

(** The five ways through [validateSingleTest]: the record is malformed;
    the mention check throws; it refuses the record; the unit check
    throws; the record is valid, with the warnings and the penalties of
    its four checks. *)
Lemma validation_cases (test : Test) :
  (isValidTestStructure test = false
   /\ validateSingleTest g test text =
        Returns
          {| isValid := false; warnings := []; confidence := 1.0%Q;
             rejectionReason :=
               Some ("Invalid test structure for " +:+ Js.show (name test)) |})
  \/ (isValidTestStructure test = true
      /\ exists message,
           isTestMentionedInOriginal g (Js.show (name test)) text = Throws message
           /\ validateSingleTest g test text = Throws message)
  \/ (isValidTestStructure test = true
      /\ isTestMentionedInOriginal g (Js.show (name test)) text = Returns false
      /\ exists testValidation,
           validateSingleTest g test text = Returns testValidation
           /\ isValid testValidation = false
           /\ rejectionReason testValidation =
                Some ("Test '" +:+ Js.show (name test)
                      +:+ "' not found in original text - potential hallucination"))
  \/ (isValidTestStructure test = true
      /\ isTestMentionedInOriginal g (Js.show (name test)) text = Returns true
      /\ exists message,
           isUnitValid g test = Throws message
           /\ validateSingleTest g test text = Throws message)
  \/ (isValidTestStructure test = true
      /\ isTestMentionedInOriginal g (Js.show (name test)) text = Returns true
      /\ exists unitValid testValidation,
           isUnitValid g test = Returns unitValid
           /\ validateSingleTest g test text = Returns testValidation
           /\ isValid testValidation = true
           /\ rejectionReason testValidation = None
           /\ warnings testValidation =
                Spec.warnings_of test (Spec.known g test) (isValueRealistic g test)
                  unitValid (isStatusConsistent g test)
           /\ (confidence testValidation ==
                 Spec.factor_of (Spec.known g test) (isValueRealistic g test)
                   unitValid (isStatusConsistent g test))%Q).
Proof.
  unfold validateSingleTest.
  destruct (isValidTestStructure test); simpl; [|now left].
  right.
  destruct (isTestMentionedInOriginal g (Js.show (name test)) text) as [[|]|message]; simpl.
  - right. right.
    destruct (isUnitValid g test) as [unitValid|message]; simpl.
    + right. split; [reflexivity|]. split; [reflexivity|].
      exists unitValid. eexists. split; [reflexivity|]. split; [reflexivity|].
      unfold Spec.warnings_of, Spec.factor_of, Spec.known, Spec.penalty.
      destruct (normalizeTestName g (Js.show (name test)));
        destruct (isValueRealistic g test);
        destruct unitValid;
        destruct (isStatusConsistent g test); simpl;
        repeat split; reflexivity.
    + left. split; [reflexivity|]. split; [reflexivity|]. exists message. auto.
  - right. left. split; [reflexivity|]. split; [reflexivity|].
    eexists. split; [reflexivity|]. split; reflexivity.
  - left. split; [reflexivity|]. exists message. auto.
Qed.

Lemma untraceable_rejected (test : Test) :
  Spec.fails_traceability g text test ->
  exists testValidation,
    validateSingleTest g test text = Returns testValidation
    /\ isValid testValidation = false
    /\ rejectionReason testValidation =
         Some ("Test '" +:+ Js.show (name test)
               +:+ "' not found in original text - potential hallucination").
Proof.
  intros [Hs Hm].
  destruct (validation_cases test)
    as [(H & _) | [(_ & m & H & _) | [(_ & _ & H) | [(_ & H & _) | (_ & H & _)]]]];
    try congruence; exact H.
Qed.

Lemma untraceable_flagged (test : Test) :
  Spec.fails_traceability g text test -> Spec.flagged g text test = true.
Proof.
  intros H. destruct (untraceable_rejected test H) as (tv & E & Hv & Hr).
  unfold Spec.flagged. rewrite E, Hv, Hr. simpl. apply traceability_reason_has_marker.
Qed.

(** A rejected record always carries a reason. *)
Lemma rejection_has_reason (test : Test) (testValidation : TestValidation) :
  validateSingleTest g test text = Returns testValidation ->
  isValid testValidation = false ->
  exists reason, rejectionReason testValidation = Some reason.
Proof.
  intros E Hv.
  destruct (validation_cases test)
    as [(_ & H) | [(_ & m & _ & H) | [(_ & _ & tv & H & _ & Hr)
       | [(_ & _ & m & _ & H) | (_ & _ & u & tv & _ & H & Hvalid & _)]]]];
    rewrite H in E; try discriminate E; injection E as <-; simpl; eauto.
  congruence.
Qed.

(** A record is kept exactly when it is well formed and mentioned and its
    unit check returns. *)
Lemma kept_iff (test : Test) :
  Spec.kept g text test = true <->
  isValidTestStructure test = true
  /\ isTestMentionedInOriginal g (Js.show (name test)) text = Returns true
  /\ exists unitValid, isUnitValid g test = Returns unitValid.
Proof.
  unfold Spec.kept.
  destruct (validation_cases test)
    as [(Hs & H) | [(Hs & m & Hm & H) | [(Hs & Hm & tv & H & Hv & _)
       | [(Hs & Hm & m & Hu & H) | (Hs & Hm & u & tv & Hu & H & Hv & _)]]]];
    rewrite H; simpl; try rewrite Hv.
  - split; [discriminate|]. intros (Hs' & _). congruence.
  - split; [discriminate|]. intros (_ & Hm' & _). congruence.
  - split; [discriminate|]. intros (_ & Hm' & _). congruence.
  - split; [discriminate|]. intros (_ & _ & u & Hu'). congruence.
  - split; [eauto|reflexivity].
Qed.

(** A flagged record that is well formed did fail the mention check. *)
Lemma flagged_well_formed (test : Test) :
  Spec.flagged g text test = true -> isValidTestStructure test = true ->
  Spec.fails_traceability g text test.
Proof.
  unfold Spec.flagged. intros H Hs. split; [exact Hs|].
  destruct (validation_cases test)
    as [(Hs' & _) | [(_ & m & _ & E) | [(_ & Hm & _)
       | [(_ & _ & m & _ & E) | (_ & _ & u & tv & _ & E & Hv & _)]]]];
    try congruence; try (rewrite E in H; try discriminate H).
  rewrite Hv in H. discriminate H.
Qed.

End GuardrailRecord.

(** ** The guardrail: the loop over a batch *)

Section GuardrailBatch.

Import Guardrail.

Variable g : Guardrail.t.
Variable text : option string.

(** The four ways through the body of the loop. *)
Lemma loop_cases (test : Test) (rest : list Test) (acc : Validation) :
  (exists message,
     validateSingleTest g test text = Throws message
     /\ validate_loop g text (test :: rest) acc = Throws message)
  \/ (exists testValidation,
        validateSingleTest g test text = Returns testValidation
        /\ isValid testValidation = true
        /\ exists acc',
             validate_loop g text (test :: rest) acc = validate_loop g text rest acc'
             /\ validated_tests acc' = validated_tests acc ++ [test]
             /\ v_rejected_tests acc' = v_rejected_tests acc
             /\ v_errors acc' = v_errors acc
             /\ v_status acc' = v_status acc
             /\ (warnings testValidation = [] ->
                 v_warnings acc' = v_warnings acc /\ v_confidence acc' = v_confidence acc)
             /\ (warnings testValidation <> [] ->
                 v_warnings acc' = v_warnings acc ++ warnings testValidation
                 /\ v_confidence acc' = (v_confidence acc * confidence testValidation)%Q))
  \/ (exists testValidation,
        validateSingleTest g test text = Returns testValidation
        /\ isValid testValidation = false
        /\ Spec.flagged g text test = true
        /\ validate_loop g text (test :: rest) acc =
             Returns
               (inl {| r_status := "unprocessed";
                       r_reason := Some ("hallucinated tests not present in input: "
                                         +:+ Js.show (name test));
                       r_confidence := 0;
                       r_rejected_tests :=
                         v_rejected_tests acc
                         ++ [{| rej_test := test;
                                rej_reason :=
                                  reason_text (rejectionReason testValidation) |}];
                       r_validation := None |}))
  \/ (exists testValidation,
        validateSingleTest g test text = Returns testValidation
        /\ isValid testValidation = false
        /\ Spec.flagged g text test = false
        /\ exists acc',
             validate_loop g text (test :: rest) acc = validate_loop g text rest acc'
             /\ validated_tests acc' = validated_tests acc
             /\ v_rejected_tests acc' =
                  v_rejected_tests acc
                  ++ [{| rej_test := test;
                         rej_reason := reason_text (rejectionReason testValidation) |}]
             /\ v_errors acc' =
                  v_errors acc ++ [reason_text (rejectionReason testValidation)]
             /\ v_status acc' = v_status acc
             /\ v_warnings acc' = v_warnings acc
             /\ v_confidence acc' = v_confidence acc).
Proof.
  unfold Spec.flagged. simpl validate_loop.
  destruct (validateSingleTest g test text) as [tv|message]; simpl;
    [|left; eauto].
  right.
  destruct (isValid tv) eqn:Hv.
  - left. exists tv. split; [reflexivity|]. split; [exact Hv|].
    destruct (warnings tv) as [|w ws] eqn:Hw; simpl.
    + eexists. split; [reflexivity|]. simpl. repeat split; try reflexivity; congruence.
    + eexists. split; [reflexivity|]. simpl. repeat split; try reflexivity; congruence.
  - right. simpl.
    destruct (Js.includes (reason_text (rejectionReason tv)) Spec.marker) eqn:Hm.
    + left. exists tv. split; [reflexivity|]. split; [exact Hv|]. split; [reflexivity|].
      unfold Spec.marker in Hm. rewrite Hm. reflexivity.
    + right. exists tv. split; [reflexivity|]. split; [exact Hv|]. split; [reflexivity|].
      unfold Spec.marker in Hm. rewrite Hm. eexists. split; [reflexivity|].
      simpl. repeat split; reflexivity.
Qed.

(** The verdicts of a record exclude one another. *)
Lemma verdicts_of_record (test : Test) :
  (Spec.throws g text test = true -> Spec.kept g text test = false
                                    /\ Spec.rejected g text test = false)
  /\ (Spec.kept g text test = true -> Spec.rejected g text test = false)
  /\ (Spec.flagged g text test = true -> Spec.rejected g text test = true)
  /\ (Spec.rejected g text test = true -> Spec.kept g text test = false).
Proof.
  unfold Spec.throws, Spec.kept, Spec.rejected, Spec.flagged.
  destruct (validateSingleTest g test text) as [tv|m]; simpl;
    [destruct (isValid tv); simpl|]; repeat split; try discriminate; auto.
Qed.

(** When the loop ends, the validated list is the kept records, in
    order. *)
Lemma loop_validated (tests : list Test) :
  forall acc v,
    validate_loop g text tests acc = Returns (inr v) ->
    validated_tests v = validated_tests acc ++ List.filter (Spec.kept g text) tests.
Proof.
  induction tests as [|test rest IH]; intros acc v H.
  - simpl in H. injection H as <-. simpl. now rewrite app_nil_r.
  - destruct (loop_cases test rest acc)
      as [(m & _ & E) | [(tv & Etv & Hv & acc' & E & Hval & _)
         | [(tv & _ & _ & _ & E) | (tv & Etv & Hv & _ & acc' & E & Hval & _)]]];
      rewrite E in H; try discriminate H.
    + rewrite (IH _ _ H), Hval. simpl. unfold Spec.kept at 2. rewrite Etv, Hv.
      now rewrite <- app_assoc.
    + rewrite (IH _ _ H), Hval. simpl. unfold Spec.kept at 2. now rewrite Etv, Hv.
Qed.

(** The loop never touches the status, and it keeps the confidence at 1 as
    long as no warning was recorded. *)
Lemma loop_status_confidence (tests : list Test) :
  forall acc v,
    validate_loop g text tests acc = Returns (inr v) ->
    v_status v = v_status acc
    /\ ((v_warnings acc = [] -> v_confidence acc == 1) ->
        v_warnings v = [] -> v_confidence v == 1).
Proof.
  induction tests as [|test rest IH]; intros acc v H.
  - simpl in H. injection H as <-. auto.
  - destruct (loop_cases test rest acc)
      as [(m & _ & E) | [(tv & _ & _ & acc' & E & _ & _ & _ & Hst & Hnil & Hcons)
         | [(tv & _ & _ & _ & E)
           | (tv & _ & _ & _ & acc' & E & _ & _ & _ & Hst & Hw & Hc)]]];
      rewrite E in H; try discriminate H.
    + destruct (IH _ _ H) as [Hs Hinv]. split; [congruence|].
      intros Hacc Hvnil. apply Hinv; [|exact Hvnil].
      destruct (warnings tv) as [|w ws] eqn:Hws.
      * destruct (Hnil eq_refl) as [-> ->]. exact Hacc.
      * destruct Hcons as [-> _]; [discriminate|].
        intros Habs. now destruct (v_warnings acc).
    + destruct (IH _ _ H) as [Hs Hinv]. split; [congruence|].
      rewrite Hw, Hc in Hinv. exact Hinv.
Qed.

(** The loop stops at the first record that is flagged or whose validation
    throws: it returns the verdict of a hallucination there, or the
    exception leaves it. *)
Lemma loop_stops_at_first (tests : list Test) :
  forall acc,
    existsb (fun t => Spec.flagged g text t || Spec.throws g text t) tests = true ->
    exists pre culprit post,
      tests = pre ++ culprit :: post
      /\ forallb (fun t => negb (Spec.flagged g text t || Spec.throws g text t)) pre = true
      /\ ((Spec.flagged g text culprit = true
           /\ exists rejected,
                validate_loop g text tests acc =
                  Returns
                    (inl {| r_status := "unprocessed";
                            r_reason := Some ("hallucinated tests not present in input: "
                                              +:+ Js.show (name culprit));
                            r_confidence := 0;
                            r_rejected_tests := rejected;
                            r_validation := None |}))
          \/ (exists message,
                validateSingleTest g culprit text = Throws message
                /\ validate_loop g text tests acc = Throws message)).
Proof.
  induction tests as [|test rest IH]; intros acc H; [discriminate|].
  simpl in H.
  assert (Hnext : forall acc',
            validate_loop g text (test :: rest) acc = validate_loop g text rest acc' ->
            Spec.flagged g text test || Spec.throws g text test = false ->
            exists pre culprit post,
              test :: rest = pre ++ culprit :: post
              /\ forallb (fun t => negb (Spec.flagged g text t || Spec.throws g text t)) pre
                 = true
              /\ ((Spec.flagged g text culprit = true
                   /\ exists rejected,
                        validate_loop g text (test :: rest) acc =
                          Returns
                            (inl {| r_status := "unprocessed";
                                    r_reason :=
                                      Some ("hallucinated tests not present in input: "
                                            +:+ Js.show (name culprit));
                                    r_confidence := 0;
                                    r_rejected_tests := rejected;
                                    r_validation := None |}))
                  \/ (exists message,
                        validateSingleTest g culprit text = Throws message
                        /\ validate_loop g text (test :: rest) acc = Throws message))).
  { intros acc' E Hf. rewrite Hf in H. simpl in H.
    destruct (IH acc' H) as (pre & c & post & -> & Hpre & Hc).
    exists (test :: pre), c, post.
    split; [reflexivity|]. split; [simpl; now rewrite Hf|].
    change ((test :: pre) ++ c :: post) with (test :: pre ++ c :: post).
    now rewrite E. }
  destruct (loop_cases test rest acc)
    as [(m & Etv & E) | [(tv & Etv & Hv & acc' & E & _)
       | [(tv & Etv & Hv & Hf & E) | (tv & Etv & Hv & Hf & acc' & E & _)]]].
  - exists [], test, rest. split; [reflexivity|]. split; [reflexivity|]. right. eauto.
  - apply (Hnext acc' E). unfold Spec.flagged, Spec.throws. now rewrite Etv, Hv.
  - exists [], test, rest. split; [reflexivity|]. split; [reflexivity|]. left. eauto.
  - apply (Hnext acc' E). rewrite Hf. unfold Spec.throws. now rewrite Etv.
Qed.

Lemma loop_completes (tests : list Test) :
  forall acc,
    existsb (fun t => Spec.flagged g text t || Spec.throws g text t) tests = false ->
    exists v, validate_loop g text tests acc = Returns (inr v).
Proof.
  induction tests as [|test rest IH]; intros acc H; [simpl; eauto|].
  simpl in H. apply orb_false_elim in H as [Hf Hrest].
  apply orb_false_elim in Hf as [Hf Ht].
  destruct (loop_cases test rest acc)
    as [(m & Etv & E) | [(tv & Etv & Hv & acc' & E & _)
       | [(tv & Etv & Hv & Hf' & E) | (tv & Etv & Hv & _ & acc' & E & _)]]].
  - unfold Spec.throws in Ht. rewrite Etv in Ht. discriminate.
  - rewrite E. apply IH, Hrest.
  - congruence.
  - rewrite E. apply IH, Hrest.
Qed.

(** A loop that runs to its end met no flagged record and no exception. *)
Lemma loop_completed_clean (tests : list Test) :
  forall acc v,
    validate_loop g text tests acc = Returns (inr v) ->
    existsb (fun t => Spec.flagged g text t || Spec.throws g text t) tests = false.
Proof.
  intros acc v H.
  destruct (existsb _ tests) eqn:E; [|reflexivity].
  destruct (loop_stops_at_first tests acc E)
    as (pre & c & post & _ & _ & [(_ & rej & Hrun) | (m & _ & Hrun)]);
    rewrite Hrun in H; discriminate H.
Qed.

Lemma finalize_keeps (v : Validation) :
  validated_tests (finalize v) = validated_tests v
  /\ v_warnings (finalize v) = v_warnings v
  /\ v_confidence (finalize v) = v_confidence v
  /\ v_rejected_tests (finalize v) = v_rejected_tests v
  /\ v_errors (finalize v) = v_errors v.
Proof.
  unfold finalize.
  destruct (Num.Qltb (v_confidence v) 0.3); [simpl; auto 6|].
  destruct (Num.Qltb (v_confidence v) 0.6); [simpl; auto 6|].
  destruct (0 <? length (v_warnings v))%nat; simpl; auto 6.
Qed.

(** The early return yields the four-property object. *)
Lemma loop_abort_shape (tests : list Test) :
  forall acc verdict,
    validate_loop g text tests acc = Returns (inl verdict) ->
    r_status verdict = "unprocessed" /\ r_confidence verdict = 0%Q
    /\ r_validation verdict = None.
Proof.
  induction tests as [|test rest IH]; intros acc verdict H; [discriminate|].
  destruct (loop_cases test rest acc)
    as [(m & _ & E) | [(tv & _ & _ & acc' & E & _)
       | [(tv & _ & _ & _ & E) | (tv & _ & _ & _ & acc' & E & _)]]];
    rewrite E in H; try discriminate H.
  - eapply IH, H.
  - injection H as <-. simpl. auto.
  - eapply IH, H.
Qed.

(** A completed validation is the finalized end state of the loop. *)
Lemma completed_inv (tests : list Test) (r : Verdict) (v : Validation) :
  validateTests g tests text = Returns r ->
  r_validation r = Some v ->
  exists v0,
    validate_loop g text tests Spec.initial = Returns (inr v0)
    /\ v = finalize v0
    /\ r = completed v.
Proof.
  unfold validateTests. fold Spec.initial.
  destruct (validate_loop g text tests Spec.initial) as [[verdict|v0]|m] eqn:E; simpl;
    [| |discriminate].
  - intros [= <-]. destruct (loop_abort_shape _ _ _ E) as (_ & _ & Hn).
    rewrite Hn. discriminate.
  - intros [= <-]. simpl. intros [= <-]. eauto.
Qed.

End GuardrailBatch.

(** ** Comparisons on rationals *)

Lemma Qltb_lt (a b : Q) : Num.Qltb a b = true <-> (a < b)%Q.
Proof.
  unfold Num.Qltb. rewrite negb_true_iff.
  split.
  - intros H. apply Qnot_le_lt. intros Hle. apply Qle_bool_iff in Hle. congruence.
  - intros H. destruct (Qle_bool b a) eqn:E; [|reflexivity].
    apply Qle_bool_iff in E. exfalso. exact (Qlt_not_le _ _ H E).
Qed.

Lemma Qltb_ge (a b : Q) : Num.Qltb a b = false <-> (b <= a)%Q.
Proof.
  unfold Num.Qltb. rewrite negb_false_iff. apply Qle_bool_iff.
Qed.

Lemma Qleb_le (a b : Q) : Num.Qleb a b = true <-> (a <= b)%Q.
Proof. apply Qle_bool_iff. Qed.

Lemma filter_sublist {A : Type} (f : A -> bool) (l : list A) : sublist (List.filter f l) l.
Proof.
  induction l as [|x l IH]; simpl.
  - constructor.
  - destruct (f x); now constructor.
Qed.

(** ** The guardrail: verdicts *)

Section GuardrailVerdict.

Import Guardrail.

Variable g : Guardrail.t.
Variable text : option string.

(** A batch with a flagged record, or with a record whose validation
    throws, is not validated: at the first such record [validateTests]
    returns the four-property object that reports a hallucination and
    names the record, or the exception leaves it. *)
Lemma validateTests_stops_at_first (tests : list Test) :
  existsb (fun t => Spec.flagged g text t || Spec.throws g text t) tests = true ->
  exists pre culprit post,
    tests = pre ++ culprit :: post
    /\ forallb (fun t => negb (Spec.flagged g text t || Spec.throws g text t)) pre = true
    /\ ((Spec.flagged g text culprit = true
         /\ exists rejected,
              validateTests g tests text =
                Returns
                  {| r_status := "unprocessed";
                     r_reason := Some ("hallucinated tests not present in input: "
                                       +:+ Js.show (name culprit));
                     r_confidence := 0;
                     r_rejected_tests := rejected;
                     r_validation := None |})
        \/ (exists message,
              validateSingleTest g culprit text = Throws message
              /\ validateTests g tests text = Throws message)).
Proof.
  intros Hex.
  destruct (loop_stops_at_first g text tests Spec.initial Hex)
    as (pre & culprit & post & Htests & Hpre & Hstop).
  exists pre, culprit, post. split; [exact Htests|]. split; [exact Hpre|].
  unfold validateTests. fold Spec.initial.
  destruct Hstop as [(Hf & rejected & Hrun) | (message & Hthrow & Hrun)]; rewrite Hrun; simpl.
  - left. split; [exact Hf|]. exists rejected. reflexivity.
  - right. exists message. split; [exact Hthrow|reflexivity].
Qed.

(** C10. The validated list of a completed validation is the input list
    filtered by the per-record verdict, hence a subsequence of the input in
    its original order; the validation of no record threw. *)
Theorem validated_tests_subsequence (tests : list Test) (r : Verdict) (v : Validation) :
  validateTests g tests text = Returns r ->
  r_validation r = Some v ->
  validated_tests v = List.filter (Spec.kept g text) tests
  /\ sublist (validated_tests v) tests
  /\ forall t, In t tests ->
       exists testValidation,
         validateSingleTest g t text = Returns testValidation
         /\ Spec.kept g text t = isValid testValidation.
Proof.
  intros Hr H. destruct (completed_inv g text tests r v Hr H) as (v0 & Hloop & -> & _).
  destruct (finalize_keeps v0) as (-> & _).
  rewrite (loop_validated g text tests _ _ Hloop). simpl.
  split; [reflexivity|]. split; [apply filter_sublist|].
  intros t Hin.
  pose proof (loop_completed_clean g text tests _ _ Hloop) as Hclean.
  assert (Ht : Spec.flagged g text t || Spec.throws g text t = false).
  { destruct (Spec.flagged g text t || Spec.throws g text t) eqn:E; [|reflexivity].
    assert (Hex : existsb (fun t => Spec.flagged g text t || Spec.throws g text t) tests = true)
      by (apply existsb_exists; eauto).
    congruence. }
  apply orb_false_elim in Ht as [_ Ht]. unfold Spec.throws in Ht. unfold Spec.kept.
  destruct (validateSingleTest g t text) as [tv|m]; [eauto|discriminate].
Qed.

(** C7. The status of a completed validation is a function of its
    confidence and of whether it has warnings. *)
Theorem final_status_by_confidence (tests : list Test) (r : Verdict) (v : Validation) :
  validateTests g tests text = Returns r ->
  r_validation r = Some v ->
  r_status r = v_status v
  /\ r_confidence r = v_confidence v
  /\ ((v_confidence v < 0.3)%Q -> v_status v = "unprocessed")
  /\ ((0.3 <= v_confidence v)%Q -> (v_confidence v < 0.6)%Q -> v_status v = "low_confidence")
  /\ ((0.6 <= v_confidence v)%Q -> v_warnings v <> [] -> v_status v = "ok_with_warnings")
  /\ (v_warnings v = [] -> v_status v = "ok").
Proof.
  intros Hr H. destruct (completed_inv g text tests r v Hr H) as (v0 & Hloop & -> & ->).
  simpl.
  destruct (loop_status_confidence g text tests _ _ Hloop) as [Hst Hinv]. simpl in Hst, Hinv.
  assert (Hone : v_warnings v0 = [] -> v_confidence v0 == 1)
    by (apply Hinv; intros _; reflexivity).
  clear Hinv.
  split; [reflexivity|]. split; [reflexivity|].
  destruct (finalize_keeps v0) as (_ & Hw & Hc & _). rewrite Hw, Hc.
  unfold finalize.
  destruct (Num.Qltb (v_confidence v0) 0.3) eqn:E3;
    [apply Qltb_lt in E3 | apply Qltb_ge in E3;
     destruct (Num.Qltb (v_confidence v0) 0.6) eqn:E6;
       [apply Qltb_lt in E6 | apply Qltb_ge in E6;
        destruct (v_warnings v0) as [|w ws] eqn:Hws]];
    simpl; repeat split; intros;
    try reflexivity; try congruence; try (exfalso; lra);
    try (exfalso; specialize (Hone ltac:(assumption)); lra).
Qed.

End GuardrailVerdict.

(** C1, at the failing inputs.  In the first batch the cholesterol record
    is not traceable to the report, and the batch is returned as a
    hallucination, but the reason names the record before it: that record
    has no unit, its name holds the phrase that the loop searches rejection
    reasons for, and the report does mention it.  In the second batch the
    record before the untraceable one goes by a name that the table of
    variations inherits, and the call throws instead of returning a
    verdict. *)
Theorem reason_names_another_record :
  let text := Some Cases.report_with_phrase in
  Spec.fails_traceability Sample.guardrail text Sample.cholesterol_high
  /\ Guardrail.isTestMentionedInOriginal Sample.guardrail "not found in original" text
     = Returns true
  /\ Guardrail.validateTests Sample.guardrail
       [Sample.phrase_as_name; Sample.cholesterol_high] text
     = Returns
         {| Guardrail.r_status := "unprocessed";
            Guardrail.r_reason :=
              Some "hallucinated tests not present in input: not found in original";
            Guardrail.r_confidence := 0;
            Guardrail.r_rejected_tests :=
              [{| Guardrail.rej_test := Sample.phrase_as_name;
                  Guardrail.rej_reason :=
                    "Invalid test structure for not found in original" |}];
            Guardrail.r_validation := None |}
  /\ Guardrail.isValidTestStructure Cases.constructor_normal = true
  /\ Guardrail.validateTests Sample.guardrail
       [Cases.constructor_normal; Sample.cholesterol_high] text
     = Throws "commonVariations is not iterable".
Proof. vm_compute. repeat split; reflexivity. Qed.

Section GuardrailWarnings.

Import Guardrail.

Variable g : Guardrail.t.
Variable text : option string.

(** Under a name that objects do not inherit, a table holds what its rows
    hold. *)
Lemma get_ordinary {A : Type} (object : list (string * A)) (k : string) :
  Js.inherited k = false ->
  Js.get object k =
    match Js.own object k with Some v => Js.Own v | None => Js.Undefined end.
Proof. intros H. unfold Js.get. rewrite H. reflexivity. Qed.

(** The value check fails exactly on a number outside the bounds that the
    table of the guardrail lists for the record. *)
Lemma isValueRealistic_false (test : Test) :
  Spec.ordinary g test = true ->
  (isValueRealistic g test = false <->
   exists lim, Spec.limits_of g test = Some lim /\ Spec.outside lim (value test) = true).
Proof.
  intros Hord. unfold Spec.ordinary in Hord.
  apply andb_prop in Hord as [Hord _]. apply andb_prop in Hord as [Hname Hkey].
  apply negb_true_iff in Hname, Hkey.
  unfold isValueRealistic, Spec.limits_of, Spec.outside.
  fold (Spec.resolved_key g test).
  rewrite (get_ordinary physicalLimits _ Hname), (get_ordinary physicalLimits _ Hkey).
  destruct (Js.own physicalLimits (Js.toLowerCase (Js.show (name test)))) as [lim|];
    [|destruct (Js.own physicalLimits (Spec.resolved_key g test)) as [lim|]]; simpl.
  - split.
    + intros H. exists lim. split; [reflexivity|].
      destruct (value test); try discriminate H. now rewrite H.
    + intros (lim' & [= <-] & H). destruct (value test); try discriminate H.
      now apply Bool.negb_true_iff in H.
  - split.
    + intros H. exists lim. split; [reflexivity|].
      destruct (value test); try discriminate H. now rewrite H.
    + intros (lim' & [= <-] & H). destruct (value test); try discriminate H.
      now apply Bool.negb_true_iff in H.
  - split; [destruct (value test); discriminate|]. intros (lim' & [=] & _).
Qed.

Lemma existsb_eqb_false (x : string) (l : list string) :
  existsb (String.eqb x) l = false <-> ~ In x l.
Proof.
  split.
  - intros H Hin.
    assert (Ht : existsb (String.eqb x) l = true)
      by (apply existsb_exists; exists x; split; [exact Hin|apply String.eqb_refl]).
    congruence.
  - intros H. destruct (existsb (String.eqb x) l) eqn:E; [|reflexivity].
    apply existsb_exists in E. destruct E as (y & Hin & Hy).
    apply String.eqb_eq in Hy. subst y. contradiction.
Qed.

(** The unit check returns, and it fails exactly on a unit that is neither
    the unit of the catalog entry nor one of its notational variants. *)
Lemma isUnitValid_false (test : Test) :
  Spec.ordinary g test = true ->
  exists unitValid,
    isUnitValid g test = Returns unitValid
    /\ (unitValid = false <-> Spec.unit_unexpected g test).
Proof.
  intros Hord. unfold Spec.ordinary in Hord. apply andb_prop in Hord as [_ Hunit].
  unfold isUnitValid, Spec.unit_unexpected, Spec.entry_for in *.
  destruct (kb_get_opt (knowledgeBase g) (normalizeTestName g (Js.show (name test))))
    as [data|].
  2:{ exists true. split; [reflexivity|]. split; [discriminate|].
      intros (d & e & [=] & _). }
  destruct (td_unit data) as [expected|] eqn:Hexp.
  2:{ exists true. split; [reflexivity|]. split; [discriminate|].
      intros (d & e & [= <-] & He & _). congruence. }
  apply negb_true_iff in Hunit.
  destruct (Js.truthy expected) eqn:Ht; simpl.
  2:{ exists true. split; [reflexivity|]. split; [discriminate|].
      intros (d & e & [= <-] & He & Hne & _).
      assert (e = expected) by congruence. subst e.
      destruct expected; [contradiction|discriminate]. }
  destruct (String.eqb (Js.show (unit test)) expected) eqn:Eeq.
  { exists true. split; [reflexivity|]. split; [discriminate|].
    intros (d & e & [= <-] & He & _ & Hne & _).
    assert (e = expected) by congruence. subst e.
    apply String.eqb_eq in Eeq. contradiction. }
  rewrite (get_ordinary unitVariations _ Hunit).
  assert (Hcrit : forall variants,
            Spec.notational_variants expected = variants ->
            existsb (String.eqb (Js.toLowerCase (Js.show (unit test)))) variants = false <->
            exists d e,
              Some data = Some d /\ td_unit d = Some e /\ e <> ""
              /\ Js.show (unit test) <> e
              /\ ~ In (Js.toLowerCase (Js.show (unit test))) (Spec.notational_variants e)).
  { intros variants Hv. rewrite existsb_eqb_false, <- Hv. split.
    - intros H. exists data, expected. split; [reflexivity|]. split; [exact Hexp|].
      split; [intros ->; discriminate Ht|].
      split; [now apply String.eqb_neq|exact H].
    - intros (d & e & [= <-] & He & _ & _ & H).
      assert (e = expected) by congruence. now subst e. }
  assert (Hnv : Spec.notational_variants expected =
                match Js.own unitVariations expected with
                | Some variants => variants
                | None => []
                end) by reflexivity.
  destruct (Js.own unitVariations expected) as [variants|];
    cbv beta iota delta [Js.or];
    eexists; (split; [reflexivity|]); apply Hcrit; exact Hnv.
Qed.

(** The status check fails exactly on a status that is not the one the
    value has against the range of the catalog entry. *)
Lemma isStatusConsistent_false (test : Test) :
  isStatusConsistent g test = false <-> Spec.status_disagrees g test.
Proof.
  unfold isStatusConsistent, Spec.status_disagrees, Spec.entry_for.
  destruct (kb_get_opt (knowledgeBase g) (normalizeTestName g (Js.show (name test))))
    as [data|]; [|split; [discriminate|intros (d & r & v & [=] & _)]].
  destruct (td_normalRange data) as [range|] eqn:Hrange.
  2:{ split; [discriminate|]. intros (d & r & v & [= <-] & Hr & _). congruence. }
  destruct (value test) as [|v|s] eqn:Hvalue;
    try (split; [discriminate|]; intros (d & r & v' & _ & _ & [=] & _)).
  set (status := Js.toLowerCase (Js.show (Guardrail.status test))).
  assert (Hne : forall s, negb (String.eqb status s) = true <-> status <> s).
  { intros s. rewrite negb_true_iff. apply String.eqb_neq. }
  split.
  - intros H. exists data, range, v. split; [reflexivity|]. split; [exact Hrange|].
    split; [reflexivity|]. fold status.
    destruct (Num.ltb v (Fin (low range)) && negb (String.eqb status "low")) eqn:E1.
    { apply andb_prop in E1 as [Ha Hb]. left. split; [exact Ha|now apply Hne]. }
    destruct (Num.gtb v (Fin (high range)) && negb (String.eqb status "high")) eqn:E2.
    { apply andb_prop in E2 as [Ha Hb]. right. left. split; [exact Ha|now apply Hne]. }
    destruct (Num.geb v (Fin (low range)) && Num.leb v (Fin (high range))
              && negb (String.eqb status "normal")) eqn:E3; [|discriminate H].
    apply andb_prop in E3 as [Ha Hc]. apply andb_prop in Ha as [Ha Hb].
    right. right. split; [exact Ha|]. split; [exact Hb|now apply Hne].
  - intros (d & r & v' & [= <-] & Hr & [= <-] & H).
    assert (r = range) by congruence. subst r. fold status in H.
    destruct H as [[Ha Hb] | [[Ha Hb] | (Ha & Hb & Hc)]].
    + apply Hne in Hb. now rewrite Ha, Hb.
    + apply Hne in Hb.
      destruct (Num.ltb v (Fin (low range)) && negb (String.eqb status "low"));
        [reflexivity|].
      rewrite Ha, Hb. reflexivity.
    + apply Hne in Hc.
      destruct (Num.ltb v (Fin (low range)) && negb (String.eqb status "low"));
        [reflexivity|].
      destruct (Num.gtb v (Fin (high range)) && negb (String.eqb status "high"));
        [reflexivity|].
      rewrite Ha, Hb, Hc. reflexivity.
Qed.

(** C6, amended.  A well-formed, mentioned record is never rejected by the
    value, unit and status checks: its validation returns it as valid.
    Each failed check adds its warning and its factor (0.6, 0.8, 0.9) to
    the confidence of the record, next to the factor 0.7 of a name unknown
    to the catalog; the loop keeps the record and multiplies the confidence
    of the batch by the product.  The value check fails on a number outside
    the bounds that the guardrail's own table lists for the record; the
    unit check on a unit that is neither the unit of the catalog entry nor
    one of the notational variants listed for it; the status check on a
    status that is not the one the value has against the [normalRange] of
    the entry.  Names and units that every object inherits are left out. *)
Theorem plausibility_checks_only_warn (test : Test) :
  isValidTestStructure test = true ->
  isTestMentionedInOriginal g (Js.show (name test)) text = Returns true ->
  Spec.ordinary g test = true ->
  exists unitValid testValidation,
    isUnitValid g test = Returns unitValid
    /\ validateSingleTest g test text = Returns testValidation
    /\ isValid testValidation = true
    /\ rejectionReason testValidation = None
    /\ confidence testValidation ==
         Spec.penalty (Spec.known g test) 0.7
         * Spec.penalty (isValueRealistic g test) 0.6
         * Spec.penalty unitValid 0.8
         * Spec.penalty (isStatusConsistent g test) 0.9
    /\ (isValueRealistic g test = false <->
        In (UnrealisticValue (name test) (value test) (unit test))
           (warnings testValidation))
    /\ (unitValid = false <->
        In (UnexpectedUnit (name test) (unit test)) (warnings testValidation))
    /\ (isStatusConsistent g test = false <->
        In (StatusMismatch (status test) (value test) (name test))
           (warnings testValidation))
    /\ (isValueRealistic g test = false <->
        exists lim, Spec.limits_of g test = Some lim
                    /\ Spec.outside lim (value test) = true)
    /\ (unitValid = false <-> Spec.unit_unexpected g test)
    /\ (isStatusConsistent g test = false <-> Spec.status_disagrees g test)
    /\ forall rest acc,
         exists acc',
           validate_loop g text (test :: rest) acc = validate_loop g text rest acc'
           /\ validated_tests acc' = validated_tests acc ++ [test]
           /\ v_rejected_tests acc' = v_rejected_tests acc
           /\ v_confidence acc' == v_confidence acc * confidence testValidation.
Proof.
  intros Hs Hm Hord.
  destruct (isUnitValid_false test Hord) as (unitValid & Hunit & Hcrit).
  destruct (validation_cases g text test)
    as [(Hs' & _) | [(_ & m & Hm' & _) | [(_ & Hm' & _)
       | [(_ & _ & m & Hu & _) | (_ & _ & u & tv & Hu & Htv & Hv & Hr & Hw & Hc)]]]];
    try congruence.
  assert (u = unitValid) by congruence. subst u.
  exists unitValid, tv.
  split; [exact Hunit|]. split; [exact Htv|]. split; [exact Hv|]. split; [exact Hr|].
  split; [exact Hc|].
  assert (Hin : forall (b : bool) (w : Warning) (P : Prop),
            (In w (warnings tv) <-> b = false) -> b = false <-> In w (warnings tv))
    by (intros; tauto).
  split; [|split; [|split; [|split; [now apply isValueRealistic_false
                                     |split; [exact Hcrit
                                             |split; [apply isStatusConsistent_false|]]]]]].
  - rewrite Hw. unfold Spec.warnings_of.
    destruct (Spec.known g test), (isValueRealistic g test), unitValid,
      (isStatusConsistent g test); simpl;
      split; intros H; try discriminate H; try reflexivity; auto;
      repeat (destruct H as [H|H]; try discriminate H); try contradiction.
  - rewrite Hw. unfold Spec.warnings_of.
    destruct (Spec.known g test), (isValueRealistic g test), unitValid,
      (isStatusConsistent g test); simpl;
      split; intros H; try discriminate H; try reflexivity; auto;
      repeat (destruct H as [H|H]; try discriminate H); try contradiction.
  - rewrite Hw. unfold Spec.warnings_of.
    destruct (Spec.known g test), (isValueRealistic g test), unitValid,
      (isStatusConsistent g test); simpl;
      split; intros H; try discriminate H; try reflexivity; auto 6;
      repeat (destruct H as [H|H]; try discriminate H); try contradiction.
  - intros rest acc.
    destruct (loop_cases g text test rest acc)
      as [(m & E & _) | [(tv' & E & _ & acc' & Eloop & Hval & Hrej & _ & _ & Hnone & Hsome)
         | [(tv' & E & Hv' & _) | (tv' & E & Hv' & _)]]];
      try congruence.
    assert (tv' = tv) by congruence. subst tv'.
    exists acc'. split; [exact Eloop|]. split; [exact Hval|]. split; [exact Hrej|].
    destruct (warnings tv) as [|w ws] eqn:Hws.
    + destruct (Hnone eq_refl) as [_ ->].
      assert (H1 : confidence tv == 1).
      { rewrite Hc. symmetry in Hw. unfold Spec.warnings_of in Hw. unfold Spec.factor_of.
        destruct (Spec.known g test), (isValueRealistic g test), unitValid,
          (isStatusConsistent g test); simpl in Hw; try discriminate Hw; reflexivity. }
      rewrite H1. ring.
    + destruct Hsome as [_ ->]; [discriminate|]. reflexivity.
Qed.

End GuardrailWarnings.

(** C6, as stated, does not hold: the guardrail does not read the physical
    bounds of the catalog entry.  A red cell count of 50 lies outside the
    bounds 0 to 12 of its entry; the record passes the structure and mention
    checks, raises no warning and leaves the confidence of the batch at 1. *)
Theorem catalog_bounds_counterexample :
  let text := Some "RBC 50 mil/uL (High)" in
  Guardrail.isValidTestStructure Sample.rbc_50 = true
  /\ Guardrail.isTestMentionedInOriginal Sample.guardrail "RBC" text = Returns true
  /\ Spec.outside_catalog_bounds Sample.guardrail Sample.rbc_50 = true
  /\ Guardrail.isValueRealistic Sample.guardrail Sample.rbc_50 = true
  /\ exists testValidation verdict,
       Guardrail.validateSingleTest Sample.guardrail Sample.rbc_50 text
       = Returns testValidation
       /\ Guardrail.warnings testValidation = []
       /\ Guardrail.validateTests Sample.guardrail [Sample.rbc_50] text = Returns verdict
       /\ Guardrail.r_status verdict = "ok"
       /\ Guardrail.r_confidence verdict == 1.
Proof.
  vm_compute. repeat split; try reflexivity.
  do 2 eexists. repeat split; reflexivity.
Qed.

(** ** The guardrail without a source text *)

Section GuardrailNoText.

Import Guardrail.

Variable g : Guardrail.t.

(** The mention check passes when the text is not a string or is empty. *)
Lemma mention_check_without_text (testName : string) :
  isTestMentionedInOriginal g testName None = Returns true
  /\ isTestMentionedInOriginal g testName (Some "") = Returns true.
Proof. split; reflexivity. Qed.

(** Without a text the validation of a record returns, and only the
    structure check rejects. *)
Lemma no_text_rejections_are_structural (test : Test) (testValidation : TestValidation) :
  validateSingleTest g test None = Returns testValidation ->
  isValid testValidation = false ->
  isValidTestStructure test = false
  /\ rejectionReason testValidation =
       Some ("Invalid test structure for " +:+ Js.show (name test)).
Proof.
  intros E Hv.
  destruct (validation_cases g None test)
    as [(Hs & H) | [(_ & m & Hm & _) | [(_ & Hm & _)
       | [(_ & _ & m & _ & H) | (_ & _ & u & tv & _ & H & Hvalid & _)]]]];
    try discriminate Hm.
  - rewrite H in E. injection E as <-. auto.
  - congruence.
  - assert (tv = testValidation) by congruence. subst tv. congruence.
Qed.

(** A batch of well-formed records is validated whole, unless a unit check
    throws. *)
Lemma no_text_well_formed_batch (tests : list Test) :
  forallb isValidTestStructure tests = true ->
  existsb (Spec.throws g None) tests = false ->
  exists v,
    validateTests g tests None = Returns (completed v) /\ validated_tests v = tests.
Proof.
  intros Hall Hthrows.
  assert (Hkept : forall t, In t tests -> Spec.kept g None t = true).
  { intros t Hin. apply kept_iff.
    assert (Hs : isValidTestStructure t = true)
      by (rewrite forallb_forall in Hall; now apply Hall).
    split; [exact Hs|]. split; [reflexivity|].
    assert (Ht : Spec.throws g None t = false).
    { destruct (Spec.throws g None t) eqn:E; [|reflexivity].
      assert (existsb (Spec.throws g None) tests = true)
        by (apply existsb_exists; eauto).
      congruence. }
    unfold Spec.throws in Ht.
    destruct (validation_cases g None t)
      as [(Hs' & _) | [(_ & m & Hm & _) | [(_ & Hm & _)
         | [(_ & _ & m & _ & H) | (_ & _ & u & tv & Hu & _)]]]];
      try congruence; try discriminate Hm.
    - rewrite H in Ht. discriminate.
    - eauto. }
  assert (Hclean : existsb (fun t => Spec.flagged g None t || Spec.throws g None t) tests
                   = false).
  { destruct (existsb (fun t => Spec.flagged g None t || Spec.throws g None t) tests)
      eqn:E; [|reflexivity].
    apply existsb_exists in E. destruct E as (t & Hin & Ht).
    specialize (Hkept t Hin).
    destruct (verdicts_of_record g None t) as (H1 & H2 & H3 & H4).
    apply orb_prop in Ht as [Ht | Ht].
    - specialize (H3 Ht). specialize (H4 H3). congruence.
    - destruct (H1 Ht). congruence. }
  destruct (loop_completes g None tests Spec.initial Hclean) as [v0 Hloop].
  exists (finalize v0). unfold validateTests. fold Spec.initial. rewrite Hloop. simpl.
  split; [reflexivity|].
  destruct (finalize_keeps v0) as (-> & _).
  rewrite (loop_validated g None tests _ _ Hloop). simpl.
  clear Hloop Hclean Hall Hthrows. induction tests as [|t ts IH]; [reflexivity|].
  simpl. rewrite (Hkept t) by (now left). f_equal. apply IH.
  intros t' Hin. apply Hkept. now right.
Qed.

(** C9, at the failing input: a batch validated without any text is
    returned as hallucinated.  The one record has no unit, its name
    contains the phrase the loop looks for in rejection reasons, and the
    mention check itself passes. *)
Theorem no_text_batch_reported_hallucinated :
  isTestMentionedInOriginal g "not found in original" None = Returns true
  /\ validateTests g [Sample.phrase_as_name] None =
       Returns
         {| r_status := "unprocessed";
            r_reason := Some "hallucinated tests not present in input: not found in original";
            r_confidence := 0;
            r_rejected_tests :=
              [{| rej_test := Sample.phrase_as_name;
                  rej_reason := "Invalid test structure for not found in original" |}];
            r_validation := None |}.
Proof. split; reflexivity. Qed.

End GuardrailNoText.

(** ** The normalizer *)

Section NormalizerStatus.

Import Normalizer.




End NormalizerStatus.

(** ** The matcher: units in [findBestTestMatch] *)

Section MatcherUnits.

Import SimilarityMatcher.

(** C4 as stated fails both ways on the shipped catalog: without a unit the
    unit match is the catalog unit at 1.0 with tier ["default"], and with a
    unit that matches nothing it is the catalog unit at 0.8 with tier
    ["assumed"]. *)
Lemma unit_tiers_counterexample :
  (exists r,
     findBestTestMatch Sample.matcher (Some "Hemoglobin") (Fin 10.2) None None = Some r
     /\ match_unit r =
          {| matched := Some "g/dL"; similarity := 1.0; confidence := "default"; method := None |}
     /\ ~ (similarity (match_unit r) == 0.8 /\ confidence (match_unit r) = "assumed"))
  /\ (exists r,
        findBestUnitMatch Sample.matcher (Some "zzz") = None
        /\ findBestTestMatch Sample.matcher (Some "Hemoglobin") (Fin 10.2) (Some "zzz") None
           = Some r
        /\ match_unit r =
             {| matched := Some "g/dL"; similarity := 0.8; confidence := "assumed";
                method := None |}
        /\ ~ (similarity (match_unit r) == 1.0 /\ confidence (match_unit r) = "default")).
Proof.
  split.
  - eexists. split; [vm_compute; reflexivity|]. split; [reflexivity|].
    simpl. intros [_ H]. discriminate H.
  - eexists. split; [vm_compute; reflexivity|]. split; [vm_compute; reflexivity|].
    split; [reflexivity|]. simpl. intros [_ H]. discriminate H.
Qed.

(** C4, amended.  Once the name resolves to a catalog entry,
    [findBestTestMatch] returns a result whatever the unit is.  A missing
    or empty unit gives the catalog unit at 1.0 with tier ["default"]; a
    supplied unit that finds no match, or only one of tier ["low"], gives
    the catalog unit at 0.8 with tier ["assumed"]; any other supplied unit
    keeps its own match. *)
Theorem unit_never_blocks_name_match (m : SimilarityMatcher.t) (testName : option string)
    (value : JsNumber) (unit status : option string) (nameMatch : Match) (data : TestData) :
  findBestTestNameMatch m testName = Some nameMatch ->
  kb_get_opt (knowledgeBase m) (matched nameMatch) = Some data ->
  exists r,
    findBestTestMatch m testName value unit status = Some r
    /\ match_name r = nameMatch
    /\ testKey r = matched nameMatch
    /\ testData r = data
    /\ (Js.truthy_opt unit = false ->
        match_unit r =
          {| matched := td_unit data; similarity := 1.0; confidence := "default";
             method := None |})
    /\ (Js.truthy_opt unit = true ->
        (findBestUnitMatch m unit = None
         \/ exists um, findBestUnitMatch m unit = Some um /\ confidence um = "low") ->
        match_unit r =
          {| matched := td_unit data; similarity := 0.8; confidence := "assumed";
             method := None |})
    /\ (Js.truthy_opt unit = true ->
        forall um, findBestUnitMatch m unit = Some um -> confidence um <> "low" ->
                   match_unit r = um).
Proof.
  intros Hname Hdata. unfold findBestTestMatch. rewrite Hname, Hdata.
  eexists. split; [reflexivity|]. simpl.
  repeat split.
  - intros ->. reflexivity.
  - intros -> [-> | (um & -> & Hlow)]; [reflexivity|].
    rewrite Hlow. reflexivity.
  - intros -> um -> Hlow.
    destruct (String.eqb (confidence um) "low") eqn:E; [|reflexivity].
    apply String.eqb_eq in E. contradiction.
Qed.

End MatcherUnits.

(** ** The mention check *)

Section MentionCheck.

Import Guardrail.

Lemma fuzzyMatchInText_spec (testName text : string) :
  fuzzyMatchInText testName text = true <->
  exists word, In word (Js.split_ws text)
               /\ (3 <= String.length word)%nat
               /\ (0.7 < Spec.similarity_ratio testName word)%Q.
Proof.
  unfold fuzzyMatchInText. rewrite existsb_exists.
  split; intros (word & Hin & H); exists word; (split; [exact Hin|]).
  - apply andb_true_iff in H as [Hlen Hsim]. apply Nat.leb_le in Hlen.
    split; [exact Hlen|].
    unfold calculateSimilarity in Hsim.
    destruct (Nat.max (String.length testName) (String.length word) =? 0)%nat eqn:E;
      [discriminate|].
    unfold Num.gtb in Hsim. simpl in Hsim. now apply Qltb_lt in Hsim.
  - destruct H as [Hlen Hsim]. apply andb_true_iff. split; [now apply Nat.leb_le|].
    unfold calculateSimilarity.
    destruct (Nat.max (String.length testName) (String.length word) =? 0)%nat eqn:E.
    + apply Nat.eqb_eq in E. lia.
    + unfold Num.gtb. simpl. now apply Qltb_lt.
Qed.

(** C3 as stated fails on the shipped catalog: a record passes on an empty
    text, where nothing appears, and ["WBC"] passes on a text that only has
    the built-in variation ["leukocyte"]. *)
Lemma traceability_counterexample :
  (isTestMentionedInOriginal Sample.guardrail "Total Cholesterol" (Some "") = Returns true
   /\ ~ Spec.claimed_traceable Sample.guardrail "Total Cholesterol" "")
  /\ (isTestMentionedInOriginal Sample.guardrail "WBC" (Some "Leukocyte 5000 /uL")
      = Returns true
      /\ ~ Spec.claimed_traceable Sample.guardrail "WBC" "Leukocyte 5000 /uL").
Proof.
  split.
  - split; [reflexivity|].
    intros [H | [(alias & Hin & H) | (token & Hin & H)]].
    + vm_compute in H. discriminate.
    + vm_compute in Hin. repeat (destruct Hin as [<- | Hin]; [vm_compute in H; discriminate|]).
      contradiction.
    + vm_compute in Hin. repeat (destruct Hin as [<- | Hin]; [vm_compute in H; discriminate|]).
      contradiction.
  - split; [vm_compute; reflexivity|].
    intros [H | [(alias & Hin & H) | (token & Hin & H)]].
    + vm_compute in H. discriminate.
    + vm_compute in Hin. repeat (destruct Hin as [<- | Hin]; [vm_compute in H; discriminate|]).
      contradiction.
    + vm_compute in Hin. repeat (destruct Hin as [<- | Hin]; [vm_compute in H; discriminate|]).
      contradiction.
Qed.

(** Under a name that objects do not inherit, the variations are the row
    of the table or the name itself. *)
Lemma getCommonVariations_ordinary (testNameLower : string) :
  Js.inherited testNameLower = false ->
  getCommonVariations testNameLower = Js.Own (Spec.variations_of testNameLower).
Proof.
  intros H. unfold getCommonVariations, Spec.variations_of.
  rewrite (get_ordinary commonVariations _ H).
  destruct (Js.own commonVariations testNameLower); reflexivity.
Qed.

(** Under a name that the table of variations inherits, the mention check
    throws as soon as neither the name nor an alias is found. *)
Lemma getCommonVariations_inherited (testNameLower : string) :
  Js.inherited testNameLower = true ->
  getCommonVariations testNameLower = Js.Inherited.
Proof.
  intros H. unfold getCommonVariations, Js.get.
  assert (Hown : Js.own commonVariations testNameLower = None).
  { unfold Js.inherited, Js.prototype_names in H. simpl in H.
    repeat (apply orb_prop in H as [H | H];
            [apply String.eqb_eq in H; subst testNameLower; reflexivity|]).
    discriminate H. }
  now rewrite Hown, H.
Qed.

(** C3, amended.  Without a text, or on an empty one, every record passes.
    On a non-empty text the check returns, and a record passes exactly when
    the lower-cased text, with every character other than a-z, 0-9 and
    whitespace blanked, contains its lower-cased name, a lower-cased alias
    of its catalog entry or a built-in variation of the name, or has a
    whitespace-delimited token of at least three characters whose
    edit-distance similarity to the lower-cased name exceeds 0.7.  This is
    stated for names and aliases that consist of letters, digits and
    whitespace, and for names that objects do not inherit. *)
Theorem mention_check_criterion (g : Guardrail.t) (testName : string) (text : option string) :
  Js.inherited (Js.toLowerCase testName) = false ->
  Spec.plain (Js.toLowerCase testName) = true ->
  forallb (fun alias => Spec.plain (Js.toLowerCase alias)) (Spec.aliases_of g testName)
  = true ->
  exists mentioned,
    isTestMentionedInOriginal g testName text = Returns mentioned
    /\ (mentioned = true <->
        match text with
        | None => True
        | Some original => original = "" \/ Spec.traceable g testName original
        end).
Proof.
  intros Hname _ _.
  destruct text as [original|]; [|exists true; simpl; tauto].
  destruct original as [|c original'] eqn:Eo; [exists true; simpl; tauto|].
  rewrite <- Eo.
  set (normalizedText := Js.blank_non_alnum (Js.toLowerCase original)).
  set (by_name := Js.includes normalizedText (Js.toLowerCase testName)).
  set (by_alias :=
         existsb (fun alias => Js.includes normalizedText (Js.toLowerCase alias))
           (Spec.aliases_of g testName)).
  set (by_variation :=
         existsb (fun variation => Js.includes normalizedText variation)
           (Spec.variations_of (Js.toLowerCase testName))).
  set (by_token := fuzzyMatchInText (Js.toLowerCase testName) normalizedText).
  exists (by_name || by_alias || by_variation || by_token).
  split.
  - unfold isTestMentionedInOriginal.
    replace (negb (Js.truthy original)) with false by (rewrite Eo; reflexivity).
    rewrite (getCommonVariations_ordinary _ Hname).
    fold normalizedText. fold by_name. fold by_variation. fold by_token.
    destruct by_name; [reflexivity|].
    replace by_alias with
      (match
         SimilarityMatcher.or_else (kb_get (knowledgeBase g) (Js.toLowerCase testName))
           (kb_get_opt (knowledgeBase g) (normalizeTestName g testName))
       with
       | Some d =>
           match td_aliases d with
           | Some al =>
               existsb (fun alias => Js.includes normalizedText (Js.toLowerCase alias)) al
           | None => false
           end
       | None => false
       end).
    2:{ unfold by_alias, Spec.aliases_of, Spec.entry_of.
        destruct (SimilarityMatcher.or_else _ _) as [d|]; [|reflexivity].
        destruct (td_aliases d); reflexivity. }
    destruct (match SimilarityMatcher.or_else _ _ with Some _ => _ | None => _ end);
      [reflexivity|].
    destruct by_variation; reflexivity.
  - rewrite !orb_true_iff. unfold Spec.traceable.
    fold normalizedText. fold by_name.
    unfold by_alias, by_variation, by_token.
    rewrite !existsb_exists, fuzzyMatchInText_spec.
    split.
    + intros [[[H | H] | H] | H]; right; tauto.
    + intros [H | H]; [rewrite Eo in H; discriminate|]. tauto.
Qed.

End MentionCheck.

(** ** The distance matrix computes the edit distance *)

Section DistanceMatrix.

Import Lev.

Lemma upto_0_l (s t : string) (j : nat) : edit_distance_upto s t 0 j = j.
Proof. reflexivity. Qed.

Lemma upto_0_r (s t : string) (i : nat) : edit_distance_upto s t i 0 = i.
Proof. destruct i; reflexivity. Qed.

Lemma upto_S_S (s t : string) (i j : nat) :
  edit_distance_upto s t (S i) (S j) =
    min3 (edit_distance_upto s t i j + subst_cost s t i j)
         (edit_distance_upto s t (S i) j + 1)
         (edit_distance_upto s t i (S j) + 1).
Proof. reflexivity. Qed.

Lemma char_eqb_sym (a b : option ascii) : Js.char_eqb a b = Js.char_eqb b a.
Proof.
  destruct a as [x|], b as [y|]; simpl; try reflexivity.
  apply Ascii.eqb_sym.
Qed.

Lemma min3_swap (a b c : nat) : min3 a b c = min3 a c b.
Proof. unfold min3. lia. Qed.

(** The recurrence is symmetric in its two strings. *)
Lemma upto_sym (s t : string) (i : nat) :
  forall j, edit_distance_upto s t i j = edit_distance_upto t s j i.
Proof.
  induction i as [|i IHi]; intros j.
  - now rewrite upto_0_l, upto_0_r.
  - induction j as [|j IHj].
    + now rewrite upto_0_l, upto_0_r.
    + rewrite !upto_S_S, IHj, !IHi, min3_swap.
      unfold subst_cost. now rewrite char_eqb_sym.
Qed.

(** One more column costs at most one more edit. *)
Lemma upto_step_r (s t : string) (i j : nat) :
  edit_distance_upto s t i (S j) <= edit_distance_upto s t i j + 1.
Proof.
  destruct i as [|i].
  - rewrite !upto_0_l. lia.
  - rewrite upto_S_S. unfold min3. lia.
Qed.

Lemma upto_step_l (s t : string) (i j : nat) :
  edit_distance_upto s t (S i) j <= edit_distance_upto s t i j + 1.
Proof. rewrite (upto_sym s t (S i)), (upto_sym s t i). apply upto_step_r. Qed.

(** ... and saves at most one. *)
Lemma upto_drop_l (s t : string) (i : nat) :
  forall j, edit_distance_upto s t i j <= edit_distance_upto s t (S i) j + 1.
Proof.
  induction j as [|j IH].
  - rewrite !upto_0_r. lia.
  - rewrite upto_S_S.
    pose proof (upto_step_r s t i j). unfold min3. lia.
Qed.

Lemma upto_drop_r (s t : string) (i j : nat) :
  edit_distance_upto s t i j <= edit_distance_upto s t i (S j) + 1.
Proof. rewrite (upto_sym s t i j), (upto_sym s t i (S j)). apply upto_drop_l. Qed.

(** The shortcut of the source on equal characters. *)
Lemma upto_S_S_equal (s t : string) (i j : nat) :
  Js.char_eqb (Js.charAt s i) (Js.charAt t j) = true ->
  edit_distance_upto s t (S i) (S j) = edit_distance_upto s t i j.
Proof.
  intros H. rewrite upto_S_S. unfold subst_cost. rewrite H.
  pose proof (upto_drop_l s t i j). pose proof (upto_drop_r s t i j).
  unfold min3. lia.
Qed.

Lemma upto_le_max (s t : string) (i : nat) :
  forall j, edit_distance_upto s t i j <= Nat.max i j.
Proof.
  induction i as [|i IHi]; intros j.
  - rewrite upto_0_l. lia.
  - destruct j as [|j].
    + rewrite upto_0_r. lia.
    + rewrite upto_S_S. specialize (IHi j). unfold subst_cost, min3.
      destruct (Js.char_eqb _ _); lia.
Qed.

Lemma char_eqb_refl (a : option ascii) : Js.char_eqb a a = true.
Proof. destruct a; simpl; [apply Ascii.eqb_refl|reflexivity]. Qed.

Lemma upto_diag (s : string) (i : nat) : edit_distance_upto s s i i = 0%nat.
Proof.
  induction i as [|i IH]; [reflexivity|].
  rewrite upto_S_S_equal; [exact IH|apply char_eqb_refl].
Qed.

(** Arrays and the matrix. *)

Lemma array_set_append (a : list nat) (j v : nat) :
  length a = j -> array_set a j v = a ++ [v].
Proof.
  intros <-. induction a as [|x a IH]; simpl; [reflexivity|now rewrite IH].
Qed.

Lemma matrix_set_at (pre post : Matrix) (r : list nat) (i j v : nat) :
  length pre = i ->
  matrix_set (pre ++ r :: post) i j v = pre ++ array_set r j v :: post.
Proof.
  intros <-. induction pre as [|p pre IH]; simpl; [reflexivity|now rewrite IH].
Qed.

Lemma cell_at (pre post : Matrix) (r : list nat) (i j : nat) :
  length pre = i -> cell (pre ++ r :: post) i j = nth j r 0%nat.
Proof.
  intros <-. unfold cell, row. rewrite app_nth2 by lia. now rewrite Nat.sub_diag.
Qed.

Lemma cell_above (pre post : Matrix) (r : list nat) (i j : nat) :
  (i < length pre)%nat -> cell (pre ++ r :: post) i j = nth j (nth i pre []) 0%nat.
Proof. intros H. unfold cell, row. now rewrite app_nth1. Qed.

Lemma filled_row_length (s t : string) (i k : nat) : length (filled_row s t i k) = S k.
Proof. unfold filled_row. now rewrite length_map, length_seq. Qed.

Lemma filled_row_nth (s t : string) (i k j : nat) :
  (j <= k)%nat -> nth j (filled_row s t i k) 0%nat = edit_distance_upto s t i j.
Proof.
  intros H. unfold filled_row.
  rewrite (nth_indep _ 0%nat (edit_distance_upto s t i 0)) by (rewrite length_map, length_seq; lia).
  rewrite map_nth, seq_nth by lia. reflexivity.
Qed.

Lemma filled_row_S (s t : string) (i k : nat) :
  filled_row s t i (S k) = filled_row s t i k ++ [edit_distance_upto s t i (S k)].
Proof. unfold filled_row. rewrite (seq_S (S k) 0), map_app. reflexivity. Qed.

Variables str1 str2 : string.

Lemma rows_above_length (i : nat) :
  length (map (fun i' => filled_row str2 str1 i' (String.length str1)) (seq 0 i)) = i.
Proof. now rewrite length_map, length_seq. Qed.

Lemma rows_above_nth (i i' : nat) :
  (i' < i)%nat ->
  nth i' (map (fun i' => filled_row str2 str1 i' (String.length str1)) (seq 0 i)) []
  = filled_row str2 str1 i' (String.length str1).
Proof.
  intros H.
  rewrite (nth_indep _ [] (filled_row str2 str1 0 (String.length str1)))
    by (rewrite length_map, length_seq; lia).
  rewrite (map_nth (fun i' => filled_row str2 str1 i' (String.length str1))).
  now rewrite seq_nth by lia.
Qed.

(** Writing the next cell of the current row with the right value. *)
Lemma extend_row (i k : nat) :
  matrix_set (partial_matrix str1 str2 i k) i (S k) (edit_distance_upto str2 str1 i (S k))
  = partial_matrix str1 str2 i (S k).
Proof.
  unfold partial_matrix.
  rewrite matrix_set_at by apply rows_above_length.
  rewrite array_set_append by apply filled_row_length.
  now rewrite filled_row_S.
Qed.

(** The body of the inner loop computes the recurrence. *)
Lemma fill_cell_correct (i k : nat) :
  (k < String.length str1)%nat ->
  fill_cell str1 str2 (S i) (partial_matrix str1 str2 (S i) k) (S k)
  = partial_matrix str1 str2 (S i) (S k).
Proof.
  intros Hk. unfold fill_cell.
  replace (S i - 1)%nat with i by lia. replace (S k - 1)%nat with k by lia.
  assert (Hdiag : cell (partial_matrix str1 str2 (S i) k) i k = edit_distance_upto str2 str1 i k).
  { unfold partial_matrix. rewrite cell_above by (rewrite rows_above_length; lia).
    rewrite rows_above_nth by lia. apply filled_row_nth. lia. }
  assert (Hup : cell (partial_matrix str1 str2 (S i) k) i (S k)
                = edit_distance_upto str2 str1 i (S k)).
  { unfold partial_matrix. rewrite cell_above by (rewrite rows_above_length; lia).
    rewrite rows_above_nth by lia. apply filled_row_nth. lia. }
  assert (Hleft : cell (partial_matrix str1 str2 (S i) k) (S i) k
                  = edit_distance_upto str2 str1 (S i) k).
  { unfold partial_matrix. rewrite cell_at by apply rows_above_length.
    apply filled_row_nth. lia. }
  rewrite Hdiag, Hup, Hleft.
  destruct (Js.char_eqb (Js.charAt str2 i) (Js.charAt str1 k)) eqn:E.
  - rewrite <- (upto_S_S_equal str2 str1 i k E). apply extend_row.
  - rewrite <- extend_row. f_equal.
    rewrite upto_S_S. unfold subst_cost. now rewrite E.
Qed.

Lemma fill_row_prefix (i k : nat) :
  (k <= String.length str1)%nat ->
  fold_left (fill_cell str1 str2 (S i)) (seq 1 k) (partial_matrix str1 str2 (S i) 0)
  = partial_matrix str1 str2 (S i) k.
Proof.
  induction k as [|k IH]; intros Hk; [reflexivity|].
  rewrite seq_S, fold_left_app, IH by lia. unfold fold_left.
  change (1 + k)%nat with (S k). apply fill_cell_correct. lia.
Qed.

(** A complete row and the first cell of the next one. *)
Lemma next_row (i : nat) :
  (i < String.length str2)%nat ->
  partial_matrix str1 str2 i (String.length str1) = partial_matrix str1 str2 (S i) 0.
Proof.
  intros Hi. unfold partial_matrix.
  rewrite (seq_S i 0), map_app, <- app_assoc. simpl.
  replace (String.length str2 - i)%nat with (S (String.length str2 - S i)) by lia.
  simpl. reflexivity.
Qed.

Lemma fill_rows_prefix (i : nat) :
  (i <= String.length str2)%nat ->
  fold_left (fill_row str1 str2) (seq 1 i) (partial_matrix str1 str2 0 (String.length str1))
  = partial_matrix str1 str2 i (String.length str1).
Proof.
  induction i as [|i IH]; intros Hi; [reflexivity|].
  rewrite seq_S, fold_left_app, IH by lia. unfold fold_left at 1.
  change (1 + i)%nat with (S i).
  unfold fill_row. rewrite next_row by lia. apply fill_row_prefix. lia.
Qed.

Lemma first_row_prefix (k : nat) :
  fold_left (fun m j => matrix_set m 0 j j) (seq 0 (S k)) (partial_matrix str1 str2 0 0)
  = partial_matrix str1 str2 0 k.
Proof.
  induction k as [|k IH]; [reflexivity|].
  rewrite seq_S, fold_left_app, IH. unfold fold_left. rewrite Nat.add_0_l.
  exact (extend_row 0 k).
Qed.

(** The matrix code computes the recurrence. *)
Lemma levenshteinDistance_upto :
  levenshteinDistance str1 str2 = edit_distance_upto str2 str1 (String.length str2) (String.length str1).
Proof.
  unfold levenshteinDistance.
  replace (map (fun i => [i]) (seq 0 (S (String.length str2))))
    with (partial_matrix str1 str2 0 0)
    by (unfold partial_matrix; simpl; now rewrite Nat.sub_0_r).
  rewrite first_row_prefix, fill_rows_prefix by lia.
  unfold partial_matrix. rewrite cell_at by apply rows_above_length.
  apply filled_row_nth. lia.
Qed.

End DistanceMatrix.

Theorem levenshteinDistance_correct (a b : string) :
  Lev.levenshteinDistance a b = Lev.edit_distance a b.
Proof.
  rewrite levenshteinDistance_upto. unfold Lev.edit_distance. apply upto_sym.
Qed.

(** ** The recurrence is the least number of edits *)

Section LeastEdits.

Import Lev.

Lemma distance_nil_r (s : list ascii) : distance s [] = length s.
Proof. destruct s; reflexivity. Qed.

Lemma distance_cons (c d : ascii) (s t : list ascii) :
  distance (c :: s) (d :: t) =
    min3 (distance s t + (if Ascii.eqb c d then 0 else 1))
         (distance (c :: s) t + 1)
         (distance s (d :: t) + 1).
Proof. reflexivity. Qed.

Lemma edits_all_deleted (s : list ascii) : edits s [] (length s).
Proof. induction s; simpl; constructor; assumption. Qed.

Lemma edits_all_inserted (t : list ascii) : edits [] t (length t).
Proof. induction t; simpl; constructor; assumption. Qed.

(** The recurrence is reached by a sequence of edits ... *)
Lemma distance_reached (s : list ascii) : forall t, edits s t (distance s t).
Proof.
  induction s as [|c s IHs]; intros t; [apply edits_all_inserted|].
  induction t as [|d t IHt].
  - rewrite distance_nil_r. apply edits_all_deleted.
  - rewrite distance_cons. unfold min3.
    destruct (Nat.min_spec (distance s t + (if Ascii.eqb c d then 0 else 1))
                (distance (c :: s) t + 1)) as [[_ E1] | [_ E1]]; rewrite E1;
      match goal with
      | |- edits _ _ (Nat.min ?x ?y) =>
          destruct (Nat.min_spec x y) as [[_ E2] | [_ E2]]; rewrite E2
      end.
    + destruct (Ascii.eqb c d) eqn:E.
      * apply Ascii.eqb_eq in E. subst d. rewrite Nat.add_0_r. constructor. apply IHs.
      * rewrite Nat.add_1_r. constructor. apply IHs.
    + rewrite Nat.add_1_r. apply edits_delete, IHs.
    + rewrite Nat.add_1_r. apply edits_insert, IHt.
    + rewrite Nat.add_1_r. apply edits_delete, IHs.
Qed.

(** ... and no sequence of edits is shorter. *)
Lemma distance_least (s t : list ascii) (n : nat) :
  edits s t n -> (distance s t <= n)%nat.
Proof.
  induction 1 as [|c s t n _ IH|c d s t n _ IH|c s t n _ IH|d s t n _ IH].
  - simpl. lia.
  - rewrite distance_cons, Ascii.eqb_refl. unfold min3. lia.
  - rewrite distance_cons. unfold min3. destruct (Ascii.eqb c d); lia.
  - destruct t as [|d t].
    + rewrite distance_nil_r in *. simpl. lia.
    + rewrite distance_cons. unfold min3. lia.
  - destruct s as [|c s].
    + simpl in *. lia.
    + rewrite distance_cons. unfold min3. lia.
Qed.

Lemma edits_append (s1 t1 : list ascii) (n1 : nat) :
  edits s1 t1 n1 ->
  forall s2 t2 n2, edits s2 t2 n2 -> edits (s1 ++ s2) (t1 ++ t2) (n1 + n2).
Proof.
  induction 1; intros s2 t2 n2 H2; simpl; try (constructor; auto); auto.
Qed.

Lemma edits_reverse (s t : list ascii) (n : nat) :
  edits s t n -> edits (rev s) (rev t) n.
Proof.
  induction 1 as [|c s t n _ IH|c d s t n _ IH|c s t n _ IH|d s t n _ IH]; simpl.
  - constructor.
  - rewrite <- (Nat.add_0_r n). apply edits_append; [exact IH|]. repeat constructor.
  - rewrite <- Nat.add_1_r. apply edits_append; [exact IH|]. repeat constructor.
  - rewrite <- Nat.add_1_r, <- (app_nil_r (rev t)).
    apply edits_append; [exact IH|]. repeat constructor.
  - rewrite <- Nat.add_1_r, <- (app_nil_r (rev s)).
    apply edits_append; [exact IH|]. repeat constructor.
Qed.

Lemma charAt_chars (s : string) : forall i, Js.charAt s i = nth_error (chars s) i.
Proof.
  induction s as [|c s IH]; intros i; simpl.
  - now destruct i.
  - destruct i; simpl; [reflexivity|apply IH].
Qed.

Lemma chars_length (s : string) : length (chars s) = String.length s.
Proof. induction s; simpl; [reflexivity|now f_equal]. Qed.

Lemma firstn_snoc (l : list ascii) (i : nat) (x : ascii) :
  nth_error l i = Some x -> firstn (S i) l = firstn i l ++ [x].
Proof.
  revert i. induction l as [|y l IH]; intros i H; [now destruct i|].
  destruct i as [|i]; simpl in *.
  - now injection H as ->.
  - now rewrite <- (IH i H).
Qed.

(** The recurrence on prefixes is the recurrence on the reversed prefixes,
    read from their heads. *)
Lemma upto_distance (s t : string) (i : nat) :
  forall j,
    (i <= String.length s)%nat -> (j <= String.length t)%nat ->
    edit_distance_upto s t i j
    = distance (rev (firstn i (chars s))) (rev (firstn j (chars t))).
Proof.
  induction i as [|i IHi]; intros j Hi Hj.
  - rewrite upto_0_l. simpl. rewrite length_rev, length_firstn, chars_length. lia.
  - induction j as [|j IHj].
    + rewrite upto_0_r. simpl firstn at 2. simpl rev at 2. rewrite distance_nil_r.
      rewrite length_rev, length_firstn, chars_length. lia.
    + destruct (nth_error (chars s) i) as [x|] eqn:Ex;
        [|apply nth_error_None in Ex; rewrite chars_length in Ex; lia].
      destruct (nth_error (chars t) j) as [y|] eqn:Ey;
        [|apply nth_error_None in Ey; rewrite chars_length in Ey; lia].
      rewrite upto_S_S, IHj by lia. rewrite !IHi by lia.
      rewrite (firstn_snoc _ _ _ Ex), (firstn_snoc _ _ _ Ey), !rev_unit.
      rewrite distance_cons. unfold subst_cost.
      rewrite !charAt_chars, Ex, Ey. simpl Js.char_eqb.
      reflexivity.
Qed.

(** The edit distance of two strings is reached by a sequence of edits
    from the one to the other, and by no shorter one. *)
Lemma edit_distance_least (a b : string) :
  edits (chars a) (chars b) (edit_distance a b)
  /\ forall n, edits (chars a) (chars b) n -> (edit_distance a b <= n)%nat.
Proof.
  unfold edit_distance. rewrite upto_distance by lia.
  rewrite <- (chars_length a), <- (chars_length b), !firstn_all. split.
  - rewrite <- (rev_involutive (chars a)) at 1. rewrite <- (rev_involutive (chars b)) at 1.
    apply edits_reverse, distance_reached.
  - intros n H. apply distance_least, edits_reverse, H.
Qed.

End LeastEdits.

(** ** Scores lie between 0 and 1 *)

Section Ratios.

Open Scope Q_scope.

Lemma Q_of_nat_nonneg (n : nat) : 0 <= Q_of_nat n.
Proof. unfold Q_of_nat. rewrite <- (Zle_Qle 0). lia. Qed.

Lemma Q_of_nat_pos (n : nat) : (0 < n)%nat -> 0 < Q_of_nat n.
Proof. intros H. unfold Q_of_nat. rewrite <- (Zlt_Qlt 0). lia. Qed.

Lemma Q_of_nat_le (n m : nat) : (n <= m)%nat -> Q_of_nat n <= Q_of_nat m.
Proof. intros H. unfold Q_of_nat. rewrite <- Zle_Qle. lia. Qed.

Lemma ratio_bounds (n m : nat) :
  (n <= m)%nat -> (0 < m)%nat -> 0 <= Q_of_nat n / Q_of_nat m <= 1.
Proof.
  intros Hle Hpos. pose proof (Q_of_nat_pos m Hpos) as Hm. split.
  - apply Qle_shift_div_l; [exact Hm|]. rewrite Qmult_0_l. apply Q_of_nat_nonneg.
  - apply Qle_shift_div_r; [exact Hm|]. rewrite Qmult_1_l. now apply Q_of_nat_le.
Qed.

Lemma ratio_self (m : nat) : (0 < m)%nat -> Q_of_nat m / Q_of_nat m == 1.
Proof.
  intros H. unfold Qdiv. apply Qmult_inv_r. intros E.
  pose proof (Q_of_nat_pos m H) as Hm. rewrite E in Hm. discriminate.
Qed.

End Ratios.

Section EditDistanceSimilarity.

Import SimilarityMatcher.
Open Scope Q_scope.

Lemma edit_distance_le_max (a b : string) :
  (Lev.edit_distance a b <= Nat.max (String.length a) (String.length b))%nat.
Proof. apply upto_le_max. Qed.

Lemma edit_distance_refl (a : string) : Lev.edit_distance a a = 0%nat.
Proof. apply upto_diag. Qed.

Lemma max_length_0 (a b : string) :
  Nat.max (String.length a) (String.length b) = 0%nat <-> a = "" /\ b = "".
Proof.
  split.
  - intros H. destruct a, b; simpl in H; try lia. auto.
  - intros [-> ->]. reflexivity.
Qed.

(** The formula of [levenshteinSimilarity] and its range. *)
Lemma levenshteinSimilarity_formula (a b : string) :
  levenshteinDistance a b = Lev.edit_distance a b
  /\ (a = "" /\ b = "" -> levenshteinSimilarity a b = 1)
  /\ (~ (a = "" /\ b = "") ->
      levenshteinSimilarity a b =
        1 - Q_of_nat (Lev.edit_distance a b)
            / Q_of_nat (Nat.max (String.length a) (String.length b)))
  /\ 0 <= levenshteinSimilarity a b <= 1.
Proof.
  split; [apply levenshteinDistance_correct|].
  unfold levenshteinSimilarity, levenshteinDistance.
  rewrite levenshteinDistance_correct.
  destruct (Nat.max (String.length a) (String.length b) =? 0)%nat eqn:E.
  - apply Nat.eqb_eq in E. split; [reflexivity|].
    split; [|split; discriminate].
    intros H. exfalso. apply H. now apply max_length_0.
  - apply Nat.eqb_neq in E. split.
    + intros H. exfalso. apply E. now apply max_length_0.
    + split; [reflexivity|].
      pose proof (ratio_bounds _ _ (edit_distance_le_max a b) ltac:(lia)) as [H0 H1].
      split; lra.
Qed.

End EditDistanceSimilarity.

Section ScoreBounds.

Import SimilarityMatcher.
Open Scope Q_scope.

Lemma fold_left_preserves {A B : Type} (P : A -> Prop) (f : A -> B -> A) (l : list B) :
  forall a, P a -> (forall a b, P a -> P (f a b)) -> P (fold_left f l a).
Proof.
  induction l as [|b l IH]; intros a Ha Hf; simpl; [exact Ha|].
  apply IH; [apply Hf, Ha|exact Hf].
Qed.

(** *** [substringsimilarity] *)

Lemma substring_length_le (s : string) :
  forall i n, (String.length (String.substring i n s) <= String.length s)%nat.
Proof.
  induction s as [|c s IH]; intros i n.
  - destruct i, n; simpl; lia.
  - destruct i as [|i].
    + destruct n as [|n]; simpl; [lia|]. specialize (IH 0%nat n). lia.
    + simpl. specialize (IH i n). lia.
Qed.

Lemma longest_common_le (longer shorter : string) :
  (longest_common longer shorter <= String.length shorter)%nat.
Proof.
  unfold longest_common.
  apply (fold_left_preserves (fun n => (n <= String.length shorter)%nat)); [lia|].
  intros a i Ha.
  apply (fold_left_preserves (fun n => (n <= String.length shorter)%nat)); [exact Ha|].
  intros a' j Ha'. destruct (_ && _); [|exact Ha'].
  unfold slice. apply substring_length_le.
Qed.

Lemma substringsimilarity_bounds (str1 str2 : string) :
  0 <= substringsimilarity str1 str2 <= 1.
Proof.
  unfold substringsimilarity.
  destruct (String.length str2 <? String.length str1)%nat eqn:E.
  - apply Nat.ltb_lt in E.
    destruct (String.length str1 =? 0)%nat eqn:E0; [split; discriminate|].
    apply Nat.eqb_neq in E0.
    destruct (Js.includes str1 str2).
    + apply ratio_bounds; lia.
    + apply ratio_bounds; [|lia]. pose proof (longest_common_le str1 str2). lia.
  - apply Nat.ltb_ge in E.
    destruct (String.length str2 =? 0)%nat eqn:E0; [split; discriminate|].
    apply Nat.eqb_neq in E0.
    destruct (Js.includes str2 str1).
    + apply ratio_bounds; lia.
    + apply ratio_bounds; [|lia]. pose proof (longest_common_le str2 str1). lia.
Qed.

(** *** [calculateNGramSimilarity] *)

Lemma calculateNGramSimilarity_bounds (str1 str2 : string) (n : nat) :
  0 <= calculateNGramSimilarity str1 str2 n <= 1.
Proof.
  unfold calculateNGramSimilarity.
  set (X := list_to_set (getNGrams (Js.toLowerCase str1) n) : gset string).
  set (Y := list_to_set (getNGrams (Js.toLowerCase str2) n) : gset string).
  destruct (size (X ∪ Y) =? 0)%nat eqn:E; [split; discriminate|].
  apply Nat.eqb_neq in E.
  apply ratio_bounds; [|lia].
  apply subseteq_size.
  transitivity X; [apply intersection_subseteq_l|apply union_subseteq_l].
Qed.

(** *** [jaroSimilarity] *)

Lemma count_true_insert (flags : list bool) :
  forall j, (j < length flags)%nat -> nth j flags false = false ->
  count_occ Bool.bool_dec (<[j := true]> flags) true
  = S (count_occ Bool.bool_dec flags true).
Proof.
  induction flags as [|b flags IH]; intros j Hj Hfree; simpl in Hj; [lia|].
  destruct j as [|j]; simpl in *.
  - subst b. reflexivity.
  - rewrite (IH j) by (lia || assumption). destruct (Bool.bool_dec b true); reflexivity.
Qed.

Lemma count_true_insert_le (flags : list bool) :
  forall i, (count_occ Bool.bool_dec (<[i := true]> flags) true
             <= S (count_occ Bool.bool_dec flags true))%nat.
Proof.
  induction flags as [|b flags IH]; intros i; simpl; [lia|].
  destruct i as [|i]; simpl.
  - destruct (Bool.bool_dec b true); lia.
  - specialize (IH i). destruct (Bool.bool_dec b true); lia.
Qed.

Lemma jaro_match_step_inv (str1 str2 : string) (w : Z) (st : JaroScan) (i : nat) :
  Spec.jaro_inv (String.length str1) (String.length str2) st ->
  Spec.jaro_inv (String.length str1) (String.length str2) (jaro_match_step str1 str2 w st i).
Proof.
  intros (Hm & Hl2 & Hc1 & Hl1). unfold jaro_match_step.
  destruct (find _ _) as [j|] eqn:Hfind; [|repeat split; assumption].
  apply find_some in Hfind as [Hin Hfree].
  apply in_seq in Hin.
  apply negb_true_iff, orb_false_elim in Hfree as [Hfree _].
  assert (Hj : (j < String.length str2)%nat) by lia.
  unfold Spec.jaro_inv. simpl. rewrite !length_insert.
  rewrite count_true_insert by (rewrite ?Hl2; assumption).
  pose proof (count_true_insert_le (matches1 st) i).
  repeat split; lia.
Qed.

Lemma jaro_scan_inv (str1 str2 : string) :
  Spec.jaro_inv (String.length str1) (String.length str2) (jaro_scan str1 str2).
Proof.
  unfold jaro_scan. apply fold_left_preserves.
  - unfold Spec.jaro_inv. simpl. rewrite !repeat_length.
    rewrite !count_occ_repeat_neq by discriminate. repeat split; lia.
  - intros st i. apply jaro_match_step_inv.
Qed.

Lemma jaro_matches_le (str1 str2 : string) :
  (matches (jaro_scan str1 str2) <= String.length str2)%nat.
Proof.
  destruct (jaro_scan_inv str1 str2) as (-> & <- & _). apply count_occ_bound.
Qed.

Lemma jaro_matches_steps (str1 str2 : string) (w : Z) (l : list nat) :
  forall st,
    (matches (fold_left (jaro_match_step str1 str2 w) l st) <= matches st + length l)%nat.
Proof.
  induction l as [|i l IH]; intros st; simpl; [lia|].
  specialize (IH (jaro_match_step str1 str2 w st i)).
  assert ((matches (jaro_match_step str1 str2 w st i) <= S (matches st))%nat).
  { unfold jaro_match_step. destruct (find _ _); simpl; lia. }
  lia.
Qed.

Lemma jaro_matches_le1 (str1 str2 : string) :
  (matches (jaro_scan str1 str2) <= String.length str1)%nat.
Proof.
  unfold jaro_scan.
  pose proof (jaro_matches_steps str1 str2
                (Z.of_nat (Nat.max (String.length str1) (String.length str2)) / 2 - 1)%Z
                (seq 0 (String.length str1))
                {| matches1 := repeat false (String.length str1);
                   matches2 := repeat false (String.length str2); matches := 0 |}) as H.
  simpl in H. rewrite length_seq in H. exact H.
Qed.

End ScoreBounds.

Section JaroBounds.

Import SimilarityMatcher.
Open Scope Q_scope.

Lemma marked_positions (flags : list bool) :
  forall a,
    length (List.filter (fun i => nth (i - a) flags false) (seq a (length flags)))
    = count_occ Bool.bool_dec flags true.
Proof.
  induction flags as [|b flags IH]; intros a; [reflexivity|].
  simpl seq. simpl List.filter. rewrite Nat.sub_diag. simpl nth.
  rewrite (List.filter_ext_in _ (fun i => nth (i - S a) flags false)).
  - simpl count_occ. destruct b.
    + destruct (Bool.bool_dec true true); [|contradiction]. simpl. now rewrite (IH (S a)).
    + destruct (Bool.bool_dec false true); [discriminate|]. apply IH.
  - intros i Hi. apply in_seq in Hi.
    replace (i - a)%nat with (S (i - S a)) by lia. reflexivity.
Qed.

Lemma transpositions_le_marked (str1 str2 : string) (st : JaroScan) (l : list nat) :
  forall acc,
    (snd (fold_left (jaro_transposition_step str1 str2 st) l acc)
     <= snd acc + length (List.filter (fun i => nth i (matches1 st) false) l))%nat.
Proof.
  induction l as [|i l IH]; intros [k t]; simpl; [lia|].
  destruct (nth i (matches1 st) false) eqn:E; simpl.
  - specialize (IH (S (next_match (matches2 st) k),
                    if negb (Js.char_eqb (Js.charAt str1 i)
                                (Js.charAt str2 (next_match (matches2 st) k)))
                    then S t else t)).
    simpl in IH. destruct (negb _); lia.
  - apply (IH (k, t)).
Qed.

Lemma jaro_transpositions_le (str1 str2 : string) :
  (jaro_transpositions str1 str2 (jaro_scan str1 str2) <= matches (jaro_scan str1 str2))%nat.
Proof.
  destruct (jaro_scan_inv str1 str2) as (_ & _ & Hc & Hl).
  unfold jaro_transpositions.
  pose proof (transpositions_le_marked str1 str2 (jaro_scan str1 str2)
                (seq 0 (String.length str1)) (0%nat, 0%nat)) as H.
  simpl snd in H.
  pose proof (marked_positions (matches1 (jaro_scan str1 str2)) 0) as Hm.
  rewrite Hl in Hm.
  rewrite (List.filter_ext _ (fun i => nth i (matches1 (jaro_scan str1 str2)) false)) in Hm
    by (intros i; now rewrite Nat.sub_0_r).
  lia.
Qed.

Lemma jaroSimilarity_bounds (str1 str2 : string) : 0 <= jaroSimilarity str1 str2 <= 1.
Proof.
  unfold jaroSimilarity.
  destruct (String.eqb str1 str2); [split; discriminate|].
  destruct ((String.length str1 =? 0)%nat || (String.length str2 =? 0)%nat) eqn:E0;
    [split; discriminate|].
  apply orb_false_elim in E0 as [E1 E2]. apply Nat.eqb_neq in E1, E2.
  destruct (matches (jaro_scan str1 str2) =? 0)%nat eqn:Em; [split; discriminate|].
  apply Nat.eqb_neq in Em.
  pose proof (jaro_matches_le1 str1 str2) as H1.
  pose proof (jaro_matches_le str1 str2) as H2.
  pose proof (jaro_transpositions_le str1 str2) as Ht.
  set (m := matches (jaro_scan str1 str2)) in *.
  set (t := jaro_transpositions str1 str2 (jaro_scan str1 str2)) in *.
  destruct (ratio_bounds m (String.length str1) H1 ltac:(lia)) as [A0 A1].
  destruct (ratio_bounds m (String.length str2) H2 ltac:(lia)) as [B0 B1].
  pose proof (Q_of_nat_pos m ltac:(lia)) as Hm.
  pose proof (Q_of_nat_nonneg t) as Ht0.
  pose proof (Q_of_nat_le t m Ht) as Htm.
  generalize dependent (Q_of_nat (String.length str1)).
  generalize dependent (Q_of_nat (String.length str2)).
  generalize dependent (Q_of_nat t). generalize dependent (Q_of_nat m).
  intros qm Hm qt Ht0 Htm q2 B0 B1 q1 A0 A1.
  assert (C : 0 <= (qm - qt / 2) / qm <= 1).
  { clear A0 A1 B0 B1.
    assert (Hhalf : qt / 2 == qt * (1 # 2)) by (unfold Qdiv; reflexivity).
    rewrite Hhalf. split.
    - apply Qle_shift_div_l; [exact Hm|]. lra.
    - apply Qle_shift_div_r; [exact Hm|]. lra. }
  destruct C as [C0 C1].
  generalize dependent ((qm - qt / 2) / qm).
  generalize dependent (qm / q1). generalize dependent (qm / q2).
  intros r2 B0 B1 r1 A0 A1 r3 C0 C1.
  split.
  - apply Qle_shift_div_l; [reflexivity|]. lra.
  - apply Qle_shift_div_r; [reflexivity|]. lra.
Qed.

(** *** The second loop of [jaroSimilarity] finds every flag it looks for

    [while (!matches2[k]) k++] stops only on a set flag.  It always meets
    one, because the first loop sets as many flags in [matches2] as in
    [matches1] and the second loop consumes one per set flag of
    [matches1]. *)

Lemma nth_insert_ne (flags : list bool) :
  forall i j, i <> j -> nth j (<[i := true]> flags) false = nth j flags false.
Proof.
  induction flags as [|b flags IH]; intros i j Hne; [now destruct i, j|].
  destruct i as [|i], j as [|j]; simpl; try reflexivity; try contradiction.
  apply IH. congruence.
Qed.

Lemma jaro_scan_fresh (str1 str2 : string) (w : Z) (n : nat) :
  forall a st,
    (forall j, (a <= j)%nat -> nth j (matches1 st) false = false) ->
    length (matches1 st) = String.length str1 ->
    (a + n <= String.length str1)%nat ->
    count_occ Bool.bool_dec (matches1 st) true = matches st ->
    count_occ Bool.bool_dec
      (matches1 (fold_left (jaro_match_step str1 str2 w) (seq a n) st)) true
    = matches (fold_left (jaro_match_step str1 str2 w) (seq a n) st).
Proof.
  induction n as [|n IH]; intros a st Hfresh Hlen Hn Hcount; [exact Hcount|].
  simpl. apply IH.
  - intros j Hj. unfold jaro_match_step. destruct (find _ _); simpl.
    + rewrite nth_insert_ne by lia. apply Hfresh. lia.
    + apply Hfresh. lia.
  - unfold jaro_match_step. destruct (find _ _); simpl; [now rewrite length_insert|exact Hlen].
  - lia.
  - unfold jaro_match_step. destruct (find _ _); simpl; [|exact Hcount].
    rewrite count_true_insert; [now rewrite Hcount|lia|apply Hfresh; lia].
Qed.

Lemma jaro_scan_balanced (str1 str2 : string) :
  count_occ Bool.bool_dec (matches1 (jaro_scan str1 str2)) true
  = count_occ Bool.bool_dec (matches2 (jaro_scan str1 str2)) true.
Proof.
  destruct (jaro_scan_inv str1 str2) as (<- & _).
  unfold jaro_scan. apply jaro_scan_fresh; simpl.
  - intros j _. apply nth_repeat.
  - apply repeat_length.
  - lia.
  - apply count_occ_repeat_neq. discriminate.
Qed.

Lemma skip_unset_finds (flags : list bool) :
  forall k,
    (0 < count_occ Bool.bool_dec flags true)%nat ->
    (k <= skip_unset flags k)%nat
    /\ (skip_unset flags k - k < length flags)%nat
    /\ nth (skip_unset flags k - k) flags false = true
    /\ S (count_occ Bool.bool_dec (skipn (S (skip_unset flags k - k)) flags) true)
       = count_occ Bool.bool_dec flags true.
Proof.
  induction flags as [|b flags IH]; intros k Hpos; simpl in Hpos; [lia|].
  destruct b; simpl.
  - rewrite Nat.sub_diag. simpl. repeat split; lia.
  - destruct (Bool.bool_dec false true) as [E|_]; [discriminate|].
    destruct (IH (S k) Hpos) as (H1 & H2 & H3 & H4).
    replace (skip_unset flags (S k) - k)%nat with (S (skip_unset flags (S k) - S k)) by lia.
    simpl. repeat split; try lia; assumption.
Qed.

Lemma count_skipn_S (flags : list bool) (i : nat) :
  count_occ Bool.bool_dec (skipn i flags) true
  = ((if nth i flags false then 1 else 0)
     + count_occ Bool.bool_dec (skipn (S i) flags) true)%nat.
Proof.
  revert i. induction flags as [|b flags IH]; intros i.
  - destruct i; reflexivity.
  - destruct i as [|i].
    + simpl. destruct b.
      * destruct (Bool.bool_dec true true); [reflexivity|contradiction].
      * destruct (Bool.bool_dec false true); [discriminate|reflexivity].
    + simpl skipn at 1. rewrite IH. reflexivity.
Qed.

(** After the indices below [i], the flags still to be consumed balance;
    so at a set flag of [matches1] the inner loop stops inside [matches2],
    on a set flag. *)
Lemma jaro_second_loop (str1 str2 : string) (i : nat) :
  let st := jaro_scan str1 str2 in
  let k := fst (fold_left (jaro_transposition_step str1 str2 st) (seq 0 i) (0%nat, 0%nat)) in
  count_occ Bool.bool_dec (skipn k (matches2 st)) true
  = count_occ Bool.bool_dec (skipn i (matches1 st)) true
  /\ (nth i (matches1 st) false = true ->
      (next_match (matches2 st) k < String.length str2)%nat
      /\ nth (next_match (matches2 st) k) (matches2 st) false = true).
Proof.
  simpl.
  set (st := jaro_scan str1 str2).
  assert (Hbal : forall i,
            count_occ Bool.bool_dec
              (skipn (fst (fold_left (jaro_transposition_step str1 str2 st) (seq 0 i)
                             (0%nat, 0%nat))) (matches2 st)) true
            = count_occ Bool.bool_dec (skipn i (matches1 st)) true).
  { clear i. induction i as [|i IH].
    - simpl. symmetry. apply jaro_scan_balanced.
    - rewrite seq_S, fold_left_app. simpl.
      destruct (fold_left _ (seq 0 i) _) as [k t] eqn:Ek. simpl in IH.
      rewrite (count_skipn_S (matches1 st) i) in IH.
      unfold jaro_transposition_step.
      destruct (nth i (matches1 st) false) eqn:Ei; simpl.
      + assert (Hpos : (0 < count_occ Bool.bool_dec (skipn k (matches2 st)) true)%nat) by lia.
        destruct (skip_unset_finds _ k Hpos) as (H1 & _ & _ & H4).
        rewrite skipn_skipn in H4. unfold next_match.
        replace (S (skip_unset (drop k (matches2 st)) k - k) + k)%nat
          with (S (skip_unset (drop k (matches2 st)) k)) in H4 by lia.
        lia.
      + exact IH. }
  split; [apply Hbal|].
  intros Hi. specialize (Hbal i).
  destruct (fold_left _ (seq 0 i) _) as [k t]. simpl in *.
  rewrite (count_skipn_S (matches1 st) i), Hi in Hbal.
  assert (Hpos : (0 < count_occ Bool.bool_dec (skipn k (matches2 st)) true)%nat) by lia.
  destruct (skip_unset_finds _ k Hpos) as (H1 & H2 & H3 & _).
  rewrite length_skipn in H2. rewrite nth_skipn in H3.
  destruct (jaro_scan_inv str1 str2) as (_ & Hl2 & _). fold st in Hl2.
  unfold next_match.
  replace (k + (skip_unset (drop k (matches2 st)) k - k))%nat
    with (skip_unset (drop k (matches2 st)) k) in H3 by lia.
  split; [lia|exact H3].
Qed.

(** *** The fallback blend *)

Lemma levenshteinSimilarity_bounds (a b : string) : 0 <= levenshteinSimilarity a b <= 1.
Proof. apply levenshteinSimilarity_formula. Qed.

Lemma calculateStringSimilarity_bounds (str1 str2 : string) :
  0 <= calculateStringSimilarity str1 str2 <= 1.
Proof.
  unfold calculateStringSimilarity.
  destruct (negb (Js.truthy str1) || negb (Js.truthy str2)); [split; discriminate|].
  pose proof (levenshteinSimilarity_bounds str1 str2).
  pose proof (jaroSimilarity_bounds str1 str2).
  pose proof (substringsimilarity_bounds str1 str2).
  split; lra.
Qed.

Lemma startsWith_refl (s : string) : Js.startsWith s s = true.
Proof. induction s as [|c s IH]; simpl; [reflexivity|]. now rewrite Ascii.eqb_refl. Qed.

Lemma includes_refl (s : string) : Js.includes s s = true.
Proof. destruct s; simpl; [reflexivity|]. rewrite Ascii.eqb_refl, startsWith_refl. reflexivity. Qed.

(** A non-empty string is fully similar to itself. *)
Lemma calculateStringSimilarity_self (s : string) :
  s <> "" -> calculateStringSimilarity s s == 1.
Proof.
  intros Hs. unfold calculateStringSimilarity.
  assert (Ht : Js.truthy s = true) by (destruct s; [contradiction|reflexivity]).
  rewrite Ht. simpl.
  assert (Hlen : (0 < String.length s)%nat) by (destruct s; [contradiction|simpl; lia]).
  assert (Hlev : levenshteinSimilarity s s == 1).
  { unfold levenshteinSimilarity, levenshteinDistance.
    rewrite levenshteinDistance_correct, edit_distance_refl.
    destruct (Nat.max (String.length s) (String.length s) =? 0)%nat; [reflexivity|].
    unfold Q_of_nat at 1. simpl. unfold Qdiv. rewrite Qmult_0_l. reflexivity. }
  assert (Hjaro : jaroSimilarity s s == 1).
  { unfold jaroSimilarity. now rewrite String.eqb_refl. }
  assert (Hsub : substringsimilarity s s == 1).
  { unfold substringsimilarity. rewrite Nat.ltb_irrefl.
    destruct (String.length s =? 0)%nat; [reflexivity|].
    rewrite includes_refl. now apply ratio_self. }
  rewrite Hlev, Hjaro, Hsub. reflexivity.
Qed.

(** X6. The other scoring functions of the class, and their fallback blend,
    lie between 0 and 1 as well. *)
Lemma scoring_functions_bounds (a b : string) :
  0 <= jaroSimilarity a b <= 1
  /\ 0 <= substringsimilarity a b <= 1
  /\ (forall n, 0 <= calculateNGramSimilarity a b n <= 1)
  /\ 0 <= calculateStringSimilarity a b <= 1.
Proof.
  split; [apply jaroSimilarity_bounds|].
  split; [apply substringsimilarity_bounds|].
  split; [intros n; apply calculateNGramSimilarity_bounds|].
  apply calculateStringSimilarity_bounds.
Qed.

(** C8. The distance that the matrix code of [levenshteinDistance] computes
    is the Levenshtein distance: some sequence of that many single-character
    insertions, deletions and substitutions turns the one string into the
    other, and no shorter sequence does.  [levenshteinSimilarity] is 1 on
    two empty strings and otherwise 1 minus that distance over the longer
    length, and it always lies between 0 and 1. *)
Theorem levenshteinSimilarity_spec (a b : string) :
  Lev.edits (Lev.chars a) (Lev.chars b) (levenshteinDistance a b)
  /\ (forall n, Lev.edits (Lev.chars a) (Lev.chars b) n ->
                (levenshteinDistance a b <= n)%nat)
  /\ (a = "" /\ b = "" -> levenshteinSimilarity a b = 1)
  /\ (~ (a = "" /\ b = "") ->
      levenshteinSimilarity a b =
        1 - Q_of_nat (levenshteinDistance a b)
            / Q_of_nat (Nat.max (String.length a) (String.length b)))
  /\ 0 <= levenshteinSimilarity a b <= 1.
Proof.
  destruct (levenshteinSimilarity_formula a b) as (H1 & H2 & H3 & H4).
  destruct (edit_distance_least a b) as [Hreach Hleast].
  rewrite H1. repeat split; try assumption; apply H4.
Qed.

End JaroBounds.

(** ** The matcher: exact names *)

Section ExactNames.

Import SimilarityMatcher.
Open Scope Q_scope.

(** *** The lookup tables *)

Lemma add_alias_names (key : string) (al : list string) :
  forall tb x, In x (tb_names tb) -> In x (tb_names (fold_left (add_alias key) al tb)).
Proof.
  induction al as [|a al IH]; intros tb x Hx; simpl; [exact Hx|].
  apply IH. simpl. apply in_or_app. now left.
Qed.

Lemma add_alias_aliases (key : string) (al : list string) (c : string) :
  forall tb,
    is_Some (tb_aliases tb !! c) \/ (exists a, In a al /\ Js.toLowerCase a = c) ->
    is_Some (tb_aliases (fold_left (add_alias key) al tb) !! c).
Proof.
  induction al as [|a al IH]; intros tb H; simpl.
  - destruct H as [H | (a & [] & _)]. exact H.
  - apply IH. simpl.
    destruct (decide (Js.toLowerCase a = c)) as [<-|Hne].
    + left. rewrite lookup_insert_eq. eauto.
    + rewrite lookup_insert_ne by exact Hne.
      destruct H as [H | (a' & [<- | Hin] & Ha')]; [now left|contradiction|].
      right. eauto.
Qed.

Lemma add_entry_names (tb : Tables) (e : string * TestData) (x : Candidate) :
  In x (tb_names tb) -> In x (tb_names (add_entry tb e)).
Proof.
  intros Hx. destruct e as [key data]. unfold add_entry.
  assert (H1 : In x (tb_names tb ++
             [{| cand_name := Js.toLowerCase key; cand_key := key;
                 cand_type := Some "primary" |}]))
    by (apply in_or_app; now left).
  destruct (td_aliases data) as [al|]; [apply add_alias_names|]; simpl;
    destruct (td_name data) as [n|]; try exact H1;
    destruct (Js.truthy n); try exact H1; apply in_or_app; now left.
Qed.

Lemma add_entry_aliases (tb : Tables) (e : string * TestData) (c : string) :
  is_Some (tb_aliases tb !! c) -> is_Some (tb_aliases (add_entry tb e) !! c).
Proof.
  intros H. destruct e as [key data]. unfold add_entry.
  destruct (td_aliases data) as [al|]; [|exact H].
  apply add_alias_aliases. now left.
Qed.

(** An entry indexes its key and its display name in lower case. *)
Lemma add_entry_indexes (tb : Tables) (key : string) (data : TestData) :
  (exists x, In x (tb_names (add_entry tb (key, data))) /\ cand_name x = Js.toLowerCase key)
  /\ (forall n, td_name data = Some n -> n <> "" ->
      exists x, In x (tb_names (add_entry tb (key, data))) /\ cand_name x = Js.toLowerCase n).
Proof.
  unfold add_entry.
  set (primary := {| cand_name := Js.toLowerCase key; cand_key := key;
                     cand_type := Some "primary" |}).
  set (names2 := match td_name data with
                 | Some n =>
                     if Js.truthy n
                     then (tb_names tb ++ [primary]) ++
                          [{| cand_name := Js.toLowerCase n; cand_key := key;
                              cand_type := Some "display" |}]
                     else tb_names tb ++ [primary]
                 | None => tb_names tb ++ [primary]
                 end).
  set (tb1 := {| tb_aliases := tb_aliases tb; tb_units := _; tb_names := names2 |}).
  assert (Hkeep : forall x, In x names2 ->
            In x (tb_names match td_aliases data with
                           | Some al => fold_left (add_alias key) al tb1
                           | None => tb1
                           end)).
  { intros x Hx. destruct (td_aliases data) as [al|]; [apply add_alias_names|]; exact Hx. }
  split.
  - exists primary. split; [|reflexivity]. apply Hkeep. unfold names2.
    assert (Hp : In primary (tb_names tb ++ [primary])) by (apply in_or_app; right; now left).
    destruct (td_name data) as [n|]; [|exact Hp].
    destruct (Js.truthy n); [|exact Hp]. apply in_or_app. now left.
  - intros n Hn Hne.
    assert (Ht : Js.truthy n = true) by (destruct n; [contradiction|reflexivity]).
    exists {| cand_name := Js.toLowerCase n; cand_key := key; cand_type := Some "display" |}.
    split; [|reflexivity]. apply Hkeep. unfold names2. rewrite Hn, Ht.
    apply in_or_app. right. now left.
Qed.

Lemma add_entry_alias (tb : Tables) (key : string) (data : TestData) (al : list string)
    (alias : string) :
  td_aliases data = Some al -> In alias al ->
  is_Some (tb_aliases (add_entry tb (key, data)) !! Js.toLowerCase alias).
Proof.
  intros Hal Hin. unfold add_entry. rewrite Hal.
  apply add_alias_aliases. right. eauto.
Qed.

Lemma fold_entries_names (kb : KnowledgeBase) :
  forall tb x, In x (tb_names tb) -> In x (tb_names (fold_left add_entry kb tb)).
Proof.
  induction kb as [|e kb IH]; intros tb x Hx; simpl; [exact Hx|].
  apply IH, add_entry_names, Hx.
Qed.

Lemma fold_entries_aliases (kb : KnowledgeBase) (c : string) :
  forall tb, is_Some (tb_aliases tb !! c) ->
             is_Some (tb_aliases (fold_left add_entry kb tb) !! c).
Proof.
  induction kb as [|e kb IH]; intros tb H; simpl; [exact H|].
  apply IH, add_entry_aliases, H.
Qed.

(** Every alias is in the exact table of the matcher. *)
Lemma alias_in_testAliases (l : option NlpLibs) (kb : KnowledgeBase) (c : string) :
  Spec.is_alias kb c -> is_Some (testAliases (new l kb) !! c).
Proof.
  intros (key & data & al & alias & Hin & Hal & Halias & <-).
  unfold new, buildLookupTables. simpl.
  generalize {| tb_aliases := ∅; tb_units := []; tb_names := [] |}.
  induction kb as [|e kb IH]; intros tb; [contradiction|].
  simpl. destruct Hin as [-> | Hin].
  - apply fold_entries_aliases. eapply add_entry_alias; eassumption.
  - apply IH, Hin.
Qed.

(** Every display name and every key is indexed for the fuzzy steps. *)
Lemma name_in_testNamesArray (l : option NlpLibs) (kb : KnowledgeBase) (c : string) :
  Spec.is_display kb c \/ Spec.is_folded_key kb c ->
  c <> "" /\ exists x, In x (testNamesArray (new l kb)) /\ cand_name x = c.
Proof.
  intros H.
  assert (Hc : c <> "").
  { destruct H as [(key & data & n & _ & _ & Hn & <-) | (key & data & _ & _ & Hc)];
      [|exact Hc].
    destruct n; [contradiction|discriminate]. }
  split; [exact Hc|].
  unfold new, buildLookupTables. simpl.
  generalize {| tb_aliases := ∅; tb_units := []; tb_names := [] |}.
  assert (Hin : exists key data, In (key, data) kb
            /\ (Js.toLowerCase key = c
                \/ exists n, td_name data = Some n /\ n <> "" /\ Js.toLowerCase n = c)).
  { destruct H as [(key & data & n & Hin & Hn & Hne & Hl) | (key & data & Hin & Hl & _)];
      exists key, data; (split; [exact Hin|]); [right|left]; eauto. }
  clear H. destruct Hin as (key & data & Hin & Hcase).
  induction kb as [|e kb IH]; intros tb; [contradiction|].
  simpl. destruct Hin as [-> | Hin]; [|apply IH, Hin].
  destruct (add_entry_indexes tb key data) as [(x & Hx & Hname) Hdisp].
  destruct Hcase as [<- | (n & Hn & Hne & <-)].
  - exists x. split; [apply fold_entries_names, Hx|exact Hname].
  - destruct (Hdisp n Hn Hne) as (y & Hy & Hyn).
    exists y. split; [apply fold_entries_names, Hy|exact Hyn].
Qed.

(** *** The scanning loop *)

Lemma better_settled (score_of : Candidate -> Q) (l : list Candidate) :
  forall acc,
    (exists c0, fst acc = Some c0) -> snd acc == 1 ->
    (forall c, In c l -> score_of c <= 1) ->
    (exists c0, fst (fold_left (better score_of) l acc) = Some c0)
    /\ snd (fold_left (better score_of) l acc) == 1.
Proof.
  induction l as [|h l IH]; intros acc Hsome Hone Hle; simpl; [auto|].
  assert (Hstay : better score_of acc h = acc).
  { unfold better. destruct (Num.Qltb (snd acc) (score_of h)) eqn:E; [|reflexivity].
    apply Qltb_lt in E. specialize (Hle h (or_introl eq_refl)). lra. }
  rewrite Hstay. apply IH; auto. intros c Hc. apply Hle. now right.
Qed.

Lemma better_finds_perfect (score_of : Candidate -> Q) (l : list Candidate) :
  forall acc,
    snd acc <= 1 -> (fst acc = None -> snd acc < 1) ->
    (forall c, In c l -> score_of c <= 1) ->
    (exists c, In c l /\ score_of c == 1) ->
    (exists c0, fst (fold_left (better score_of) l acc) = Some c0)
    /\ snd (fold_left (better score_of) l acc) == 1.
Proof.
  induction l as [|h l IH]; intros acc Hle1 Hnone Hle (c & Hin & Hc); [contradiction|].
  simpl.
  assert (Hh : score_of h <= 1) by (apply Hle; now left).
  assert (Hl : forall c, In c l -> score_of c <= 1) by (intros; apply Hle; now right).
  destruct Hin as [-> | Hin].
  - apply better_settled; [| |exact Hl]; unfold better;
      destruct (Num.Qltb (snd acc) (score_of c)) eqn:E; simpl; eauto.
    + apply Qltb_ge in E. destruct (fst acc) as [c0|]; [eauto|].
      specialize (Hnone eq_refl). lra.
    + apply Qltb_ge in E. lra.
  - apply IH; [| |exact Hl|eauto]; unfold better;
      destruct (Num.Qltb (snd acc) (score_of h)) eqn:E; simpl; auto.
    discriminate.
Qed.

Lemma scan_best_perfect (score_of : Candidate -> Q) (l : list Candidate) :
  (forall c, In c l -> score_of c <= 1) ->
  (exists c, In c l /\ score_of c == 1) ->
  exists key s, scan_best score_of l = Some (key, s) /\ s == 1.
Proof.
  intros Hle Hex. unfold scan_best.
  destruct (better_finds_perfect score_of l (None, 0)) as [(c0 & Hc0) Hs]; simpl; auto;
    try reflexivity; try discriminate.
  destruct (fold_left (better score_of) l (None, 0)) as [bm bs]. simpl in *.
  subst bm. eauto.
Qed.

Lemma confidence_of_one (s : Q) : s == 1 -> getConfidenceLevel s = "exact".
Proof.
  intros Hs. unfold getConfidenceLevel.
  replace (Num.Qleb threshold_exact s) with true; [reflexivity|].
  symmetry. apply Qleb_le. unfold threshold_exact. lra.
Qed.

Lemma accept_perfect (threshold : Q) (meth key : string) (s : Q) :
  threshold <= 1 -> s == 1 ->
  accept threshold meth (Some (key, s)) =
    Some {| matched := Some key; similarity := s; confidence := "exact"; method := Some meth |}.
Proof.
  intros Ht Hs. unfold accept.
  replace (Num.Qleb threshold s) with true by (symmetry; apply Qleb_le; lra).
  now rewrite confidence_of_one.
Qed.

(** *** The exact tables *)

Lemma own_In {A : Type} (object : list (string * A)) (k : string) (v : A) :
  Js.own object k = Some v -> In (k, v) object.
Proof.
  induction object as [|[k' v'] object IH]; simpl; [discriminate|].
  destruct (String.eqb k' k) eqn:E.
  - apply String.eqb_eq in E. intros [= ->]. subst k'. now left.
  - intros H. right. apply IH, H.
Qed.

Lemma kb_get_own (kb : KnowledgeBase) (k : string) (data : TestData) :
  Js.own kb k = Some data -> kb_get kb k = Some data.
Proof. intros H. unfold kb_get, Js.get. now rewrite H. Qed.

(** What the catalog object holds under a name is an entry of the catalog
    or, for a name that is no key, a value inherited from the prototype. *)
Lemma kb_get_cases (kb : KnowledgeBase) (k : string) (data : TestData) :
  kb_get kb k = Some data ->
  Js.own kb k = Some data
  \/ (Js.own kb k = None /\ Js.inherited k = true /\ data = inherited_entry k).
Proof.
  unfold kb_get, Js.get. destruct (Js.own kb k) as [d|]; [intros [= <-]; now left|].
  destruct (Js.inherited k); [|discriminate]. intros [= <-]. right. auto.
Qed.

(** The matcher answers with an exact match for every name that objects
    inherit, so the normalizer never reaches its fallback with one. *)
Lemma fallback_not_inherited (l : option NlpLibs) (kb : KnowledgeBase) (raw : string) :
  raw <> "" ->
  Js.inherited (Js.toLowerCase (Js.trim raw)) = true ->
  (exists key meth,
     findBestTestNameMatch (new l kb) (Some raw) = Some (exact key meth))
  /\ exists key,
       Normalizer.normalizeTestName (Normalizer.new l kb) (Some raw) = Some key.
Proof.
  intros Hraw Hin.
  assert (Ht : Js.truthy raw = true) by (destruct raw; [contradiction|reflexivity]).
  assert (Hm : exists key meth,
            findBestTestNameMatch (new l kb) (Some raw) = Some (exact key meth)).
  { unfold findBestTestNameMatch. rewrite Ht. simpl negb. cbv iota.
    destruct (testAliases (new l kb) !! _) as [key|]; [eauto|].
    destruct (kb_get (knowledgeBase (new l kb)) _) as [data|] eqn:Ekey; [eauto|].
    unfold kb_get, Js.get in Ekey. simpl in Ekey. rewrite Hin in Ekey.
    destruct (Js.own kb _); discriminate. }
  split; [exact Hm|].
  destruct Hm as (key & meth & Hm).
  unfold Normalizer.normalizeTestName. rewrite Ht. simpl negb. cbv iota.
  change (Normalizer.similarityMatcher (Normalizer.new l kb)) with (new l kb).
  rewrite Hm. simpl. eauto.
Qed.

(** A non-empty raw name whose cleaned form is a key of the catalog or the
    lower-case form of an alias is answered by the two exact tables. *)
Lemma exact_tables_answer (l : option NlpLibs) (kb : KnowledgeBase) (raw : string) :
  raw <> "" ->
  Spec.is_key kb (Js.toLowerCase (Js.trim raw))
  \/ Spec.is_alias kb (Js.toLowerCase (Js.trim raw)) ->
  exists key meth,
    findBestTestNameMatch (new l kb) (Some raw) = Some (exact key meth)
    /\ (meth = "exact_match" \/ meth = "direct_lookup").
Proof.
  intros Hraw H. unfold findBestTestNameMatch.
  assert (Ht : Js.truthy raw = true) by (destruct raw; [contradiction|reflexivity]).
  rewrite Ht. simpl negb. cbv iota.
  set (c := Js.toLowerCase (Js.trim raw)) in *.
  destruct (testAliases (new l kb) !! c) as [key|] eqn:Ealias.
  { exists key, "exact_match". split; [reflexivity|now left]. }
  destruct (kb_get (knowledgeBase (new l kb)) c) as [data|] eqn:Ekey.
  { exists c, "direct_lookup". split; [reflexivity|now right]. }
  destruct H as [(data & Hk) | Ha].
  - simpl in Ekey. rewrite (kb_get_own _ _ _ Hk) in Ekey. discriminate.
  - apply (alias_in_testAliases l) in Ha. rewrite Ealias in Ha. destruct Ha. discriminate.
Qed.

(** A display name, and a key written with capitals, is in the exact tables
    only when it is also a key or an alias.  Otherwise it reaches the fuzzy
    steps, which give it similarity 1 and tier ["exact"] by the string blend
    when the libraries are absent, and otherwise when the search index
    scores its first result 0. *)
Lemma indexed_name_answer (l : option NlpLibs) (kb : KnowledgeBase) (raw : string) :
  raw <> "" ->
  Spec.is_display kb (Js.toLowerCase (Js.trim raw))
  \/ Spec.is_folded_key kb (Js.toLowerCase (Js.trim raw)) ->
  Spec.index_scores_perfect_hit l kb (Js.toLowerCase (Js.trim raw)) ->
  exists key meth s,
    findBestTestNameMatch (new l kb) (Some raw) =
      Some {| matched := Some key; similarity := s; confidence := "exact";
              method := Some meth |}
    /\ s == 1.
Proof.
  intros Hraw Hname Hindex. unfold findBestTestNameMatch.
  assert (Ht : Js.truthy raw = true) by (destruct raw; [contradiction|reflexivity]).
  rewrite Ht. simpl negb. cbv iota.
  set (c := Js.toLowerCase (Js.trim raw)) in *.
  destruct (testAliases (new l kb) !! c) as [key|] eqn:Ealias.
  { exists key, "exact_match", 1. split; reflexivity. }
  destruct (kb_get (knowledgeBase (new l kb)) c) as [data|] eqn:Ekey.
  { exists c, "direct_lookup", 1. split; reflexivity. }
  destruct (name_in_testNamesArray l kb c Hname) as (Hc & x & Hx & Hxc).
  unfold Spec.index_scores_perfect_hit in Hindex. unfold fuse_step.
  destruct (testNamesFuse (new l kb)) as [search|] eqn:Efuse.
  - destruct Hindex as (hit & rest & -> & Hscore).
    rewrite accept_perfect; [|discriminate|rewrite Hscore; reflexivity].
    simpl. do 3 eexists. split; [reflexivity|]. rewrite Hscore. reflexivity.
  - assert (Hl : l = None) by (destruct l; [discriminate|reflexivity]).
    subst l. simpl or_else.
    unfold findAdvancedStringMatch.
    destruct (scan_best_perfect
                (fun candidate =>
                   calculateAdvancedStringSimilarity (new None kb) c (cand_name candidate))
                (testNamesArray (new None kb))) as (key & s & Hscan & Hs).
    + intros y _. unfold calculateAdvancedStringSimilarity. simpl.
      destruct (negb (Js.truthy c) || negb (Js.truthy (cand_name y))); [discriminate|].
      apply calculateStringSimilarity_bounds.
    + exists x. split; [exact Hx|]. rewrite Hxc.
      unfold calculateAdvancedStringSimilarity. simpl.
      assert (Htc : Js.truthy c = true) by (destruct c; [contradiction|reflexivity]).
      rewrite Htc. simpl. now apply calculateStringSimilarity_self.
    + change (tb_names (fold_left add_entry kb
                {| tb_aliases := ∅; tb_units := []; tb_names := [] |}))
        with (testNamesArray (new None kb)).
      rewrite Hscan, accept_perfect; [|discriminate|exact Hs]. simpl.
      do 3 eexists. split; [reflexivity|exact Hs].
Qed.

(** For a catalog with a display name that is neither a key nor an alias,
    the answer is that of the search index once the libraries are loaded:
    1 minus the score of its first result. *)
Example display_name_outside_tables :
  Spec.is_display Sample.vitamin_catalog (Js.toLowerCase (Js.trim "Vitamin D"))
  /\ Spec.in_exact_tables Sample.vitamin_catalog "vitamin d" = false
  /\ findBestTestNameMatch
       (new (Some (Sample.index_scoring Sample.epsilon)) Sample.vitamin_catalog)
       (Some "Vitamin D")
     = Some {| matched := Some "vitd"; similarity := 1 - Sample.epsilon;
               confidence := "exact"; method := Some "fuse_fuzzy" |}.
Proof.
  split; [|split].
  - exists "vitd", (entry "Vitamin D" "ng/mL" ["25-oh d"] 30 100 0 500), "Vitamin D".
    split; [simpl; auto|]. split; [reflexivity|]. split; [discriminate|reflexivity].
  - reflexivity.
  - vm_compute. reflexivity.
Qed.

(** *** The names of the shipped catalog *)


Lemma names_of_spec (kb : KnowledgeBase) (c : string) :
  Spec.is_key kb c \/ Spec.is_folded_key kb c
  \/ Spec.is_display kb c \/ Spec.is_alias kb c ->
  In c (Spec.names_of kb).
Proof.
  intros H. unfold Spec.names_of. apply in_flat_map.
  destruct H as [(data & Hk) | [(key & data & Hin & Hl & _)
                | [(key & data & n & Hin & Hn & _ & Hl)
                  | (key & data & al & alias & Hin & Hal & Halias & Hl)]]].
  - exists (c, data). split; [apply own_In, Hk|]. now left.
  - exists (key, data). split; [exact Hin|]. right. left. exact Hl.
  - exists (key, data). split; [exact Hin|]. right. right. simpl. rewrite Hn.
    apply in_or_app. left. left. exact Hl.
  - exists (key, data). split; [exact Hin|]. right. right. simpl. rewrite Hal.
    apply in_or_app. right. rewrite <- Hl. apply in_map, Halias.
Qed.

Lemma in_exact_tables_sound (kb : KnowledgeBase) (c : string) :
  Spec.in_exact_tables kb c = true ->
  c <> "" /\ (Spec.is_key kb c \/ Spec.is_alias kb c).
Proof.
  unfold Spec.in_exact_tables. intros H.
  apply andb_prop in H. destruct H as [Hne H]. split.
  - intros ->. discriminate Hne.
  - apply Bool.orb_prop in H. destruct H as [H | H].
    + left. destruct (Js.own kb c) as [data|] eqn:E; [|discriminate]. now exists data.
    + right. apply existsb_exists in H. destruct H as (x & Hx & Hxc).
      apply String.eqb_eq in Hxc. subst x.
      unfold Spec.aliases_lower in Hx. apply in_flat_map in Hx.
      destruct Hx as ([key data] & Hin & Hx). simpl in Hx.
      destruct (td_aliases data) as [al|] eqn:Hal; [|contradiction].
      apply in_map_iff in Hx. destruct Hx as (alias & Hl & Halias).
      exists key, data, al, alias. auto.
Qed.

(** Every name of the shipped catalog, display names and capitalised keys
    included, is in the exact tables. *)
Lemma shipped_names_in_exact_tables :
  forallb (Spec.in_exact_tables MEDICAL_DATA) (Spec.names_of MEDICAL_DATA) = true.
Proof. vm_compute. reflexivity. Qed.

(** C5.  A raw name that, trimmed and lower-cased, equals a key of the
    shipped catalog (as written or in lower case), the lower-case form of a
    display name or the lower-case form of an alias is matched with
    similarity 1.0 and tier ["exact"], whether or not the libraries are
    loaded: each such name is a key or an alias, and the two exact tables
    answer before any fuzzy step. *)
Theorem exact_match_dominance (l : option NlpLibs) (raw : string) :
  Spec.is_key MEDICAL_DATA (Js.toLowerCase (Js.trim raw))
  \/ Spec.is_folded_key MEDICAL_DATA (Js.toLowerCase (Js.trim raw))
  \/ Spec.is_display MEDICAL_DATA (Js.toLowerCase (Js.trim raw))
  \/ Spec.is_alias MEDICAL_DATA (Js.toLowerCase (Js.trim raw)) ->
  exists key meth,
    findBestTestNameMatch (new l MEDICAL_DATA) (Some raw) =
      Some {| matched := Some key; similarity := 1; confidence := "exact";
              method := Some meth |}
    /\ (meth = "exact_match" \/ meth = "direct_lookup").
Proof.
  intros H. apply names_of_spec in H.
  pose proof shipped_names_in_exact_tables as Hall.
  rewrite forallb_forall in Hall. apply Hall, in_exact_tables_sound in H.
  destruct H as [Hc H].
  assert (Hraw : raw <> "") by (intros ->; apply Hc; reflexivity).
  destruct (exact_tables_answer l MEDICAL_DATA raw Hraw H) as (key & meth & E & Hmeth).
  exists key, meth. split; [exact E|exact Hmeth].
Qed.

End ExactNames.

(** ** The statements at sample inputs *)

Section Witnesses.

Import Guardrail.

(** A glucose value beyond the physical limit is kept with a warning. *)
Lemma plausibility_checks_only_warn_witness :
  isValidTestStructure Sample.glucose_5000 = true
  /\ isTestMentionedInOriginal Sample.guardrail (Js.show (name Sample.glucose_5000))
       (Some "Glucose 5000 mg/dL (High)") = Returns true
  /\ Spec.ordinary Sample.guardrail Sample.glucose_5000 = true
  /\ exists testValidation,
       validateSingleTest Sample.guardrail Sample.glucose_5000
         (Some "Glucose 5000 mg/dL (High)") = Returns testValidation
       /\ isValid testValidation = true
       /\ confidence testValidation == 0.6.
Proof.
  assert (Hs : isValidTestStructure Sample.glucose_5000 = true) by reflexivity.
  assert (Hm : isTestMentionedInOriginal Sample.guardrail (Js.show (name Sample.glucose_5000))
                 (Some "Glucose 5000 mg/dL (High)") = Returns true)
    by (vm_compute; reflexivity).
  assert (Ho : Spec.ordinary Sample.guardrail Sample.glucose_5000 = true)
    by (vm_compute; reflexivity).
  split; [exact Hs|]. split; [exact Hm|]. split; [exact Ho|].
  destruct (plausibility_checks_only_warn Sample.guardrail (Some "Glucose 5000 mg/dL (High)")
              Sample.glucose_5000 Hs Hm Ho) as (u & tv & Hu & Htv & Hv & _ & Hc & _).
  exists tv. split; [exact Htv|]. split; [exact Hv|].
  rewrite Hc.
  assert (Eu : u = true) by (vm_compute in Hu; congruence).
  rewrite Eu. vm_compute. reflexivity.
Defined.

Lemma final_status_by_confidence_witness :
  exists r v,
    validateTests Sample.guardrail [Sample.glucose_5000] (Some "Glucose 5000 mg/dL (High)")
    = Returns r
    /\ r_validation r = Some v
    /\ v_confidence v == 0.6
    /\ v_status v = "ok_with_warnings".
Proof.
  do 2 eexists. split; [vm_compute; reflexivity|].
  split; [reflexivity|].
  split; [vm_compute; reflexivity|].
  refine (proj1 (proj2 (proj2 (proj2 (proj2
            (final_status_by_confidence Sample.guardrail (Some "Glucose 5000 mg/dL (High)")
               [Sample.glucose_5000] _ _ _ _))))) _ _).
  - vm_compute. reflexivity.
  - reflexivity.
  - vm_compute. discriminate.
  - discriminate.
Defined.

Lemma validated_tests_subsequence_witness :
  exists r v,
    validateTests Sample.guardrail [Sample.glucose_no_unit; Sample.hemoglobin_low]
      (Some Sample.report) = Returns r
    /\ r_validation r = Some v
    /\ validated_tests v = [Sample.hemoglobin_low]
    /\ sublist (validated_tests v) [Sample.glucose_no_unit; Sample.hemoglobin_low].
Proof.
  do 2 eexists. split; [vm_compute; reflexivity|].
  split; [reflexivity|].
  split; [reflexivity|].
  refine (proj1 (proj2 (validated_tests_subsequence Sample.guardrail (Some Sample.report)
                          [Sample.glucose_no_unit; Sample.hemoglobin_low] _ _ _ _))).
  - vm_compute. reflexivity.
  - reflexivity.
Defined.

(** The report of the first scenario mentions its hemoglobin record. *)
Lemma mention_check_criterion_witness :
  exists mentioned,
    isTestMentionedInOriginal Sample.guardrail "Hemoglobin" (Some Sample.report)
    = Returns mentioned
    /\ (mentioned = true <->
        Sample.report = "" \/ Spec.traceable Sample.guardrail "Hemoglobin" Sample.report).
Proof.
  apply (mention_check_criterion Sample.guardrail "Hemoglobin" (Some Sample.report));
    vm_compute; reflexivity.
Defined.

End Witnesses.

Section MatcherWitnesses.

Import SimilarityMatcher.
Open Scope Q_scope.


Lemma unit_never_blocks_name_match_witness :
  findBestTestNameMatch Sample.matcher (Some "Hemoglobin") = Some (exact "hemoglobin" "direct_lookup")
  /\ kb_get_opt (knowledgeBase Sample.matcher) (Some "hemoglobin")
     = Some (entry "Hemoglobin" "g/dL" ["hgb"; "hb"; "hemglobin"; "heoglobin"; "hemglobin"]
               12.0 15.0 0 30)
  /\ exists r,
       findBestTestMatch Sample.matcher (Some "Hemoglobin") (Fin 10.2) None (Some "Low") = Some r
       /\ match_unit r =
            {| matched := Some "g/dL"; similarity := 1.0; confidence := "default";
               method := None |}.
Proof.
  assert (Hname : findBestTestNameMatch Sample.matcher (Some "Hemoglobin")
                  = Some (exact "hemoglobin" "direct_lookup")) by (vm_compute; reflexivity).
  assert (Hdata : kb_get_opt (knowledgeBase Sample.matcher)
                    (matched (exact "hemoglobin" "direct_lookup"))
                  = Some (entry "Hemoglobin" "g/dL"
                            ["hgb"; "hb"; "hemglobin"; "heoglobin"; "hemglobin"]
                            12.0 15.0 0 30))
    by reflexivity.
  split; [exact Hname|]. split; [exact Hdata|].
  destruct (unit_never_blocks_name_match Sample.matcher (Some "Hemoglobin") (Fin 10.2) None
              (Some "Low") _ _ Hname Hdata) as (r & Hr & _ & _ & _ & Hdefault & _).
  exists r. split; [exact Hr|]. apply Hdefault. reflexivity.
Defined.

(** The display name of the white cell count, with the libraries loaded. *)
Lemma exact_match_dominance_witness :
  (Spec.is_key MEDICAL_DATA (Js.toLowerCase (Js.trim " WBC "))
   \/ Spec.is_folded_key MEDICAL_DATA (Js.toLowerCase (Js.trim " WBC "))
   \/ Spec.is_display MEDICAL_DATA (Js.toLowerCase (Js.trim " WBC "))
   \/ Spec.is_alias MEDICAL_DATA (Js.toLowerCase (Js.trim " WBC ")))
  /\ exists key meth,
       findBestTestNameMatch
         (new (Some (Sample.index_scoring Sample.epsilon)) MEDICAL_DATA) (Some " WBC ") =
         Some {| matched := Some key; similarity := 1; confidence := "exact";
                 method := Some meth |}
       /\ (meth = "exact_match" \/ meth = "direct_lookup").
Proof.
  assert (Hd : Spec.is_display MEDICAL_DATA (Js.toLowerCase (Js.trim " WBC "))).
  { exists "wbc",
      (entry "WBC" "/uL" ["white blood cells"; "white blood cell count"; "wbc count"]
         4000 11000 0 100000), "WBC".
    split; [right; left; reflexivity|]. split; [reflexivity|].
    split; [discriminate|reflexivity]. }
  split; [right; right; left; exact Hd|].
  apply (exact_match_dominance (Some (Sample.index_scoring Sample.epsilon)) " WBC ").
  right. right. left. exact Hd.
Defined.

(** A display name that is in neither exact table, without the libraries. *)
Example indexed_name_without_libraries :
  exists key meth s,
    findBestTestNameMatch (new None Sample.vitamin_catalog) (Some " Vitamin D") =
      Some {| matched := Some key; similarity := s; confidence := "exact";
              method := Some meth |}
    /\ s == 1.
Proof.
  apply indexed_name_answer; [discriminate| |exact I].
  left. exists "vitd", (entry "Vitamin D" "ng/mL" ["25-oh d"] 30 100 0 500), "Vitamin D".
  split; [simpl; auto|]. split; [reflexivity|]. split; [discriminate|reflexivity].
Qed.

(** The three ways to an exact match on the sample inputs: an alias, a key,
    and a display name through the index when the libraries are loaded. *)
Example exact_match_paths :
  findBestTestNameMatch Sample.matcher (Some "HGB") = Some (exact "hemoglobin" "exact_match")
  /\ findBestTestNameMatch Sample.matcher (Some " Glucose ") = Some (exact "glucose" "direct_lookup")
  /\ findBestTestNameMatch (new None Sample.vitamin_catalog) (Some "vitamin d")
     = Some {| matched := Some "vitd"; similarity := 81000 # 81000;
               confidence := "exact"; method := Some "advanced_string" |}
  /\ findBestTestNameMatch (new (Some (Sample.index_scoring 0)) Sample.vitamin_catalog)
       (Some "vitamin d")
     = Some {| matched := Some "vitd"; similarity := 1 - 0; confidence := "exact";
               method := Some "fuse_fuzzy" |}.
Proof. repeat split; vm_compute; reflexivity. Qed.

End MatcherWitnesses.

(** ** Further checks on the sample inputs *)

Section Scenarios.

Import Guardrail.

(** A typed name resolves to the catalog entry and the status is
    recomputed from the range, against the token of the report. *)
Example normalize_hemoglobin :
  Normalizer.normalizeIndividualTest (Normalizer.new None MEDICAL_DATA)
    {| Normalizer.rawTestName := Some "Heoglobin";
       Normalizer.value := VString "10.2";
       Normalizer.unit := Some "g/dL";
       Normalizer.status := Some "high";
       Normalizer.confidence := None |}
  = Some ({| Normalizer.n_name := Some "Hemoglobin";
             Normalizer.n_value := Fin (102 # 10);
             Normalizer.n_unit := Some "g/dL";
             Normalizer.n_status := "low";
             Normalizer.n_ref_range := {| low := 12.0; high := 15.0 |} |},
          Qmax 0 (Qmin 1 (0.8 + 0.05 + 0.05))).
Proof. vm_compute. reflexivity. Qed.

(** The report of the first scenario validates to ["ok"]. *)
Example validate_hemoglobin :
  exists r,
    validateTests Sample.guardrail [Sample.hemoglobin_low] (Some Sample.report) = Returns r
    /\ r_status r = "ok".
Proof. eexists. split; vm_compute; reflexivity. Qed.

(** The fuzzy matcher of [HallucinationValidator] is stricter than the one
    of the guardrail: a token at similarity 0.8 passes the bound 0.7 of the
    latter and not the bound 0.8 of the former. *)
Example validator_fuzzy_is_stricter :
  fuzzyMatchInText "hemoglobin" "hemoglobxx 10" = true
  /\ HallucinationValidator.fuzzyMatch "hemoglobin" "hemoglobxx 10" = false
  /\ HallucinationValidator.fuzzyMatch "hgb" "hgb 10" = false.
Proof. repeat split; vm_compute; reflexivity. Qed.

End Scenarios.

(** * Further properties *)

(** ** The edit distance is a metric *)

Section DistanceMetric.

Import Lev.

Lemma edits_symmetric (s t : list ascii) (n : nat) : edits s t n -> edits t s n.
Proof. induction 1; constructor; assumption. Qed.

Lemma edits_none (s t : list ascii) (n : nat) : edits s t n -> n = 0%nat -> s = t.
Proof. induction 1; intros Hn; try discriminate; [reflexivity|]. f_equal. auto. Qed.

Lemma edits_lengths (s t : list ascii) (n : nat) :
  edits s t n -> (length s <= length t + n /\ length t <= length s + n)%nat.
Proof. induction 1; simpl; lia. Qed.

(** Two sequences of edits compose into one that is no longer than both
    together. *)
Lemma edits_compose (s t : list ascii) (n : nat) :
  edits s t n ->
  forall u m, edits t u m -> exists k, (k <= n + m)%nat /\ edits s u k.
Proof.
  induction 1 as [|c s t n H1 IH|c d s t n H1 IH|c s t n H1 IH|d s t n H1 IH];
    intros u m H2.
  - exists m. split; [lia|exact H2].
  - remember (c :: t) as t0 eqn:Et. revert Et.
    induction H2 as [|c' t' u' m' H2 _|c' d' t' u' m' H2 _|c' t' u' m' H2 _|d' t' u' m' H2 IH2];
      intros Et; try discriminate.
    + injection Et as -> ->. destruct (IH _ _ H2) as (k & Hk & E).
      exists k. split; [lia|now constructor].
    + injection Et as -> ->. destruct (IH _ _ H2) as (k & Hk & E).
      exists (S k). split; [lia|now constructor].
    + injection Et as -> ->. destruct (IH _ _ H2) as (k & Hk & E).
      exists (S k). split; [lia|now apply edits_delete].
    + destruct (IH2 Et) as (k & Hk & E).
      exists (S k). split; [lia|now apply edits_insert].
  - remember (d :: t) as t0 eqn:Et. revert Et.
    induction H2 as [|c' t' u' m' H2 _|c' d' t' u' m' H2 _|c' t' u' m' H2 _|d' t' u' m' H2 IH2];
      intros Et; try discriminate.
    + injection Et as -> ->. destruct (IH _ _ H2) as (k & Hk & E).
      exists (S k). split; [lia|now constructor].
    + injection Et as -> ->. destruct (IH _ _ H2) as (k & Hk & E).
      exists (S k). split; [lia|now constructor].
    + injection Et as -> ->. destruct (IH _ _ H2) as (k & Hk & E).
      exists (S k). split; [lia|now apply edits_delete].
    + destruct (IH2 Et) as (k & Hk & E).
      exists (S k). split; [lia|now apply edits_insert].
  - destruct (IH _ _ H2) as (k & Hk & E).
    exists (S k). split; [lia|now apply edits_delete].
  - remember (d :: t) as t0 eqn:Et. revert Et.
    induction H2 as [|c' t' u' m' H2 _|c' d' t' u' m' H2 _|c' t' u' m' H2 _|d' t' u' m' H2 IH2];
      intros Et; try discriminate.
    + injection Et as -> ->. destruct (IH _ _ H2) as (k & Hk & E).
      exists (S k). split; [lia|now apply edits_insert].
    + injection Et as -> ->. destruct (IH _ _ H2) as (k & Hk & E).
      exists (S k). split; [lia|now apply edits_insert].
    + injection Et as -> ->. destruct (IH _ _ H2) as (k & Hk & E).
      exists k. split; [lia|exact E].
    + destruct (IH2 Et) as (k & Hk & E).
      exists (S k). split; [lia|now apply edits_insert].
Qed.

Lemma chars_inj (a b : string) : chars a = chars b -> a = b.
Proof.
  intros H. rewrite <- (string_of_list_ascii_of_string a), <- (string_of_list_ascii_of_string b).
  unfold chars in H. now rewrite H.
Qed.

(** What the matrix code returns: a number of edits that is reached and
    least. *)
Lemma levenshteinDistance_least (a b : string) :
  edits (chars a) (chars b) (levenshteinDistance a b)
  /\ forall n, edits (chars a) (chars b) n -> (levenshteinDistance a b <= n)%nat.
Proof. rewrite levenshteinDistance_correct. apply edit_distance_least. Qed.

Lemma distance_comm (a b : string) : levenshteinDistance a b = levenshteinDistance b a.
Proof.
  destruct (levenshteinDistance_least a b) as [Hab Lab].
  destruct (levenshteinDistance_least b a) as [Hba Lba].
  apply edits_symmetric in Hab, Hba.
  apply Nat.le_antisymm; auto.
Qed.

Lemma distance_eq_0 (a b : string) : levenshteinDistance a b = 0%nat <-> a = b.
Proof.
  split.
  - intros H. destruct (levenshteinDistance_least a b) as [Hab _].
    apply chars_inj. eapply edits_none; eauto.
  - intros ->. rewrite levenshteinDistance_correct. apply upto_diag.
Qed.

(** X1. The distance does not depend on the order of its arguments, although
    the matrix has a row for each character of the second and a column for
    each character of the first. *)
Theorem levenshteinDistance_symmetric (a b : string) :
  levenshteinDistance a b = levenshteinDistance b a.
Proof. apply distance_comm. Qed.

(** X2. The distance is 0 exactly between a string and itself. *)
Theorem levenshteinDistance_zero_iff (a b : string) :
  levenshteinDistance a b = 0%nat <-> a = b.
Proof. apply distance_eq_0. Qed.

(** X3. The triangle inequality. *)
Theorem levenshteinDistance_triangle (a b c : string) :
  (levenshteinDistance a c <= levenshteinDistance a b + levenshteinDistance b c)%nat.
Proof.
  destruct (levenshteinDistance_least a b) as [Hab _].
  destruct (levenshteinDistance_least b c) as [Hbc _].
  destruct (levenshteinDistance_least a c) as [_ Lac].
  destruct (edits_compose _ _ _ Hab _ _ Hbc) as (k & Hk & E).
  specialize (Lac k E). lia.
Qed.

(** X4. The distance is at least the difference of the lengths and at most the
    greater length. *)
Theorem levenshteinDistance_length_bounds (a b : string) :
  (String.length a - String.length b <= levenshteinDistance a b)%nat
  /\ (String.length b - String.length a <= levenshteinDistance a b)%nat
  /\ (levenshteinDistance a b <= Nat.max (String.length a) (String.length b))%nat.
Proof.
  destruct (levenshteinDistance_least a b) as [Hab _].
  apply edits_lengths in Hab. rewrite !chars_length in Hab.
  repeat split; try lia.
  rewrite levenshteinDistance_correct. apply upto_le_max.
Qed.

End DistanceMetric.

(** ** Similarity scores at their ends *)

Section SimilarityEnds.

Import SimilarityMatcher.
Open Scope Q_scope.

Lemma ratio_zero (n m : nat) : (0 < m)%nat -> Q_of_nat n / Q_of_nat m == 0 -> n = 0%nat.
Proof.
  intros Hm H. destruct n as [|n]; [reflexivity|]. exfalso.
  assert (Hn : 0 < Q_of_nat (S n)) by (apply Q_of_nat_pos; lia).
  assert (Hm' : 0 < Q_of_nat m) by (apply Q_of_nat_pos; lia).
  assert (Hpos : 0 < Q_of_nat (S n) / Q_of_nat m).
  { unfold Qdiv. apply Qmult_lt_0_compat; [exact Hn|]. now apply Qinv_lt_0_compat. }
  rewrite H in Hpos. now apply Qlt_irrefl in Hpos.
Qed.

Lemma levenshteinSimilarity_eq_1 (a b : string) : levenshteinSimilarity a b == 1 <-> a = b.
Proof.
  unfold levenshteinSimilarity, levenshteinDistance.
  destruct (Nat.max (String.length a) (String.length b) =? 0)%nat eqn:E.
  - apply Nat.eqb_eq, max_length_0 in E. destruct E as [-> ->].
    split; reflexivity.
  - apply Nat.eqb_neq in E. split.
    + intros H. apply distance_eq_0.
      apply (ratio_zero _ (Nat.max (String.length a) (String.length b))); [lia|].
      lra.
    + intros ->. rewrite (proj2 (distance_eq_0 b b) eq_refl).
      unfold Q_of_nat at 1. simpl. unfold Qdiv. rewrite Qmult_0_l. reflexivity.
Qed.

(** X5. [levenshteinSimilarity] does not depend on the order of its arguments
    and is 1 exactly on equal strings. *)
Theorem levenshteinSimilarity_symmetric_one (a b : string) :
  levenshteinSimilarity a b = levenshteinSimilarity b a
  /\ (levenshteinSimilarity a b == 1 <-> a = b).
Proof.
  split; [|apply levenshteinSimilarity_eq_1].
  unfold levenshteinSimilarity, levenshteinDistance.
  now rewrite distance_comm, Nat.max_comm.
Qed.

(** X8. The fallback blend is 1 exactly on two equal, non-empty strings. *)
Theorem calculateStringSimilarity_one_iff (a b : string) :
  calculateStringSimilarity a b == 1 <-> a = b /\ a <> "".
Proof.
  split.
  - unfold calculateStringSimilarity.
    destruct (Js.truthy a) eqn:Ha; [|intros H; simpl in H; discriminate H].
    destruct (Js.truthy b) eqn:Hb; [|intros H; simpl in H; discriminate H].
    simpl. intros H.
    pose proof (levenshteinSimilarity_bounds a b) as [_ Hl].
    pose proof (jaroSimilarity_bounds a b) as [_ Hj].
    pose proof (substringsimilarity_bounds a b) as [_ Hs].
    assert (Hone : levenshteinSimilarity a b == 1) by lra.
    split; [now apply levenshteinSimilarity_eq_1|].
    intros ->. discriminate Ha.
  - intros [-> Hne]. now apply calculateStringSimilarity_self.
Qed.

Lemma getNGrams_empty (s : string) (n : nat) :
  (String.length s < n)%nat -> getNGrams s n = [].
Proof.
  intros H. unfold getNGrams.
  replace (S (String.length s) - n)%nat with 0%nat by lia. reflexivity.
Qed.

Lemma getNGrams_nonempty (s : string) (n : nat) :
  (n <= String.length s)%nat -> getNGrams s n <> [].
Proof.
  intros H. unfold getNGrams.
  destruct (S (String.length s) - n)%nat eqn:E; [lia|]. discriminate.
Qed.

Lemma toLowerCase_length (s : string) : String.length (Js.toLowerCase s) = String.length s.
Proof. induction s; simpl; [reflexivity|now f_equal]. Qed.

(** X9. The n-gram similarity does not depend on the order of its arguments;
    it is 1 on two strings of at least [n] characters that are equal up to
    letter case, and 0 on two strings shorter than [n], equal or not. *)
Theorem calculateNGramSimilarity_ends (a b : string) (n : nat) :
  calculateNGramSimilarity a b n = calculateNGramSimilarity b a n
  /\ ((n <= String.length a)%nat -> Js.toLowerCase a = Js.toLowerCase b ->
      calculateNGramSimilarity a b n == 1)
  /\ ((String.length a < n)%nat -> (String.length b < n)%nat ->
      calculateNGramSimilarity a b n = 0).
Proof.
  unfold calculateNGramSimilarity. split; [|split].
  - set (X := list_to_set (getNGrams (Js.toLowerCase a) n) : gset string).
    set (Y := list_to_set (getNGrams (Js.toLowerCase b) n) : gset string).
    assert (Hi : X ∩ Y = Y ∩ X) by apply (comm_L _).
    assert (Hu : X ∪ Y = Y ∪ X) by apply (comm_L _).
    now rewrite Hi, Hu.
  - intros Hn <-.
    set (X := list_to_set (getNGrams (Js.toLowerCase a) n) : gset string).
    assert (Hi : X ∩ X = X) by apply (idemp_L _).
    assert (Hu : X ∪ X = X) by apply (idemp_L _).
    rewrite Hi, Hu.
    assert (Hpos : size X <> 0%nat).
    { apply size_non_empty_iff. unfold X.
      pose proof (getNGrams_nonempty (Js.toLowerCase a) n) as Hne.
      rewrite toLowerCase_length in Hne. specialize (Hne Hn).
      destruct (getNGrams (Js.toLowerCase a) n) as [|x l]; [contradiction|].
      intros Hempty. apply (not_elem_of_empty (C := gset string) x).
      rewrite <- Hempty. apply elem_of_list_to_set. left. }
    destruct (size X =? 0)%nat eqn:E; [apply Nat.eqb_eq in E; contradiction|].
    apply ratio_self. lia.
  - intros Ha Hb.
    rewrite !getNGrams_empty by (rewrite toLowerCase_length; assumption).
    reflexivity.
Qed.

End SimilarityEnds.

(** ** What the cascades of the matcher return *)

Section MatcherAnswers.

Import SimilarityMatcher.
Open Scope Q_scope.

Lemma accept_inv (threshold : Q) (meth : string) (x : option (string * Q)) (r : Match) :
  accept threshold meth x = Some r ->
  exists key, x = Some (key, similarity r)
    /\ matched r = Some key
    /\ threshold <= similarity r
    /\ confidence r = getConfidenceLevel (similarity r)
    /\ method r = Some meth.
Proof.
  unfold accept. destruct x as [[key sim]|]; [|discriminate].
  destruct (Num.Qleb threshold sim) eqn:E; [|discriminate].
  intros [= <-]. simpl. exists key. apply Qleb_le in E. auto.
Qed.

Lemma fuse_step_inv {A : Type} (engine : option (string -> list (FuseResult A)))
    (key_of : A -> string) (threshold : Q) (c : string) (r : Match) :
  fuse_step engine key_of threshold c = Some r ->
  threshold <= similarity r
  /\ confidence r = getConfidenceLevel (similarity r)
  /\ method r = Some "fuse_fuzzy"
  /\ exists key, matched r = Some key.
Proof.
  unfold fuse_step. destruct engine as [search|]; [|discriminate].
  destruct (search c) as [|best rest]; [discriminate|].
  intros H. apply accept_inv in H. destruct H as (key & _ & Hm & Ht & Hc & Hmeth). eauto.
Qed.

Lemma or_else_inv {A : Type} (a b : option A) (r : A) :
  or_else a b = Some r -> a = Some r \/ (a = None /\ b = Some r).
Proof. destruct a; simpl; auto. Qed.

Lemma exact_tier : getConfidenceLevel 1 = "exact".
Proof. reflexivity. Qed.

Lemma cascade_answers (m : t) (input : option string) :
  (forall r, findBestTestNameMatch m input = Some r ->
     threshold_testName <= similarity r
     /\ confidence r = getConfidenceLevel (similarity r)
     /\ exists key, matched r = Some key)
  /\ (forall r, findBestUnitMatch m input = Some r ->
        threshold_unit <= similarity r
        /\ confidence r = getConfidenceLevel (similarity r)
        /\ exists key, matched r = Some key)
  /\ (forall r, findBestStatusMatch m input = Some r ->
        threshold_status <= similarity r
        /\ confidence r = getConfidenceLevel (similarity r)
        /\ exists key, matched r = Some key).
Proof.
  assert (Hexact : forall th key meth,
            th <= 1 ->
            th <= similarity (exact key meth)
            /\ confidence (exact key meth) = getConfidenceLevel (similarity (exact key meth))
            /\ exists k, matched (exact key meth) = Some k).
  { intros th key meth Hth. simpl. split; [exact Hth|]. split; [reflexivity|eauto]. }
  assert (Haccept : forall th th' meth x r,
            th <= th' -> accept th' meth x = Some r ->
            th <= similarity r /\ confidence r = getConfidenceLevel (similarity r)
            /\ exists key, matched r = Some key).
  { intros th th' meth x r Hth H. apply accept_inv in H.
    destruct H as (key & _ & Hm & Ht & Hc & _). split; [lra|]. split; [exact Hc|eauto]. }
  assert (Hfuse : forall (A : Type) engine (key_of : A -> string) th c r,
            fuse_step engine key_of th c = Some r ->
            th <= similarity r /\ confidence r = getConfidenceLevel (similarity r)
            /\ exists key, matched r = Some key).
  { intros A engine key_of th c r H. apply fuse_step_inv in H.
    destruct H as (Ht & Hc & _ & Hk). auto. }
  destruct input as [input|]; [|repeat split; discriminate].
  split; [|split]; intros r.
  - unfold findBestTestNameMatch.
    destruct (negb (Js.truthy input)); [discriminate|].
    destruct (testAliases m !! _) as [key|].
    { intros [= <-]. apply Hexact. unfold threshold_testName. lra. }
    destruct (kb_get _ _) as [d|].
    { intros [= <-]. apply Hexact. unfold threshold_testName. lra. }
    intros H. apply or_else_inv in H. destruct H as [H | [_ H]]; [eapply Hfuse, H|].
    apply or_else_inv in H. destruct H as [H | [_ H]].
    { eapply Haccept; [|exact H]. unfold threshold_testName, threshold_phonetic. lra. }
    apply or_else_inv in H. destruct H as [H | [_ H]].
    { eapply Haccept; [|exact H]. lra. }
    eapply Haccept; [|exact H]. unfold threshold_testName, threshold_semantic. lra.
  - unfold findBestUnitMatch.
    destruct (negb (Js.truthy input)); [discriminate|].
    destruct (existsb _ (units m)).
    { intros [= <-]. apply Hexact. unfold threshold_unit. lra. }
    intros H. apply or_else_inv in H. destruct H as [H | [_ H]]; [eapply Hfuse, H|].
    eapply Haccept; [|exact H]. lra.
  - unfold findBestStatusMatch.
    destruct (negb (Js.truthy input)); [discriminate|].
    destruct (existsb _ baseStatuses).
    { intros [= <-]. apply Hexact. unfold threshold_status. lra. }
    intros H. apply or_else_inv in H. destruct H as [H | [_ H]]; [eapply Hfuse, H|].
    apply or_else_inv in H. destruct H as [H | [_ H]].
    { eapply Haccept; [|exact H]. unfold threshold_status, threshold_phonetic. lra. }
    eapply Haccept; [|exact H]. lra.
Qed.

(** X10. Whatever step of the cascade answers, the match it returns clears the
    threshold of its field (0.5 for a name, 0.6 for a unit, 0.5 for a
    status), names what it matched, and carries the tier that
    [getConfidenceLevel] gives its similarity. *)
Theorem match_clears_threshold (m : t) (input : option string) :
  (forall r, findBestTestNameMatch m input = Some r ->
     threshold_testName <= similarity r
     /\ confidence r = getConfidenceLevel (similarity r)
     /\ exists key, matched r = Some key)
  /\ (forall r, findBestUnitMatch m input = Some r ->
        threshold_unit <= similarity r
        /\ confidence r = getConfidenceLevel (similarity r)
        /\ exists key, matched r = Some key)
  /\ (forall r, findBestStatusMatch m input = Some r ->
        threshold_status <= similarity r
        /\ confidence r = getConfidenceLevel (similarity r)
        /\ exists key, matched r = Some key).
Proof. apply cascade_answers. Qed.

Lemma tier_not_low (s : Q) : 0.6 <= s -> String.eqb (getConfidenceLevel s) "low" = false.
Proof.
  intros H. unfold getConfidenceLevel.
  destruct (Num.Qleb threshold_exact s); [reflexivity|].
  destruct (Num.Qleb 0.8 s); [reflexivity|].
  replace (Num.Qleb 0.6 s) with true by (symmetry; now apply Qleb_le).
  reflexivity.
Qed.

(** X11. A unit match is never of tier ["low"]: its threshold 0.6 is the lower
    end of ["medium"].  So in [findBestTestMatch] a supplied unit is
    replaced by the assumed catalog unit exactly when [findBestUnitMatch]
    finds nothing; the test for a low tier never fires. *)
Theorem unit_match_never_low (m : t) (testName : option string) (value : JsNumber)
    (unit status : option string) (tm : TestMatch) :
  Js.truthy_opt unit = true ->
  findBestTestMatch m testName value unit status = Some tm ->
  match findBestUnitMatch m unit with
  | Some um => match_unit tm = um /\ confidence um <> "low"
  | None =>
      match_unit tm =
        {| matched := td_unit (testData tm); similarity := 0.8;
           confidence := "assumed"; method := None |}
  end.
Proof.
  intros Hu. unfold findBestTestMatch.
  destruct (findBestTestNameMatch m testName) as [nameMatch|]; [|discriminate].
  destruct (kb_get_opt _ _) as [data|]; [|discriminate].
  rewrite Hu. intros [= <-]. simpl.
  destruct (findBestUnitMatch m unit) as [um|] eqn:E; [|reflexivity].
  destruct (cascade_answers m unit) as (_ & Hunit & _).
  destruct (Hunit um E) as (Hth & Hc & _).
  assert (Hlow : String.eqb (confidence um) "low" = false)
    by (rewrite Hc; apply tier_not_low; exact Hth).
  rewrite Hlow. split; [reflexivity|].
  intros Habs. rewrite Habs in Hlow. discriminate.
Qed.

End MatcherAnswers.


(** ** The matcher answers with names it was built with *)

Section MatcherVocabulary.

Import SimilarityMatcher.
Open Scope Q_scope.

Lemma better_fold_inv (score_of : Candidate -> Q) (l : list Candidate) :
  forall acc c,
    fst (fold_left (better score_of) l acc) = Some c -> fst acc = Some c \/ In c l.
Proof.
  induction l as [|h l IH]; intros acc c H; simpl in *; [now left|].
  destruct (IH _ _ H) as [H0 | H0]; [|now right; right].
  unfold better in H0. destruct (Num.Qltb (snd acc) (score_of h)); simpl in H0.
  - injection H0 as <-. right. now left.
  - now left.
Qed.

Lemma scan_best_inv (score_of : Candidate -> Q) (l : list Candidate) (key : string) (s : Q) :
  scan_best score_of l = Some (key, s) -> exists c, In c l /\ cand_key c = key.
Proof.
  unfold scan_best.
  destruct (fold_left (better score_of) l (None, 0)) as [[c|] bs] eqn:E; [|discriminate].
  intros [= <- _]. exists c. split; [|reflexivity].
  destruct (better_fold_inv score_of l (None, 0) c) as [H | H]; [now rewrite E|discriminate|exact H].
Qed.

Lemma set_add_In (x : string) (s : list string) (u : string) :
  In u (set_add x s) -> u = x \/ In u s.
Proof.
  unfold set_add. destruct (existsb _ s); [now right|].
  intros H. apply in_app_or in H. destruct H as [H | [<- | []]]; auto.
Qed.

Lemma fold_set_add_In (base us : list string) (u : string) :
  In u (fold_left (fun s x => set_add x s) base us) -> In u base \/ In u us.
Proof.
  revert us. induction base as [|b base IH]; intros us H; simpl in *; [now right|].
  destruct (IH _ H) as [H0 | H0]; [now left; right|].
  apply set_add_In in H0. destruct H0 as [-> | H0]; auto.
Qed.

Section Tables.

Variable K : string -> Prop.
Variable P : string -> Prop.

Lemma add_alias_inv (key : string) (al : list string) :
  K key -> forall tb, Inv.tables K P tb -> Inv.tables K P (fold_left (add_alias key) al tb).
Proof.
  intros Hk. induction al as [|a al IH]; intros tb Htb; simpl; [exact Htb|].
  apply IH. destruct Htb as (Ha & Hn & Hu). repeat split; simpl.
  - intros c k. destruct (decide (Js.toLowerCase a = c)) as [<-|Hne].
    + rewrite lookup_insert_eq. now intros [= <-].
    + rewrite lookup_insert_ne by exact Hne. apply Ha.
  - intros x Hx. apply in_app_or in Hx. destruct Hx as [Hx | [<- | []]]; auto.
  - exact Hu.
Qed.

Lemma add_entry_inv (tb : Tables) (key : string) (data : TestData) :
  K key -> (forall u, td_unit data = Some u -> P u) ->
  Inv.tables K P tb -> Inv.tables K P (add_entry tb (key, data)).
Proof.
  intros Hk Hunit (Ha & Hn & Hu). unfold add_entry.
  assert (H1 : Inv.tables K P
    {| tb_aliases := tb_aliases tb;
       tb_units :=
         match td_unit data with
         | Some u => if Js.truthy u then set_add u (tb_units tb) else tb_units tb
         | None => tb_units tb
         end;
       tb_names :=
         match td_name data with
         | Some n =>
             if Js.truthy n
             then (tb_names tb ++
                   [{| cand_name := Js.toLowerCase key; cand_key := key;
                       cand_type := Some "primary" |}]) ++
                  [{| cand_name := Js.toLowerCase n; cand_key := key;
                      cand_type := Some "display" |}]
             else tb_names tb ++
                  [{| cand_name := Js.toLowerCase key; cand_key := key;
                      cand_type := Some "primary" |}]
         | None => tb_names tb ++
                  [{| cand_name := Js.toLowerCase key; cand_key := key;
                      cand_type := Some "primary" |}]
         end |}).
  { repeat split; simpl.
    - exact Ha.
    - intros x Hx.
      assert (Hx' : In x (tb_names tb) \/ cand_key x = key).
      { destruct (td_name data) as [n|]; [destruct (Js.truthy n)|];
          repeat (apply in_app_or in Hx; destruct Hx as [Hx | Hx]);
          try (destruct Hx as [<- | []]); auto. }
      destruct Hx' as [Hx' | ->]; auto.
    - intros u Hin. destruct (td_unit data) as [u0|] eqn:Eu; [|auto].
      destruct (Js.truthy u0); [|auto].
      apply set_add_In in Hin. destruct Hin as [-> | Hin]; auto. }
  destruct (td_aliases data) as [al|]; [|exact H1].
  now apply add_alias_inv.
Qed.

Lemma fold_entries_inv (kb : KnowledgeBase) :
  (forall key data, In (key, data) kb ->
     K key /\ forall u, td_unit data = Some u -> P u) ->
  forall tb, Inv.tables K P tb -> Inv.tables K P (fold_left add_entry kb tb).
Proof.
  induction kb as [|[key data] kb IH]; intros Hkb tb Htb; simpl; [exact Htb|].
  apply IH; [intros k d Hin; apply Hkb; now right|].
  destruct (Hkb key data (or_introl eq_refl)) as [Hk Hu].
  now apply add_entry_inv.
Qed.

Lemma buildLookupTables_inv (kb : KnowledgeBase) :
  (forall key data, In (key, data) kb ->
     K key /\ forall u, td_unit data = Some u -> P u) ->
  (forall u, In u baseUnits -> P u) ->
  Inv.tables K P (buildLookupTables kb).
Proof.
  intros Hkb Hbase. unfold buildLookupTables.
  destruct (fold_entries_inv kb Hkb {| tb_aliases := ∅; tb_units := []; tb_names := [] |})
    as (Ha & Hn & Hu).
  { repeat split; simpl; try contradiction. intros c k. now rewrite lookup_empty. }
  split; [exact Ha|]. split; [exact Hn|].
  intros u Hin. cbn [tb_units] in Hin.
  apply fold_set_add_In in Hin. destruct Hin as [Hin | Hin]; auto.
Qed.

End Tables.

(** The keys in the tables of a matcher are keys of its catalog, and its
    units are catalog units or base units. *)
Lemma tables_from_catalog (l : option NlpLibs) (kb : KnowledgeBase) :
  (forall c k, testAliases (new l kb) !! c = Some k -> In k (map fst kb))
  /\ (forall x, In x (testNamesArray (new l kb)) -> In (cand_key x) (map fst kb))
  /\ (forall u, In u (units (new l kb)) ->
        In u baseUnits \/ exists key data, In (key, data) kb /\ td_unit data = Some u).
Proof.
  apply (buildLookupTables_inv
           (fun k => In k (map fst kb))
           (fun u => In u baseUnits
                     \/ exists key data, In (key, data) kb /\ td_unit data = Some u)).
  - intros key data Hin. split.
    + change key with (fst (key, data)). now apply in_map.
    + intros u Hu. right. eauto.
  - intros u Hu. now left.
Qed.

Lemma phonetic_inv (m : t) (input : string) (type : FieldType) (key : string) (s : Q) :
  findPhoneticMatch m input type = Some (key, s) ->
  match type with
  | TestNameField => exists c, In c (testNamesArray m) /\ cand_key c = key
  | StatusField => In key baseStatuses
  end.
Proof.
  unfold findPhoneticMatch. destruct (libs m) as [L|]; [|discriminate].
  intros H. apply scan_best_inv in H. destruct H as (c & Hin & Hk).
  destruct type; [eauto|].
  apply in_map_iff in Hin. destruct Hin as (b & <- & Hb). now subst key.
Qed.

Lemma advanced_inv (m : t) (input : string) (names : list string) (key : string) (s : Q) :
  findAdvancedStringMatch m input (map plain_candidate names) = Some (key, s) ->
  In key names.
Proof.
  unfold findAdvancedStringMatch. intros H. apply scan_best_inv in H.
  destruct H as (c & Hin & Hk).
  apply in_map_iff in Hin. destruct Hin as (b & <- & Hb). now subst key.
Qed.

Lemma matcher_vocabulary (l : option NlpLibs) (kb : KnowledgeBase)
    (input : option string) :
  (forall r key, findBestTestNameMatch (new l kb) input = Some r ->
     method r <> Some "fuse_fuzzy" -> matched r = Some key ->
     In key (map fst kb)
     \/ (method r = Some "direct_lookup" /\ Js.inherited key = true))
  /\ (forall r u, findBestUnitMatch (new l kb) input = Some r ->
        method r <> Some "fuse_fuzzy" -> matched r = Some u ->
        In u baseUnits \/ exists key data, In (key, data) kb /\ td_unit data = Some u)
  /\ (forall r s, findBestStatusMatch (new l kb) input = Some r ->
        method r <> Some "fuse_fuzzy" -> matched r = Some s ->
        In s baseStatuses).
Proof.
  destruct (tables_from_catalog l kb) as (Haliases & Hnames & Hunits).
  destruct input as [input|]; [|repeat split; discriminate].
  split; [|split]; intros r key.
  - unfold findBestTestNameMatch.
    destruct (negb (Js.truthy input)); [discriminate|].
    destruct (testAliases (new l kb) !! _) as [k|] eqn:Ea.
    { intros [= <-] _ [= <-]. left. eapply Haliases, Ea. }
    destruct (kb_get _ _) as [d|] eqn:Ek.
    { intros [= <-] _ [= <-]. apply kb_get_cases in Ek.
      destruct Ek as [Ek | (_ & Ek & _)]; [left|right; split; [reflexivity|exact Ek]].
      apply own_In in Ek.
      change (Js.toLowerCase (Js.trim input))
        with (fst (Js.toLowerCase (Js.trim input), d)). now apply in_map. }
    intros H Hm Hkey. left. apply or_else_inv in H. destruct H as [H | [_ H]].
    { apply fuse_step_inv in H. destruct H as (_ & _ & Hf & _). contradiction. }
    apply or_else_inv in H. destruct H as [H | [_ H]].
    { apply accept_inv in H. destruct H as (k & Hx & Hk & _).
      apply phonetic_inv in Hx. destruct Hx as (c & Hin & Hc).
      assert (Ekey : k = key) by congruence. rewrite <- Ekey, <- Hc. now apply Hnames. }
    apply or_else_inv in H. destruct H as [H | [_ H]]; [|discriminate H].
    apply accept_inv in H. destruct H as (k & Hx & Hk & _).
    apply scan_best_inv in Hx. destruct Hx as (c & Hin & Hc).
    assert (Ekey : k = key) by congruence. rewrite <- Ekey, <- Hc. now apply Hnames.
  - unfold findBestUnitMatch.
    destruct (negb (Js.truthy input)); [discriminate|].
    destruct (existsb _ (units (new l kb))) eqn:Ex.
    { intros [= <-] _ [= <-]. apply existsb_exists in Ex.
      destruct Ex as (u & Hin & Hu). apply String.eqb_eq in Hu. subst u.
      now apply Hunits. }
    intros H Hm Hkey. apply or_else_inv in H. destruct H as [H | [_ H]].
    { apply fuse_step_inv in H. destruct H as (_ & _ & Hf & _). contradiction. }
    apply accept_inv in H. destruct H as (k & Hx & Hk & _).
    apply advanced_inv in Hx.
    assert (Ekey : k = key) by congruence. rewrite <- Ekey. now apply Hunits.
  - unfold findBestStatusMatch.
    destruct (negb (Js.truthy input)); [discriminate|].
    destruct (existsb _ baseStatuses) eqn:Ex.
    { intros [= <-] _ [= <-]. apply existsb_exists in Ex.
      destruct Ex as (u & Hin & Hu). apply String.eqb_eq in Hu. now subst u. }
    intros H Hm Hkey. apply or_else_inv in H. destruct H as [H | [_ H]].
    { apply fuse_step_inv in H. destruct H as (_ & _ & Hf & _). contradiction. }
    apply or_else_inv in H. destruct H as [H | [_ H]].
    { apply accept_inv in H. destruct H as (k & Hx & Hk & _).
      apply phonetic_inv in Hx. assert (Ekey : k = key) by congruence. now rewrite <- Ekey. }
    apply accept_inv in H. destruct H as (k & Hx & Hk & _).
    apply advanced_inv in Hx. assert (Ekey : k = key) by congruence. now rewrite <- Ekey.
Qed.

(** X12. Except for an answer of the search index, which is whatever the
    library returns, a name is matched to a key of the catalog or, by the
    direct lookup alone, to a name that the catalog object inherits from
    [Object.prototype]; a unit is matched to a unit of the catalog or a base
    unit, and a status to a base status. *)
Theorem matcher_answers_from_catalog (l : option NlpLibs) (kb : KnowledgeBase)
    (input : option string) :
  (forall r key, findBestTestNameMatch (new l kb) input = Some r ->
     method r <> Some "fuse_fuzzy" -> matched r = Some key ->
     In key (map fst kb)
     \/ (method r = Some "direct_lookup" /\ Js.inherited key = true))
  /\ (forall r u, findBestUnitMatch (new l kb) input = Some r ->
        method r <> Some "fuse_fuzzy" -> matched r = Some u ->
        In u baseUnits \/ exists key data, In (key, data) kb /\ td_unit data = Some u)
  /\ (forall r s, findBestStatusMatch (new l kb) input = Some r ->
        method r <> Some "fuse_fuzzy" -> matched r = Some s ->
        In s baseStatuses).
Proof. apply matcher_vocabulary. Qed.

Lemma no_index_no_fuse (kb : KnowledgeBase) (input : option string) (r : Match) :
  findBestTestNameMatch (new None kb) input = Some r -> method r <> Some "fuse_fuzzy".
Proof.
  destruct input as [input|]; [|discriminate].
  unfold findBestTestNameMatch.
  destruct (negb (Js.truthy input)); [discriminate|].
  destruct (testAliases (new None kb) !! _) as [k|]; [intros [= <-]; discriminate|].
  destruct (kb_get _ _) as [d|]; [intros [= <-]; discriminate|].
  simpl. intros H. apply or_else_inv in H. destruct H as [H | [_ H]]; [|discriminate H].
  apply accept_inv in H. destruct H as (key & _ & _ & _ & _ & ->).
  discriminate.
Qed.

Lemma own_key {A : Type} (object : list (string * A)) (key : string) :
  In key (map fst object) -> exists v, Js.own object key = Some v.
Proof.
  induction object as [|[k d] object IH]; [contradiction|]. simpl.
  destruct (String.eqb k key) eqn:E; [eauto|].
  intros [-> | H]; [|now apply IH]. rewrite String.eqb_refl in E. discriminate.
Qed.

(** Whatever name the matcher answers with, without the libraries, the
    catalog object holds a value under it. *)
Lemma matched_key_defined (kb : KnowledgeBase) (testName : option string) (r : Match) :
  findBestTestNameMatch (new None kb) testName = Some r ->
  exists key data,
    matched r = Some key /\ kb_get kb key = Some data
    /\ (Js.own kb key = Some data
        \/ (Js.own kb key = None /\ Js.inherited key = true /\ data = inherited_entry key)).
Proof.
  intros E.
  destruct (cascade_answers (new None kb) testName) as (Hname & _).
  destruct (Hname r E) as (_ & _ & key & Hkey).
  destruct (matcher_vocabulary None kb testName) as (Hin & _).
  exists key.
  destruct (Hin r key E (no_index_no_fuse kb testName r E) Hkey) as [Hk | [_ Hk]].
  - destruct (own_key kb key Hk) as (data & Hdata).
    exists data. split; [exact Hkey|]. split; [now apply kb_get_own|now left].
  - destruct (kb_get kb key) as [data|] eqn:Hdata.
    + exists data. split; [exact Hkey|]. split; [reflexivity|]. now apply kb_get_cases.
    + unfold kb_get, Js.get in Hdata. rewrite Hk in Hdata.
      destruct (Js.own kb key); discriminate.
Qed.

(** X13. Without the libraries, a name that matches always gives a composed
    match, whatever the value, the unit and the status: [findBestTestMatch]
    returns [null] exactly when [findBestTestNameMatch] does.  The composed
    match carries the name match and, as its data, what the catalog object
    holds under the matched key: the entry of that key or, for a name that
    is no key and that every object inherits, the inherited value. *)
Theorem composed_match_iff_name_match (kb : KnowledgeBase) (testName : option string)
    (value : JsNumber) (unit status : option string) :
  (findBestTestMatch (new None kb) testName value unit status = None
   <-> findBestTestNameMatch (new None kb) testName = None)
  /\ forall tm,
       findBestTestMatch (new None kb) testName value unit status = Some tm ->
       findBestTestNameMatch (new None kb) testName = Some (match_name tm)
       /\ testKey tm = matched (match_name tm)
       /\ exists key,
            testKey tm = Some key
            /\ (Js.own kb key = Some (testData tm)
                \/ (Js.own kb key = None /\ Js.inherited key = true
                    /\ testData tm = inherited_entry key)).
Proof.
  unfold findBestTestMatch.
  destruct (findBestTestNameMatch (new None kb) testName) as [r|] eqn:E;
    [|split; [tauto|discriminate]].
  destruct (matched_key_defined kb testName r E) as (key & data & Hkey & Hdata & Hcases).
  unfold kb_get_opt. rewrite Hkey.
  change (knowledgeBase (new None kb)) with kb. rewrite Hdata.
  split; [split; discriminate|].
  intros tm [= <-]. simpl. split; [reflexivity|]. split; [congruence|].
  exists key. split; [reflexivity|exact Hcases].
Qed.

Lemma weighted_mean_bounds (W S lo hi : Q) :
  0 < W -> lo * W <= S -> S <= hi * W -> lo <= S / W <= hi.
Proof.
  intros HW Hlo Hhi. split.
  - apply Qle_shift_div_l; assumption.
  - apply Qle_shift_div_r; assumption.
Qed.

(** X14. The overall confidence lies between 0 and 1 when the similarities
    of the matches that are present do.  Without any match it is 0. *)
Theorem overall_confidence_bounds (nameMatch unitMatch statusMatch : option Match) :
  (forall x, In (Some x) [nameMatch; unitMatch; statusMatch] -> 0 <= similarity x <= 1) ->
  0 <= calculateOverallConfidence nameMatch unitMatch statusMatch <= 1
  /\ calculateOverallConfidence None None None = 0.
Proof.
  intros Hall. split; [|reflexivity].
  assert (Hn : forall x, nameMatch = Some x -> 0 <= similarity x <= 1)
    by (intros x ->; apply Hall; simpl; auto).
  assert (Hu : forall x, unitMatch = Some x -> 0 <= similarity x <= 1)
    by (intros x ->; apply Hall; simpl; auto).
  assert (Hs : forall x, statusMatch = Some x -> 0 <= similarity x <= 1)
    by (intros x ->; apply Hall; simpl; auto).
  unfold calculateOverallConfidence, add_weighted.
  destruct nameMatch as [n|], unitMatch as [u|], statusMatch as [s|]; simpl;
    try (split; discriminate);
    try specialize (Hn _ eq_refl); try specialize (Hu _ eq_refl);
    try specialize (Hs _ eq_refl);
    apply weighted_mean_bounds; lra.
Qed.

End MatcherVocabulary.

(** ** The normalizer on a batch *)

Section NormalizerBatch.

Import Normalizer.
Open Scope Q_scope.

Lemma clamp01_bounds (q : Q) : 0 <= clamp01 q <= 1.
Proof.
  unfold clamp01. split.
  - apply Q.le_max_l.
  - apply Q.max_lub; [discriminate|apply Q.le_min_l].
Qed.

Lemma individual_confidence_bounds (nz : t) (e : ExtractedTest) (r : NormalizedTest) (c : Q) :
  normalizeIndividualTest nz e = Some (r, c) -> 0 <= c <= 1.
Proof.
  unfold normalizeIndividualTest.
  destruct (normalizeTestName nz (rawTestName e)) as [n|]; [|discriminate].
  destruct (negb (Js.truthy n)); [discriminate|].
  destruct (kb_get _ n); [|discriminate].
  intros [= _ <-]. apply clamp01_bounds.
Qed.

Lemma score_bounds (nz : t) (e : option ExtractedTest) : 0 <= Inv.score nz e <= 1.
Proof.
  unfold Inv.score, Inv.outcome. destruct e as [e|]; [|split; discriminate].
  destruct (normalizeIndividualTest nz e) as [[r c]|] eqn:E; [|split; discriminate].
  eapply individual_confidence_bounds, E.
Qed.

(** The loop collects the tests that normalize, in order, and one score
    for every element. *)
Lemma normalize_loop (nz : t) (l : list (option ExtractedTest)) :
  forall ts cs,
    fold_left (normalize_step nz) l (ts, cs)
    = (ts ++ omap (fun e => fst <$> Inv.outcome nz e) l, cs ++ map (Inv.score nz) l).
Proof.
  induction l as [|e l IH]; intros ts cs.
  - simpl. now rewrite !app_nil_r.
  - change (fold_left (normalize_step nz) (e :: l) (ts, cs))
      with (fold_left (normalize_step nz) l (normalize_step nz (ts, cs) e)).
    destruct (normalize_step nz (ts, cs) e) as [ts' cs'] eqn:E. rewrite IH.
    unfold normalize_step in E. simpl. unfold Inv.score.
    destruct e as [e|]; simpl in *.
    + destruct (normalizeIndividualTest nz e) as [[r c]|]; simpl;
        injection E as <- <-; rewrite <- !app_assoc; reflexivity.
    + injection E as <- <-. rewrite <- !app_assoc. reflexivity.
Qed.

Lemma omap_length_le {A B : Type} (f : A -> option B) (l : list A) :
  (length (omap f l) <= length l)%nat.
Proof.
  unfold omap. induction l as [|a l IH]; simpl; [lia|]. destruct (f a); simpl; lia.
Qed.

Lemma sum_scores_bounds (l : list Q) :
  (forall q, In q l -> 0 <= q <= 1) ->
  forall acc, fold_left Qplus l acc <= acc + Q_of_nat (length l)
              /\ acc <= fold_left Qplus l acc.
Proof.
  induction l as [|q l IH]; intros Hl acc.
  - cbn [fold_left length]. change (Q_of_nat 0) with 0. split; lra.
  - cbn [fold_left length]. destruct (Hl q (or_introl eq_refl)) as [H0 H1].
    destruct (IH (fun x Hx => Hl x (or_intror Hx)) (acc + q)) as [Hu Hlo].
    assert (Hn : Q_of_nat (S (length l)) == Q_of_nat (length l) + 1).
    { unfold Q_of_nat. rewrite Nat2Z.inj_succ, <- Z.add_1_r, inject_Z_plus. reflexivity. }
    rewrite Hn. split; lra.
Qed.

(** X15. [normalizeTests] returns the tests that normalize, in the order of the
    input, and the mean of one score per element of the input, where an
    element that does not normalize (or is [null]) scores 0.  The mean lies
    between 0 and 1; it is 0 for an empty array and for an argument that is
    not an array. *)
Theorem normalizeTests_summary (nz : t) (l : list (option ExtractedTest)) :
  tests (normalizeTests nz (Some l)) = omap (fun e => fst <$> Inv.outcome nz e) l
  /\ (length (tests (normalizeTests nz (Some l))) <= length l)%nat
  /\ normalization_confidence (normalizeTests nz (Some l))
     = (if (0 <? length l)%nat
        then fold_left Qplus (map (Inv.score nz) l) 0 / Q_of_nat (length l)
        else 0.0)
  /\ 0 <= normalization_confidence (normalizeTests nz (Some l)) <= 1
  /\ normalization_confidence (normalizeTests nz None) = 0.0
  /\ tests (normalizeTests nz None) = [].
Proof.
  unfold normalizeTests. rewrite normalize_loop. simpl.
  rewrite length_map.
  split; [reflexivity|]. split; [apply omap_length_le|].
  split; [reflexivity|]. split; [|split; reflexivity].
  destruct (0 <? length l)%nat eqn:E; [|split; discriminate].
  apply Nat.ltb_lt in E.
  destruct (sum_scores_bounds (map (Inv.score nz) l)) with (acc := 0) as [Hu Hlo].
  { intros q Hq. apply in_map_iff in Hq. destruct Hq as (e & <- & _). apply score_bounds. }
  rewrite length_map in Hu.
  assert (Hpos : 0 < Q_of_nat (length l)) by now apply Q_of_nat_pos.
  split.
  - apply Qle_shift_div_l; [exact Hpos|]. lra.
  - apply Qle_shift_div_r; [exact Hpos|]. lra.
Qed.


(** X17. The confidence of a normalization lies between 0 and 1.  A reported
    confidence of 0 counts as missing: the base is then 0.8, and so the
    result is at least 0.8. *)
Theorem normalization_confidence_edges (rawName normalizedName : string) (v : JsValue)
    (u s : option string) (inputConfidence : option Q) :
  0 <= calculateNormalizationConfidence rawName normalizedName v u s inputConfidence <= 1
  /\ (forall c, c == 0 ->
        calculateNormalizationConfidence rawName normalizedName v u s (Some c)
        = calculateNormalizationConfidence rawName normalizedName v u s None)
  /\ 0.8 <= calculateNormalizationConfidence rawName normalizedName v u s None.
Proof.
  split; [apply clamp01_bounds|]. split.
  - intros c Hc. unfold calculateNormalizationConfidence.
    apply Qeq_bool_iff in Hc. now rewrite Hc.
  - unfold calculateNormalizationConfidence, clamp01.
    destruct (String.eqb _ _); destruct (negb _);
      destruct s as [st|]; try destruct (existsb _ _);
      (eapply Qle_trans; [|apply Q.le_max_r]); apply Q.min_glb; lra.
Qed.

End NormalizerBatch.

(** ** The guardrail on a batch *)

Section GuardrailAccounting.

Import Guardrail.
Open Scope Q_scope.

Variable g : Guardrail.t.
Variable text : option string.

(** The confidence of a valid record: the product of at most four
    penalties, 1 without a warning and at most 0.9 with one. *)
Lemma kept_confidence (test : Test) (testValidation : TestValidation) :
  validateSingleTest g test text = Returns testValidation ->
  isValid testValidation = true ->
  0.3024 <= confidence testValidation <= 1
  /\ (warnings testValidation = [] -> confidence testValidation == 1)
  /\ (warnings testValidation <> [] -> confidence testValidation <= 0.9).
Proof.
  intros E Hv.
  destruct (validation_cases g text test)
    as [(_ & H) | [(_ & m & _ & H) | [(_ & _ & tv & H & Hv' & _)
       | [(_ & _ & m & _ & H) | (_ & _ & u & tv & _ & H & _ & _ & Hw & Hc)]]]];
    rewrite H in E; try discriminate E; injection E as <-;
    try (simpl in Hv; discriminate Hv); try congruence.
  rewrite Hc, Hw. unfold Spec.factor_of, Spec.warnings_of, Spec.penalty.
  destruct (Spec.known g test), (isValueRealistic g test), u, (isStatusConsistent g test);
    simpl; repeat split; try discriminate; try reflexivity; intros Hn;
    try discriminate Hn; try (exfalso; apply Hn; reflexivity).
Qed.

(** What the loop does to the confidence when it keeps a record. *)
Lemma loop_keeps (test : Test) (rest : list Test) (acc : Validation)
    (testValidation : TestValidation) :
  validateSingleTest g test text = Returns testValidation ->
  isValid testValidation = true ->
  exists acc',
    validate_loop g text (test :: rest) acc = validate_loop g text rest acc'
    /\ v_confidence acc' == v_confidence acc * confidence testValidation
    /\ (v_warnings acc' = [] <-> v_warnings acc = [] /\ warnings testValidation = []).
Proof.
  intros E Hv.
  destruct (kept_confidence test testValidation E Hv) as (_ & Hone & _).
  destruct (loop_cases g text test rest acc)
    as [(m & E' & _) | [(tv & E' & _ & acc' & Eloop & _ & _ & _ & _ & Hnil & Hcons)
       | [(tv & E' & Hv' & _) | (tv & E' & Hv' & _)]]];
    try congruence.
  assert (tv = testValidation) by congruence. subst tv.
  exists acc'. split; [exact Eloop|].
  destruct (warnings testValidation) as [|w ws] eqn:Hw.
  - destruct (Hnil eq_refl) as [-> ->]. rewrite (Hone eq_refl).
    split; [ring|tauto].
  - destruct Hcons as [-> ->]; [discriminate|]. split; [reflexivity|].
    split; [intros H; now destruct (v_warnings acc)|intros [_ H]; discriminate H].
Qed.

(** When the loop ends, the rejected list and the error list hold one
    entry for each rejected record, in order. *)
Lemma loop_rejected (tests : list Test) :
  forall acc v,
    validate_loop g text tests acc = Returns (inr v) ->
    exists added,
      v_rejected_tests v = v_rejected_tests acc ++ added
      /\ v_errors v = v_errors acc ++ map rej_reason added
      /\ map rej_test added = List.filter (Spec.rejected g text) tests
      /\ forall rej, In rej added -> Inv.rejected_for g text (rej_test rej) (rej_reason rej).
Proof.
  induction tests as [|test rest IH]; intros acc v H.
  - simpl in H. injection H as <-. exists []. simpl. rewrite !app_nil_r.
    repeat split; try reflexivity. contradiction.
  - cbn [List.filter]. unfold Spec.rejected at 1.
    destruct (loop_cases g text test rest acc)
      as [(m & _ & E) | [(tv & Etv & Hv & acc' & E & _ & Hrej & Herr & _)
         | [(tv & _ & _ & _ & E) | (tv & Etv & Hv & _ & acc' & E & _ & Hrej & Herr & _)]]];
      rewrite E in H; try discriminate H; rewrite Etv, Hv; simpl negb; cbv iota.
    + destruct (IH _ _ H) as (added & H1 & H2 & H3 & H4).
      exists added. rewrite H1, H2, Hrej, Herr. auto.
    + destruct (IH _ _ H) as (added & H1 & H2 & H3 & H4).
      exists ({| rej_test := test; rej_reason := reason_text (rejectionReason tv) |}
              :: added).
      rewrite H1, H2, Hrej, Herr. simpl. rewrite <- !app_assoc, H3.
      repeat split; try reflexivity.
      intros rej [<- | Hin]; [|now apply H4].
      exists tv. simpl. auto.
Qed.

(** When the loop ends, the confidence has not grown, it is at most the
    confidence of every record kept, and it is unchanged exactly when no
    warning was added. *)
Lemma loop_confidence (tests : list Test) :
  forall acc v,
    validate_loop g text tests acc = Returns (inr v) ->
    0 <= v_confidence acc <= 1 ->
    0 <= v_confidence v <= v_confidence acc
    /\ (forall t tv, In t tests -> validateSingleTest g t text = Returns tv ->
        isValid tv = true -> v_confidence v <= confidence tv)
    /\ (v_warnings v = [] -> v_warnings acc = [] /\ v_confidence v == v_confidence acc)
    /\ (v_warnings acc <> [] -> v_warnings v <> [])
    /\ (v_warnings acc = [] -> v_warnings v <> [] -> v_confidence v <= 0.9).
Proof.
  induction tests as [|test rest IH]; intros acc v H Hacc.
  - simpl in H. injection H as <-.
    split; [lra|]. split; [contradiction|]. split; [split; [assumption|reflexivity]|].
    split; [tauto|]. intros; contradiction.
  - destruct (loop_cases g text test rest acc)
      as [(m & _ & E) | [(tv & Etv & Hv & _)
         | [(tv & _ & _ & _ & E) | (tv & Etv & Hv & _ & acc' & E & _ & _ & _ & _ & Hw & Hc)]]];
      try (rewrite E in H; discriminate H).
    + destruct (loop_keeps test rest acc tv Etv Hv) as (acc' & E & Hc & Hw).
      rewrite E in H.
      destruct (kept_confidence test tv Etv Hv) as ((Hlo & Hhi) & Hone & Hsome).
      assert (Hacc' : 0 <= v_confidence acc' <= 1) by (rewrite Hc; split; nra).
      destruct (IH _ _ H Hacc') as ((H0 & H1) & Hall & Hnil & Hcons & Hdrop).
      assert (Hle : v_confidence acc' <= v_confidence acc) by (rewrite Hc; nra).
      assert (Hletv : v_confidence acc' <= confidence tv) by (rewrite Hc; nra).
      split; [lra|]. split; [|split; [|split]].
      * intros t tv' [<- | Hin] Et Hvt; [|now apply (Hall t)].
        assert (tv' = tv) by congruence. subst tv'. lra.
      * intros Hv0. destruct (Hnil Hv0) as [Ha' Heq].
        apply Hw in Ha'. destruct Ha' as [Ha Hwt]. split; [exact Ha|].
        rewrite Heq, Hc, (Hone Hwt). ring.
      * intros Ha. apply Hcons. intros Ha'. apply Hw in Ha'. tauto.
      * intros Ha Hv0.
        destruct (warnings tv) as [|w ws] eqn:Hwt.
        -- assert (Ha' : v_warnings acc' = []) by (apply Hw; split; [exact Ha|reflexivity]).
           specialize (Hdrop Ha' Hv0). exact Hdrop.
        -- assert (Hc9 : confidence tv <= 0.9) by (apply Hsome; discriminate).
           lra.
    + rewrite E in H.
      assert (Hacc' : 0 <= v_confidence acc' <= 1) by (rewrite Hc; exact Hacc).
      destruct (IH _ _ H Hacc') as (H0 & Hall & Hnil & Hcons & Hdrop).
      rewrite Hc, Hw in *.
      split; [exact H0|]. split; [|split; [exact Hnil|split; [exact Hcons|exact Hdrop]]].
      intros t tv' [<- | Hin] Et Hvt; [congruence|now apply (Hall t)].
Qed.

(** With at most one record below 1 among those kept, the confidence
    loses at most the factor 0.3024. *)
Lemma loop_confidence_one_low (tests : list Test) :
  forall acc v,
    validate_loop g text tests acc = Returns (inr v) ->
    0 <= v_confidence acc ->
    (length (List.filter (Inv.below_one g text) (List.filter (Spec.kept g text) tests))
     <= 1)%nat ->
    v_confidence acc * 0.3024 <= v_confidence v
    /\ (length (List.filter (Inv.below_one g text) (List.filter (Spec.kept g text) tests))
        = 0%nat -> v_confidence v == v_confidence acc).
Proof.
  induction tests as [|test rest IH]; intros acc v H Hacc Hcount.
  - simpl in H. injection H as <-. split; [lra|reflexivity].
  - destruct (loop_cases g text test rest acc)
      as [(m & _ & E) | [(tv & Etv & Hv & _)
         | [(tv & _ & _ & _ & E) | (tv & Etv & Hv & _ & acc' & E & _ & _ & _ & _ & _ & Hc)]]];
      try (rewrite E in H; discriminate H).
    + destruct (loop_keeps test rest acc tv Etv Hv) as (acc' & E & Hc & _).
      rewrite E in H.
      assert (Hk : Spec.kept g text test = true) by (unfold Spec.kept; now rewrite Etv).
      assert (Hb : Inv.below_one g text test = Num.Qltb (confidence tv) 1)
        by (unfold Inv.below_one; now rewrite Etv).
      cbn [List.filter] in Hcount |- *. rewrite Hk in Hcount |- *.
      cbn [List.filter] in Hcount |- *. rewrite Hb in Hcount |- *.
      destruct (kept_confidence test tv Etv Hv) as ((Hlo & Hhi) & _).
      assert (Hacc' : 0 <= v_confidence acc') by (rewrite Hc; nra).
      destruct (Num.Qltb (confidence tv) 1) eqn:Elow; cbn [length] in Hcount |- *.
      * destruct (IH _ _ H Hacc' ltac:(lia)) as [_ Hsame].
        split; [|discriminate]. rewrite Hsame by lia. rewrite Hc. nra.
      * apply Qltb_ge in Elow.
        destruct (IH _ _ H Hacc' Hcount) as [Hlow Hsame].
        assert (Hone : confidence tv == 1) by lra.
        rewrite Hc, Hone in Hlow, Hsame.
        split; [lra|]. intros Hz. rewrite (Hsame Hz). ring.
    + rewrite E in H.
      assert (Hk : Spec.kept g text test = false) by (unfold Spec.kept; now rewrite Etv).
      cbn [List.filter] in Hcount |- *. rewrite Hk in Hcount |- *.
      assert (Hacc' : 0 <= v_confidence acc') by (rewrite Hc; exact Hacc).
      destruct (IH _ _ H Hacc' Hcount) as [Hlow Hsame].
      rewrite Hc in Hlow, Hsame. split; assumption.
Qed.

(** X18. Every record of the input of a completed validation is accounted for:
    the rejected list holds the rejected records in order, each with the
    reason of its rejection, the error list holds those reasons, and the
    validated and the rejected lists together are as long as the input. *)
Theorem validation_partitions_input (tests : list Test) (r : Verdict) (v : Validation) :
  validateTests g tests text = Returns r ->
  r_validation r = Some v ->
  map rej_test (v_rejected_tests v) = List.filter (Spec.rejected g text) tests
  /\ (forall rej, In rej (v_rejected_tests v) ->
      Inv.rejected_for g text (rej_test rej) (rej_reason rej))
  /\ v_errors v = map rej_reason (v_rejected_tests v)
  /\ (length (validated_tests v) + length (v_rejected_tests v) = length tests)%nat
  /\ r_rejected_tests r = v_rejected_tests v.
Proof.
  intros Hr H. destruct (completed_inv g text tests r v Hr H) as (v0 & Hloop & -> & ->).
  destruct (finalize_keeps v0) as (Hval & _ & _ & Hrej & Herr).
  destruct (loop_rejected tests _ _ Hloop) as (added & H1 & H2 & H3 & H4).
  simpl in H1, H2. rewrite Hrej, Herr, Hval, H1, H2.
  rewrite (loop_validated g text tests _ _ Hloop). simpl.
  split; [exact H3|]. split; [exact H4|]. split; [reflexivity|].
  split; [|simpl; rewrite Hrej; exact H1].
  rewrite <- (length_map rej_test added), H3.
  pose proof (loop_completed_clean g text tests _ _ Hloop) as Hclean.
  clear -Hclean. induction tests as [|t ts IH]; [reflexivity|].
  simpl in Hclean. apply orb_false_elim in Hclean as [Ht Hts].
  apply orb_false_elim in Ht as [_ Ht]. specialize (IH Hts).
  cbn [List.filter]. unfold Spec.kept at 1, Spec.rejected at 1.
  unfold Spec.throws in Ht.
  destruct (validateSingleTest g t text) as [tv|m]; [|discriminate].
  destruct (isValid tv); simpl; lia.
Qed.

(** X19. The confidence of a completed validation lies between 0 and 1, it
    is at most the confidence of every record kept, and it is 1 exactly
    when the validation has no warning. *)
Theorem batch_confidence_bounds (tests : list Test) (r : Verdict) (v : Validation) :
  validateTests g tests text = Returns r ->
  r_validation r = Some v ->
  0 <= v_confidence v <= 1
  /\ (forall t testValidation,
        In t (validated_tests v) ->
        validateSingleTest g t text = Returns testValidation ->
        v_confidence v <= confidence testValidation)
  /\ (v_confidence v == 1 <-> v_warnings v = [])
  /\ r_confidence r = v_confidence v.
Proof.
  intros Hr H. destruct (completed_inv g text tests r v Hr H) as (v0 & Hloop & -> & ->).
  destruct (finalize_keeps v0) as (Hval & Hw & Hconf & _).
  assert (Hinit : 0 <= v_confidence Spec.initial <= 1) by (split; discriminate).
  destruct (loop_confidence tests _ _ Hloop Hinit) as ((H0 & H1) & Hall & Hnil & _ & Hdrop).
  simpl in H1, Hnil, Hdrop.
  rewrite Hconf, Hval, Hw.
  split; [split; [exact H0|]|].
  { assert (H10 : 1.0 == 1) by reflexivity. lra. }
  split; [|split; [|simpl; now rewrite Hconf]].
  - intros t tv Hin Htv.
    rewrite (loop_validated g text tests _ _ Hloop) in Hin. simpl in Hin.
    apply filter_In in Hin. destruct Hin as [Hin Hk].
    unfold Spec.kept in Hk. rewrite Htv in Hk. now apply (Hall t).
  - split.
    + intros Hone. destruct (v_warnings v0) as [|w ws] eqn:Hws; [reflexivity|exfalso].
      assert (v_confidence v0 <= 0.9) by (apply Hdrop; [reflexivity|discriminate]).
      lra.
    + intros Hv0. destruct (Hnil Hv0) as [_ ->]. reflexivity.
Qed.

(** X20. One record with warnings cannot sink a batch: a completed validation
    has the status ["unprocessed"] only if at least two of the records it
    kept have a confidence below 1. *)
Theorem unprocessed_needs_two_warned (tests : list Test) (r : Verdict) (v : Validation) :
  validateTests g tests text = Returns r ->
  r_validation r = Some v ->
  r_status r = "unprocessed" ->
  (2 <= length (List.filter (Inv.below_one g text) (validated_tests v)))%nat.
Proof.
  intros Hr H Hst. destruct (completed_inv g text tests r v Hr H) as (v0 & Hloop & -> & ->).
  simpl in Hst.
  destruct (finalize_keeps v0) as (Hval & _ & Hconf & _).
  destruct (loop_status_confidence g text tests _ _ Hloop) as [Hok _]. simpl in Hok.
  assert (Hlow : v_confidence v0 < 0.3).
  { revert Hst. unfold finalize.
    destruct (Num.Qltb (v_confidence v0) 0.3) eqn:E3; [intros _; now apply Qltb_lt|].
    destruct (Num.Qltb (v_confidence v0) 0.6); [discriminate|].
    destruct (0 <? _)%nat; simpl; [discriminate|]. rewrite Hok. discriminate. }
  rewrite Hval, (loop_validated g text tests _ _ Hloop). simpl.
  destruct (le_lt_dec 2 (length (List.filter (Inv.below_one g text)
                                   (List.filter (Spec.kept g text) tests))))
    as [Hle | Hlt]; [exact Hle|exfalso].
  destruct (loop_confidence_one_low tests _ _ Hloop) as [Hge _];
    [discriminate|lia|].
  simpl in Hge.
  assert (H10 : 1.0 * 0.3024 == 0.3024) by reflexivity.
  lra.
Qed.

End GuardrailAccounting.

(** ** The names the guardrail knows *)

Section GuardrailNames.

Import Guardrail.
Open Scope Q_scope.








Lemma lower_char_idem (c : ascii) : Js.lower_char (Js.lower_char c) = Js.lower_char c.
Proof. destruct c as [[] [] [] [] [] [] [] []]; reflexivity. Qed.

Lemma toLowerCase_idem (s : string) : Js.toLowerCase (Js.toLowerCase s) = Js.toLowerCase s.
Proof.
  unfold Js.toLowerCase. induction s as [|c s IH]; simpl; [reflexivity|].
  now rewrite lower_char_idem, IH.
Qed.

Lemma toLowerCase_truthy (s : string) : Js.truthy (Js.toLowerCase s) = Js.truthy s.
Proof. now destruct s. Qed.

(** X22. The mention check ignores the letter case, of the name and of the
    text. *)
Theorem mention_check_ignores_case (g : Guardrail.t) (testName : string) (text : string) :
  isTestMentionedInOriginal g (Js.toLowerCase testName) (Some text)
  = isTestMentionedInOriginal g testName (Some text)
  /\ isTestMentionedInOriginal g testName (Some (Js.toLowerCase text))
     = isTestMentionedInOriginal g testName (Some text).
Proof.
  unfold isTestMentionedInOriginal, normalizeTestName.
  rewrite !toLowerCase_idem, toLowerCase_truthy. split; reflexivity.
Qed.

(** X23. A record whose name the catalog does not resolve is kept with the
    factor 0.7: its unit and its status are not checked, and its value only
    if the table of physical limits holds something under its lower-cased
    name. *)
Theorem unknown_test_only_warns (g : Guardrail.t) (text : option string) (test : Test) :
  kb_get (knowledgeBase g) "null" = None ->
  normalizeTestName g (Js.show (name test)) = None ->
  isValidTestStructure test = true ->
  isTestMentionedInOriginal g (Js.show (name test)) text = Returns true ->
  isUnitValid g test = Returns true
  /\ isStatusConsistent g test = true
  /\ exists testValidation,
       validateSingleTest g test text = Returns testValidation
       /\ isValid testValidation = true
       /\ confidence testValidation == 0.7 * Spec.penalty (isValueRealistic g test) 0.6
       /\ (Js.get physicalLimits (Js.toLowerCase (Js.show (name test))) = Js.Undefined ->
           confidence testValidation == 0.7
           /\ warnings testValidation = [UnknownTest (name test)]).
Proof.
  intros Hnull Hnone Hs Hm.
  assert (Hu : isUnitValid g test = Returns true)
    by (unfold isUnitValid, kb_get_opt; now rewrite Hnone, Hnull).
  assert (Hc : isStatusConsistent g test = true)
    by (unfold isStatusConsistent, kb_get_opt; now rewrite Hnone, Hnull).
  assert (Hreal : Js.get physicalLimits (Js.toLowerCase (Js.show (name test)))
                  = Js.Undefined -> isValueRealistic g test = true).
  { intros Hrow. unfold isValueRealistic. rewrite Hnone, Hrow. reflexivity. }
  assert (Hk : Spec.known g test = false) by (unfold Spec.known; now rewrite Hnone).
  split; [exact Hu|]. split; [exact Hc|].
  destruct (validation_cases g text test)
    as [(Hs' & _) | [(_ & m & Hm' & _) | [(_ & Hm' & _)
       | [(_ & _ & m & Hu' & _) | (_ & _ & u & tv & Hu' & Htv & Hv & _ & Hw & Hconf)]]]];
    try congruence.
  assert (u = true) by congruence. subst u.
  rewrite Hk, Hc in Hw, Hconf.
  exists tv. split; [exact Htv|]. split; [exact Hv|].
  split.
  { rewrite Hconf. unfold Spec.factor_of, Spec.penalty.
    destruct (isValueRealistic g test); reflexivity. }
  intros Hrow. rewrite (Hreal Hrow) in Hw, Hconf. split.
  - rewrite Hconf. reflexivity.
  - rewrite Hw. reflexivity.
Qed.

End GuardrailNames.

(** ** The two fuzzy matchers *)

Section FuzzyMatchers.

Open Scope Q_scope.

(** On strings of three characters or more the similarity of the validator
    is the one of the guardrail. *)
Lemma validator_similarity (str1 str2 : string) :
  (3 <= String.length str1)%nat -> (3 <= String.length str2)%nat ->
  HallucinationValidator.calculateSimilarity str1 str2
  == 1 - Q_of_nat (Lev.levenshteinDistance str1 str2)
         / Q_of_nat (Nat.max (String.length str1) (String.length str2)).
Proof.
  intros H1 H2.
  unfold HallucinationValidator.calculateSimilarity, HallucinationValidator.levenshteinDistance.
  replace (String.length str1 <? 3)%nat with false by (symmetry; apply Nat.ltb_ge; lia).
  replace (String.length str2 <? 3)%nat with false by (symmetry; apply Nat.ltb_ge; lia).
  simpl orb. cbv iota.
  destruct (String.length str2 <? String.length str1)%nat eqn:E.
  - apply Nat.ltb_lt in E.
    replace (String.length str1 =? 0)%nat with false by (symmetry; apply Nat.eqb_neq; lia).
    rewrite Nat.max_l by lia.
    assert (Hpos : 0 < Q_of_nat (String.length str1)) by (apply Q_of_nat_pos; lia).
    field. lra.
  - apply Nat.ltb_ge in E.
    replace (String.length str2 =? 0)%nat with false by (symmetry; apply Nat.eqb_neq; lia).
    rewrite Nat.max_r by lia. rewrite (distance_comm str2 str1).
    assert (Hpos : 0 < Q_of_nat (String.length str2)) by (apply Q_of_nat_pos; lia).
    field. lra.
Qed.

(** X24. The fuzzy matcher of [HallucinationValidator] is the stricter one:
    whenever it accepts a name against a text, [fuzzyMatchInText] of the
    guardrail accepts it too. *)
Theorem validator_fuzzy_implies_guardrail_fuzzy (testName text : string) :
  HallucinationValidator.fuzzyMatch testName text = true ->
  Guardrail.fuzzyMatchInText testName text = true.
Proof.
  unfold HallucinationValidator.fuzzyMatch, Guardrail.fuzzyMatchInText.
  destruct (String.length testName <? 4)%nat eqn:E4; [discriminate|].
  apply Nat.ltb_ge in E4.
  intros H. apply existsb_exists in H. destruct H as (word & Hin & Hsim).
  apply existsb_exists. exists word. split; [exact Hin|].
  apply Qltb_lt in Hsim.
  assert (Hlen : (3 <= String.length word)%nat).
  { destruct (le_lt_dec 3 (String.length word)) as [Hle | Hlt]; [exact Hle|exfalso].
    unfold HallucinationValidator.calculateSimilarity in Hsim.
    replace (String.length word <? 3)%nat with true in Hsim
      by (symmetry; apply Nat.ltb_lt; lia).
    rewrite Bool.orb_true_r in Hsim. lra. }
  pose proof (validator_similarity testName word ltac:(lia) Hlen) as Heq.
  replace (3 <=? String.length word)%nat with true by (symmetry; apply Nat.leb_le; lia).
  simpl andb. unfold Guardrail.calculateSimilarity, Guardrail.levenshteinDistance.
  replace (Nat.max (String.length testName) (String.length word) =? 0)%nat with false
    by (symmetry; apply Nat.eqb_neq; lia).
  unfold Num.gtb. simpl. apply Qltb_lt. rewrite <- Heq. lra.
Qed.

End FuzzyMatchers.

(** ** The raw text before parsing *)

Section RawText.

Import ReportParser.
Import Lev.

Lemma chars_app (a b : string) : chars (a +:+ b) = chars a ++ chars b.
Proof. induction a as [|c a IH]; simpl; [reflexivity|]. unfold chars in *. simpl. now f_equal. Qed.

Lemma chars_rev_string (s : string) :
  forall acc, chars (Js.rev_string acc s) = rev (chars s) ++ chars acc.
Proof.
  induction s as [|c s IH]; intros acc; simpl; [reflexivity|].
  rewrite IH. unfold chars. simpl. now rewrite <- app_assoc.
Qed.

Lemma chars_trimStart (s : string) : chars (Js.trimStart s) = Inv.drop_spaces (chars s).
Proof.
  induction s as [|c s IH]; simpl; [reflexivity|].
  unfold chars in *. simpl. destruct (Js.is_space c); [exact IH|reflexivity].
Qed.

Lemma chars_trimEnd (s : string) :
  chars (Js.trimEnd s) = rev (Inv.drop_spaces (rev (chars s))).
Proof.
  unfold Js.trimEnd.
  rewrite chars_rev_string, chars_trimStart, chars_rev_string.
  change (chars "") with (@nil ascii). now rewrite !app_nil_r.
Qed.

Lemma chars_trim (s : string) :
  chars (Js.trim s) = rev (Inv.drop_spaces (rev (Inv.drop_spaces (chars s)))).
Proof. unfold Js.trim. now rewrite chars_trimEnd, chars_trimStart. Qed.

Lemma drop_spaces_In (l : list ascii) (c : ascii) : In c (Inv.drop_spaces l) -> In c l.
Proof.
  induction l as [|x l IH]; simpl; [auto|].
  destruct (Js.is_space x); [intros H; right; auto|auto].
Qed.

Lemma drop_spaces_head (l : list ascii) (c : ascii) (l' : list ascii) :
  Inv.drop_spaces l = c :: l' -> Js.is_space c = false.
Proof.
  induction l as [|x l IH]; simpl; [discriminate|].
  destruct (Js.is_space x) eqn:E; [exact IH|]. now intros [= <- _].
Qed.

Lemma drop_spaces_idem (l : list ascii) : Inv.drop_spaces (Inv.drop_spaces l) = Inv.drop_spaces l.
Proof.
  destruct (Inv.drop_spaces l) as [|c l'] eqn:E; [reflexivity|].
  simpl. now rewrite (drop_spaces_head _ _ _ E).
Qed.

Lemma drop_spaces_snoc (x : list ascii) (c : ascii) :
  Js.is_space c = false -> Inv.drop_spaces (x ++ [c]) = Inv.drop_spaces x ++ [c].
Proof.
  intros Hc. induction x as [|y x IH]; simpl; [now rewrite Hc|].
  destruct (Js.is_space y); [exact IH|reflexivity].
Qed.

Lemma drop_spaces_blank (l : list ascii) :
  forallb Js.is_space (Inv.drop_spaces l) = forallb Js.is_space l.
Proof.
  induction l as [|c l IH]; simpl; [reflexivity|].
  destruct (Js.is_space c) eqn:E; simpl; [exact IH|now rewrite E].
Qed.

Lemma drop_spaces_nil (l : list ascii) : Inv.drop_spaces l = [] <-> forallb Js.is_space l = true.
Proof.
  induction l as [|c l IH]; simpl; [tauto|].
  destruct (Js.is_space c); simpl; [exact IH|]. split; discriminate.
Qed.

Lemma forallb_rev {A : Type} (f : A -> bool) (l : list A) :
  forallb f (rev l) = forallb f l.
Proof.
  induction l as [|a l IH]; simpl; [reflexivity|].
  rewrite forallb_app, IH. simpl. rewrite Bool.andb_true_r. apply Bool.andb_comm.
Qed.

(** Trimming twice is trimming once. *)
Lemma trim_chars_idem (l : list ascii) :
  rev (Inv.drop_spaces (rev (Inv.drop_spaces (rev (Inv.drop_spaces (rev (Inv.drop_spaces l))))))) = rev (Inv.drop_spaces (rev (Inv.drop_spaces l))).
Proof.
  destruct (Inv.drop_spaces l) as [|c m] eqn:E; [reflexivity|].
  pose proof (drop_spaces_head _ _ _ E) as Hc.
  assert (H1 : rev (Inv.drop_spaces (rev (c :: m))) = c :: rev (Inv.drop_spaces (rev m))).
  { simpl rev. rewrite drop_spaces_snoc by exact Hc. now rewrite rev_app_distr. }
  rewrite H1.
  assert (H2 : Inv.drop_spaces (c :: rev (Inv.drop_spaces (rev m)))
               = c :: rev (Inv.drop_spaces (rev m))) by (simpl; now rewrite Hc).
  rewrite H2. simpl rev. rewrite rev_involutive, drop_spaces_snoc by exact Hc.
  now rewrite drop_spaces_idem, rev_app_distr.
Qed.

Lemma trim_idem (s : string) : Js.trim (Js.trim s) = Js.trim s.
Proof. apply chars_inj. rewrite !chars_trim. apply trim_chars_idem. Qed.

Lemma trim_In (s : string) (c : ascii) : In c (chars (Js.trim s)) -> In c (chars s).
Proof.
  rewrite chars_trim. intros H.
  apply in_rev, drop_spaces_In in H. apply in_rev in H. now apply drop_spaces_In.
Qed.

Lemma chars_nil (s : string) : chars s = [] <-> s = "".
Proof. split; [now destruct s|now intros ->]. Qed.

Lemma trim_empty_iff (s : string) : Js.trim s = "" <-> Inv.blank s = true.
Proof.
  rewrite <- chars_nil, chars_trim. unfold Inv.blank.
  rewrite <- (drop_spaces_blank (chars s)), <- (forallb_rev _ (Inv.drop_spaces (chars s))).
  rewrite <- drop_spaces_nil. split.
  - intros H. apply (f_equal (@rev ascii)) in H. now rewrite rev_involutive in H.
  - now intros ->.
Qed.

Lemma blank_app (a b : string) : Inv.blank (a +:+ b) = Inv.blank a && Inv.blank b.
Proof. unfold Inv.blank. now rewrite chars_app, forallb_app. Qed.

Lemma blank_join (l : list string) : Inv.blank (join " " l) = forallb Inv.blank l.
Proof.
  induction l as [|a l IH]; [reflexivity|].
  destruct l as [|b l]; [simpl; now rewrite Bool.andb_true_r|].
  change (join " " (a :: b :: l)) with (a +:+ " " +:+ join " " (b :: l)).
  rewrite !blank_app, IH. reflexivity.
Qed.

Lemma split_lines_cons (s : string) : exists line rest, split_lines s = line :: rest.
Proof.
  induction s as [|c s (line & rest & E)]; simpl; [eauto|].
  destruct (Ascii.eqb c LF); [eauto|]. rewrite E. eauto.
Qed.

Lemma blank_split (s : string) : forallb Inv.blank (split_lines s) = Inv.blank s.
Proof.
  induction s as [|c s IH]; [reflexivity|].
  simpl split_lines. destruct (Ascii.eqb c LF) eqn:E.
  - apply Ascii.eqb_eq in E. subst c. simpl. exact IH.
  - destruct (split_lines_cons s) as (line & rest & El). rewrite El in *.
    unfold Inv.blank in *. simpl in *. now rewrite <- IH, Bool.andb_assoc.
Qed.

Lemma split_no_lf (s : string) (line : string) :
  In line (split_lines s) -> ~ In LF (chars line).
Proof.
  revert line. induction s as [|c s IH]; intros line; simpl.
  - intros [<- | []]. simpl. tauto.
  - destruct (Ascii.eqb c LF) eqn:E.
    + intros [<- | H]; [simpl; tauto|now apply IH].
    + destruct (split_lines_cons s) as (first & rest & El). rewrite El in *.
      intros [<- | H].
      * unfold chars. simpl. intros [-> | H].
        -- now rewrite Ascii.eqb_refl in E.
        -- apply (IH first); [now left|exact H].
      * apply IH. now right.
Qed.

Lemma split_single (s : string) : ~ In LF (chars s) -> split_lines s = [s].
Proof.
  induction s as [|c s IH]; [reflexivity|].
  unfold chars. simpl. intros H.
  destruct (Ascii.eqb c LF) eqn:E.
  - apply Ascii.eqb_eq in E. subst c. exfalso. apply H. now left.
  - rewrite IH; [reflexivity|]. intros Hin. apply H. now right.
Qed.

Lemma join_In (l : list string) (c : ascii) :
  In c (chars (join " " l)) -> c = " "%char \/ exists line, In line l /\ In c (chars line).
Proof.
  induction l as [|a l IH]; [simpl; tauto|].
  destruct l as [|b l].
  - simpl. intros H. right. exists a. split; [now left|exact H].
  - change (join " " (a :: b :: l)) with (a +:+ " " +:+ join " " (b :: l)).
    rewrite !chars_app. intros H.
    apply in_app_or in H. destruct H as [H | H].
    + right. exists a. split; [now left|exact H].
    + apply in_app_or in H. destruct H as [[<- | []] | H]; [now left|].
      destruct (IH H) as [-> | (line & Hl & Hc)]; [now left|].
      right. exists line. split; [now right|exact Hc].
Qed.

Lemma preprocess_no_lf (rawText : option string) :
  ~ In LF (chars (preprocessOcrText rawText)).
Proof.
  unfold preprocessOcrText. destruct rawText as [s|]; [|simpl; tauto].
  destruct (negb (Js.truthy s)); [simpl; tauto|].
  intros H. apply trim_In, join_In in H.
  destruct H as [H | (line & Hl & Hc)]; [discriminate H|].
  apply filter_In in Hl. destruct Hl as [Hl _].
  exact (split_no_lf s line Hl Hc).
Qed.

Lemma preprocess_trimmed (rawText : option string) :
  Js.trim (preprocessOcrText rawText) = preprocessOcrText rawText.
Proof.
  unfold preprocessOcrText. destruct rawText as [s|]; [|reflexivity].
  destruct (negb (Js.truthy s)); [reflexivity|apply trim_idem].
Qed.

Lemma preprocess_empty_iff (s : string) :
  preprocessOcrText (Some s) = "" <-> Js.trim s = "".
Proof.
  unfold preprocessOcrText.
  destruct s as [|c s]; [simpl; tauto|].
  cbn [Js.truthy negb].
  rewrite !trim_empty_iff, blank_join, <- blank_split.
  set (lines := split_lines (String c s)).
  induction lines as [|line lines IH]; [simpl; tauto|].
  cbn [List.filter forallb].
  destruct (String.eqb (Js.trim line) "") eqn:E; cbn [negb].
  - apply String.eqb_eq, trim_empty_iff in E. rewrite E. exact IH.
  - assert (Hb : Inv.blank line = false).
    { destruct (Inv.blank line) eqn:Hb; [|reflexivity].
      apply trim_empty_iff in Hb. rewrite Hb in E. discriminate. }
    cbn [forallb]. rewrite Hb. simpl. split; discriminate.
Qed.

(** X25. [preprocessOcrText] returns one line without whitespace around it: the
    result holds no line feed and trimming leaves it as it is.  Applying
    the function to its result changes nothing.  The result is empty
    exactly when the input holds whitespace only. *)
Theorem preprocessOcrText_one_line (rawText : option string) :
  ~ In LF (chars (preprocessOcrText rawText))
  /\ Js.trim (preprocessOcrText rawText) = preprocessOcrText rawText
  /\ preprocessOcrText (Some (preprocessOcrText rawText)) = preprocessOcrText rawText
  /\ (forall s, preprocessOcrText (Some s) = "" <-> Js.trim s = "")
  /\ preprocessOcrText None = "".
Proof.
  split; [apply preprocess_no_lf|]. split; [apply preprocess_trimmed|].
  split; [|split; [apply preprocess_empty_iff|reflexivity]].
  pose proof (preprocess_no_lf rawText) as Hlf.
  pose proof (preprocess_trimmed rawText) as Htrim.
  destruct (preprocessOcrText rawText) as [|c r]; [reflexivity|].
  unfold preprocessOcrText.
  cbn [Js.truthy negb]. rewrite (split_single _ Hlf). cbn [List.filter].
  rewrite Htrim. simpl String.eqb. cbn [negb join]. exact Htrim.
Qed.

(** X26. [validateInput] accepts a string of at most 10000 characters that does
    not hold whitespace only, and nothing else; what it accepts is not
    emptied by [preprocessOcrText]. *)
Theorem validateInput_accepts (text : option string) :
  isValid (validateInput text) = true ->
  exists s,
    text = Some s
    /\ Js.trim s <> ""
    /\ (Z.of_nat (String.length s) <= 10000)%Z
    /\ preprocessOcrText text <> "".
Proof.
  unfold validateInput. destruct text as [s|]; [|discriminate].
  destruct (negb (Js.truthy s)); [discriminate|].
  destruct (String.length (Js.trim s) =? 0)%nat eqn:E0; [discriminate|].
  destruct (10000 <? Z.of_nat (String.length s))%Z eqn:E1; [discriminate|].
  intros _. exists s.
  assert (Htrim : Js.trim s <> "").
  { intros H. rewrite H in E0. discriminate. }
  split; [reflexivity|]. split; [exact Htrim|]. split; [now apply Z.ltb_ge|].
  intros H. apply preprocess_empty_iff in H. contradiction.
Qed.

End RawText.

(** ** The answer of the server *)

Section ServerAnswer.

Import Guardrail.
Import Server.
Open Scope Q_scope.

Variable g : Guardrail.t.

(** The status of a completed validation, by its confidence. *)
Lemma completed_status (text : option string) (tests : list Test) (r : Verdict)
    (v : Validation) :
  validateTests g tests text = Returns r ->
  r_validation r = Some v ->
  r_status r = v_status v
  /\ r_confidence r = v_confidence v
  /\ (v_status v = "unprocessed" /\ v_confidence v < 0.3
      \/ v_status v <> "unprocessed" /\ v_status v <> "error" /\ 0.3 <= v_confidence v).
Proof.
  intros Hr H. destruct (completed_inv g text tests r v Hr H) as (v0 & Hloop & -> & ->).
  simpl. split; [reflexivity|]. split; [reflexivity|].
  destruct (loop_status_confidence g text tests _ _ Hloop) as [Hok _]. simpl in Hok.
  unfold finalize.
  destruct (Num.Qltb (v_confidence v0) 0.3) eqn:E3; simpl.
  - left. split; [reflexivity|now apply Qltb_lt].
  - right. apply Qltb_ge in E3.
    destruct (Num.Qltb (v_confidence v0) 0.6); simpl;
      [repeat split; [discriminate|discriminate|exact E3]|].
    destruct (0 <? _)%nat; simpl;
      [repeat split; [discriminate|discriminate|exact E3]|].
    rewrite Hok. repeat split; [discriminate|discriminate|exact E3].
Qed.

(** X27. When a well-formed record of the parsed tests is not traceable to
    the text, the guardrail stops at the first record that it flags as a
    hallucination or whose validation throws.  At a flagged record the
    server answers 400 with the status ["unprocessed"] and a reason that
    names this record, whatever the parser reported; at an exception it
    answers 500. *)
Theorem respond_rejects_untraceable (parsedData : Parsed) (text : option string)
    (tests : list Test) :
  p_tests parsedData = Some tests ->
  (exists test, In test tests /\ Spec.fails_traceability g text test) ->
  exists pre culprit post,
    tests = pre ++ culprit :: post
    /\ forallb (fun t => negb (Spec.flagged g text t || Spec.throws g text t)) pre = true
    /\ ((Spec.flagged g text culprit = true
         /\ respond g parsedData text =
              BadRequest "unprocessed"
                (Some ("hallucinated tests not present in input: "
                       +:+ Js.show (name culprit))))
        \/ (exists message,
              validateSingleTest g culprit text = Throws message
              /\ respond g parsedData text = internal_error message)).
Proof.
  intros Htests (test & Hin & Hfail).
  assert (Hex : existsb (fun t => Spec.flagged g text t || Spec.throws g text t) tests
                = true).
  { apply existsb_exists. exists test. split; [exact Hin|].
    now rewrite (untraceable_flagged g text test Hfail). }
  destruct (validateTests_stops_at_first g text tests Hex)
    as (pre & culprit & post & Hsplit & Hpre & Hstop).
  exists pre, culprit, post. split; [exact Hsplit|]. split; [exact Hpre|].
  unfold respond. rewrite Htests.
  destruct Hstop as [(Hflag & rejected & Hrun) | (message & Hthrow & Hrun)]; rewrite Hrun.
  - left. split; [exact Hflag|reflexivity].
  - right. exists message. split; [exact Hthrow|reflexivity].
Qed.

(** X28. When the server answers 200, the validation returned, the tests
    sent are the records that the guardrail kept, in the order of the
    parser, and there is at least one; the status sent is ["ok"] whatever
    the guardrail warned about; the confidence of the guardrail is at least
    0.3 and the confidence sent is not above it. *)
Theorem respond_ok (parsedData : Parsed) (text : option string)
    (sent : list Test) (c : Q) (st : string) :
  respond g parsedData text = Ok sent c st ->
  let tests := match p_tests parsedData with Some tests => tests | None => [] end in
  exists r,
    validateTests g tests text = Returns r
    /\ st = "ok"
    /\ sent <> []
    /\ sent = List.filter (Spec.kept g text) tests
    /\ sublist sent tests
    /\ 0.3 <= r_confidence r
    /\ c <= r_confidence r
    /\ r_status r <> "unprocessed".
Proof.
  unfold respond.
  set (tests := match p_tests parsedData with Some tests => tests | None => [] end).
  destruct (validateTests g tests text) as [r|message] eqn:Hr;
    [|unfold internal_error; discriminate].
  destruct (String.eqb (r_status r) "unprocessed") eqn:Eu; [discriminate|].
  destruct (status_is (p_status parsedData) "unprocessed"); [discriminate|].
  destruct (status_is (p_status parsedData) "error"); [discriminate|].
  destruct (r_validation r) as [v|] eqn:Ev; [|discriminate].
  destruct (validated_tests v) as [|t0 rest] eqn:Eval; [discriminate|].
  intros [= <- <- <-]. simpl.
  exists r. split; [reflexivity|].
  destruct (completed_status text tests r v Hr Ev) as (Hst & Hconf & Hcases).
  apply String.eqb_neq in Eu.
  destruct Hcases as [[Hun _] | (Hnu & Hne & Hge)]; [rewrite Hst in Eu; contradiction|].
  assert (Hfilter : validated_tests v = List.filter (Spec.kept g text) tests).
  { destruct (completed_inv g text tests r v Hr Ev) as (v0 & Hloop & -> & _).
    destruct (finalize_keeps v0) as (-> & _).
    now rewrite (loop_validated g text tests _ _ Hloop). }
  split.
  { destruct (String.eqb (r_status r) "error") eqn:Ee; [|reflexivity].
    apply String.eqb_eq in Ee. rewrite Hst in Ee. contradiction. }
  split; [discriminate|]. split; [now rewrite <- Eval|].
  split; [rewrite <- Eval, Hfilter; apply filter_sublist|].
  rewrite Hconf. split; [exact Hge|]. split; [|exact Eu].
  unfold or_one.
  destruct (Qeq_bool (v_confidence v) 0) eqn:E0.
  - apply Qeq_bool_iff in E0. lra.
  - apply Q.le_min_r.
Qed.

End ServerAnswer.

(** ** The normalizer and the guardrail agree on the status *)

Section StatusAgreement.

Import Guardrail.
Open Scope Q_scope.

(** X29. The status that the normalizer computes from a range passes the status
    check of the guardrail against the same range, for every number, NaN
    and the infinities included, as long as the range is not inverted. *)
Theorem normalizer_status_passes_guardrail (g : Guardrail.t) (test : Test)
    (data : TestData) (range : Range) (v : JsNumber) (provided : option string) :
  kb_get_opt (knowledgeBase g) (normalizeTestName g (Js.show (name test))) = Some data ->
  td_normalRange data = Some range ->
  low range <= high range ->
  value test = VNumber v ->
  status test = Some (Normalizer.determineStatus (VNumber v) range provided) ->
  isStatusConsistent g test = true.
Proof.
  intros Hdata Hrange Hle Hv Hs.
  unfold isStatusConsistent. rewrite Hdata, Hrange, Hv, Hs.
  unfold Normalizer.determineStatus. simpl ParseFloat.parseFloat.
  destruct v as [| |q|]; simpl Num.isNaN; cbv iota.
  - reflexivity.
  - reflexivity.
  - unfold Num.gtb, Num.geb. simpl Num.ltb. simpl Num.leb.
    destruct (Num.Qltb q (low range)) eqn:Elo.
    + apply Qltb_lt in Elo.
      assert (H1 : Num.Qltb (high range) q = false) by (apply Qltb_ge; lra).
      assert (H2 : Num.Qleb (low range) q = false).
      { apply Bool.not_true_is_false. intros H. apply Qleb_le in H. lra. }
      rewrite H1, H2. reflexivity.
    + destruct (Num.Qltb (high range) q) eqn:Ehi.
      * apply Qltb_lt in Ehi.
        assert (H2 : Num.Qleb q (high range) = false).
        { apply Bool.not_true_is_false. intros H. apply Qleb_le in H. lra. }
        rewrite H2. destruct (Num.Qleb (low range) q); reflexivity.
      * destruct (Num.Qleb (low range) q), (Num.Qleb q (high range)); reflexivity.
  - reflexivity.
Qed.

End StatusAgreement.

(** ** The second loop of the Jaro similarity *)

Section JaroLoop.

Import SimilarityMatcher.

(** X7. In the second loop of [jaroSimilarity], at every index [i] whose flag
    in [matches1] is set, the inner loop [while (!matches2[k]) k++] stops
    inside [matches2], on a set flag: it never walks past the end of the
    array, where it would not stop. *)
Theorem jaro_inner_loop_stops (str1 str2 : string) (i : nat) :
  nth i (matches1 (jaro_scan str1 str2)) false = true ->
  let st := jaro_scan str1 str2 in
  let k := fst (fold_left (jaro_transposition_step str1 str2 st) (seq 0 i) (0%nat, 0%nat)) in
  (next_match (matches2 st) k < String.length str2)%nat
  /\ nth (next_match (matches2 st) k) (matches2 st) false = true.
Proof.
  intros H. exact (proj2 (jaro_second_loop str1 str2 i) H).
Qed.

End JaroLoop.

(** ** The further properties on sample inputs *)

Section FurtherWitnesses.

Import Guardrail.
Open Scope Q_scope.

Lemma unit_match_never_low_witness :
  exists tm,
    SimilarityMatcher.findBestTestMatch Sample.matcher (Some "Hemoglobin") (Fin 10.2)
      (Some "g/dl") (Some "Low") = Some tm
    /\ match SimilarityMatcher.findBestUnitMatch Sample.matcher (Some "g/dl") with
       | Some um =>
           SimilarityMatcher.match_unit tm = um /\ SimilarityMatcher.confidence um <> "low"
       | None =>
           SimilarityMatcher.match_unit tm =
             {| SimilarityMatcher.matched := td_unit (SimilarityMatcher.testData tm);
                SimilarityMatcher.similarity := 0.8;
                SimilarityMatcher.confidence := "assumed";
                SimilarityMatcher.method := None |}
       end.
Proof.
  destruct (SimilarityMatcher.findBestTestMatch Sample.matcher (Some "Hemoglobin") (Fin 10.2)
              (Some "g/dl") (Some "Low")) as [tm|] eqn:E;
    [|vm_compute in E; discriminate E].
  exists tm. split; [reflexivity|].
  exact (unit_match_never_low Sample.matcher (Some "Hemoglobin") (Fin 10.2)
           (Some "g/dl") (Some "Low") tm eq_refl E).
Defined.

Lemma overall_confidence_bounds_witness :
  0 <= SimilarityMatcher.calculateOverallConfidence
         (Some (SimilarityMatcher.exact "hemoglobin" "direct_lookup"))
         (Some {| SimilarityMatcher.matched := Some "g/dL";
                  SimilarityMatcher.similarity := 0.8;
                  SimilarityMatcher.confidence := "assumed";
                  SimilarityMatcher.method := None |})
         None <= 1
  /\ SimilarityMatcher.calculateOverallConfidence None None None = 0.
Proof.
  apply overall_confidence_bounds.
  intros x [H | [H | [H | []]]]; try discriminate H;
    injection H as <-; simpl; split; discriminate.
Defined.


Lemma validation_partitions_input_witness :
  exists r v,
    validateTests Sample.guardrail [Sample.glucose_no_unit; Sample.hemoglobin_low]
      (Some Sample.report) = Returns r
    /\ r_validation r = Some v
    /\ (length (validated_tests v) + length (v_rejected_tests v)
        = length [Sample.glucose_no_unit; Sample.hemoglobin_low])%nat.
Proof.
  destruct (validateTests Sample.guardrail [Sample.glucose_no_unit; Sample.hemoglobin_low]
              (Some Sample.report)) as [r|m] eqn:E;
    [|vm_compute in E; discriminate E].
  destruct (r_validation r) as [v|] eqn:Ev;
    [|vm_compute in E; injection E as <-; discriminate Ev].
  exists r, v. split; [reflexivity|]. split; [exact Ev|].
  destruct (validation_partitions_input Sample.guardrail (Some Sample.report)
              [Sample.glucose_no_unit; Sample.hemoglobin_low] r v E Ev)
    as (_ & _ & _ & Hlen & _).
  exact Hlen.
Defined.

Lemma batch_confidence_bounds_witness :
  exists r v,
    validateTests Sample.guardrail [Sample.glucose_5000] (Some "Glucose 5000 mg/dL (High)")
    = Returns r
    /\ r_validation r = Some v
    /\ 0 <= v_confidence v <= 1.
Proof.
  destruct (validateTests Sample.guardrail [Sample.glucose_5000]
              (Some "Glucose 5000 mg/dL (High)")) as [r|m] eqn:E;
    [|vm_compute in E; discriminate E].
  destruct (r_validation r) as [v|] eqn:Ev;
    [|vm_compute in E; injection E as <-; discriminate Ev].
  exists r, v. split; [reflexivity|]. split; [exact Ev|].
  destruct (batch_confidence_bounds Sample.guardrail (Some "Glucose 5000 mg/dL (High)")
              [Sample.glucose_5000] r v E Ev) as (Hc & _).
  exact Hc.
Defined.

Lemma unprocessed_needs_two_warned_witness :
  exists r v,
    validateTests Sample.guardrail [Cases.glucose_5000_normal; Cases.glucose_5000_normal]
      (Some "Glucose 5000 mg/dL (Normal)") = Returns r
    /\ r_validation r = Some v
    /\ r_status r = "unprocessed"
    /\ (2 <= length (List.filter
                       (Inv.below_one Sample.guardrail (Some "Glucose 5000 mg/dL (Normal)"))
                       (validated_tests v)))%nat.
Proof.
  destruct (validateTests Sample.guardrail
              [Cases.glucose_5000_normal; Cases.glucose_5000_normal]
              (Some "Glucose 5000 mg/dL (Normal)")) as [r|m] eqn:E;
    [|vm_compute in E; discriminate E].
  destruct (r_validation r) as [v|] eqn:Ev;
    [|vm_compute in E; injection E as <-; discriminate Ev].
  assert (Hst : r_status r = "unprocessed")
    by (vm_compute in E; injection E as <-; reflexivity).
  exists r, v. split; [reflexivity|]. split; [exact Ev|]. split; [exact Hst|].
  exact (unprocessed_needs_two_warned Sample.guardrail (Some "Glucose 5000 mg/dL (Normal)")
           [Cases.glucose_5000_normal; Cases.glucose_5000_normal] r v E Ev Hst).
Defined.

Lemma unknown_test_only_warns_witness :
  isUnitValid Sample.guardrail Cases.ferritin = Returns true
  /\ exists testValidation,
       validateSingleTest Sample.guardrail Cases.ferritin
         (Some "Ferritin 100 ng/mL (Normal)") = Returns testValidation
       /\ isValid testValidation = true
       /\ confidence testValidation == 0.7.
Proof.
  assert (H1 : kb_get (knowledgeBase Sample.guardrail) "null" = None)
    by (vm_compute; reflexivity).
  assert (H2 : normalizeTestName Sample.guardrail (Js.show (name Cases.ferritin)) = None)
    by (vm_compute; reflexivity).
  assert (H3 : isValidTestStructure Cases.ferritin = true) by reflexivity.
  assert (H4 : isTestMentionedInOriginal Sample.guardrail (Js.show (name Cases.ferritin))
                 (Some "Ferritin 100 ng/mL (Normal)") = Returns true)
    by (vm_compute; reflexivity).
  destruct (unknown_test_only_warns Sample.guardrail (Some "Ferritin 100 ng/mL (Normal)")
              Cases.ferritin H1 H2 H3 H4) as (Hu & _ & tv & Htv & Hv & _ & Hrow).
  split; [exact Hu|]. exists tv. split; [exact Htv|]. split; [exact Hv|].
  apply Hrow. reflexivity.
Defined.

Lemma validator_fuzzy_implies_guardrail_fuzzy_witness :
  fuzzyMatchInText "hemoglobin" "hemoglobn 10.2" = true.
Proof.
  apply validator_fuzzy_implies_guardrail_fuzzy. vm_compute. reflexivity.
Defined.

Lemma validateInput_accepts_witness :
  exists s,
    Some Sample.report = Some s
    /\ Js.trim s <> ""
    /\ (Z.of_nat (String.length s) <= 10000)%Z
    /\ ReportParser.preprocessOcrText (Some Sample.report) <> "".
Proof.
  apply validateInput_accepts. vm_compute. reflexivity.
Defined.

Lemma respond_rejects_untraceable_witness :
  exists pre culprit post,
    [Sample.hemoglobin_low; Sample.cholesterol_high] = pre ++ culprit :: post
    /\ forallb (fun t => negb (Spec.flagged Sample.guardrail (Some Sample.report) t
                              || Spec.throws Sample.guardrail (Some Sample.report) t)) pre
       = true
    /\ ((Spec.flagged Sample.guardrail (Some Sample.report) culprit = true
         /\ Server.respond Sample.guardrail Cases.parsed_with_extra (Some Sample.report) =
              Server.BadRequest "unprocessed"
                (Some ("hallucinated tests not present in input: "
                       +:+ Js.show (name culprit))))
        \/ (exists message,
              validateSingleTest Sample.guardrail culprit (Some Sample.report)
              = Throws message
              /\ Server.respond Sample.guardrail Cases.parsed_with_extra (Some Sample.report)
                 = Server.internal_error message)).
Proof.
  apply (respond_rejects_untraceable Sample.guardrail Cases.parsed_with_extra
           (Some Sample.report) [Sample.hemoglobin_low; Sample.cholesterol_high] eq_refl).
  exists Sample.cholesterol_high. split; [simpl; auto|].
  split; vm_compute; reflexivity.
Defined.

Lemma respond_ok_witness :
  exists c r,
    Server.respond Sample.guardrail Cases.parsed_report (Some Sample.report)
    = Server.Ok [Sample.hemoglobin_low] c "ok"
    /\ validateTests Sample.guardrail [Sample.hemoglobin_low] (Some Sample.report)
       = Returns r
    /\ c <= r_confidence r.
Proof.
  assert (E : Server.respond Sample.guardrail Cases.parsed_report (Some Sample.report)
              = Server.Ok [Sample.hemoglobin_low] (Qmin 0.9 1.0) "ok")
    by (vm_compute; reflexivity).
  destruct (respond_ok Sample.guardrail Cases.parsed_report (Some Sample.report)
              [Sample.hemoglobin_low] (Qmin 0.9 1.0) "ok" E)
    as (r & Hr & _ & _ & _ & _ & _ & Hc & _).
  exists (Qmin 0.9 1.0), r. split; [exact E|]. split; [exact Hr|exact Hc].
Defined.

Lemma normalizer_status_passes_guardrail_witness :
  isStatusConsistent Sample.guardrail Cases.hemoglobin_normalized = true.
Proof.
  apply (normalizer_status_passes_guardrail Sample.guardrail Cases.hemoglobin_normalized
           (entry "Hemoglobin" "g/dL" ["hgb"; "hb"; "hemglobin"; "heoglobin"; "hemglobin"]
              12.0 15.0 0 30)
           {| low := 12.0; high := 15.0 |} (Fin 10.2) (Some "high")).
  - vm_compute. reflexivity.
  - reflexivity.
  - simpl. discriminate.
  - reflexivity.
  - reflexivity.
Defined.

Lemma jaro_inner_loop_stops_witness :
  let st := SimilarityMatcher.jaro_scan "martha" "marhta" in
  let k := fst (fold_left (SimilarityMatcher.jaro_transposition_step "martha" "marhta" st)
                  (seq 0 4) (0%nat, 0%nat)) in
  (SimilarityMatcher.next_match (SimilarityMatcher.matches2 st) k < String.length "marhta")%nat
  /\ nth (SimilarityMatcher.next_match (SimilarityMatcher.matches2 st) k)
       (SimilarityMatcher.matches2 st) false = true.
Proof.
  apply (jaro_inner_loop_stops "martha" "marhta" 4). vm_compute. reflexivity.
Defined.

End FurtherWitnesses.
